(** * Substrate staking analytics of airgap-coin-lib: model and properties

    A shallow embedding of the parts of the library that the specification
    talks about: the array utilities, the metadata decoder entry point, the
    lazy initialisation of the Substrate node client, the account and
    delegation controller and the balance queries of the protocol classes.

    Conventions of the embedding.
    - An [async] function is modelled by the final state of the promise it
      returns once the event loop is idle: [Fulfilled], [Rejected] or
      [Pending] (never settled).
    - Values decoded from chain storage (SCALE integers) are integers and
      are modelled by [Z]; the results of the reward arithmetic are
      [BigNumber.t] values.
    - A JavaScript number is an IEEE 754 binary64 value, [Number.t]; the
      instants that [toNumber] turns into numbers are rounded to the
      nearest one. Era indices, 32-bit integers of the chain, are modelled
      by [Z] wherever they occur.
    - Account identifiers are modelled by their normalised address string;
      [SubstrateAddress.from], [asAddress], [getValue] and [toString] are
      the identity on them and [compare(..) === 0] is string equality. *)

From Stdlib Require Import ZArith QArith Qabs List String Ascii Bool Lia Arith.
From Stdlib Require Import Permutation Sorted.
From Stdlib Require Import DecimalString.
From Stdlib.Strings Require Import Byte.
From Stdlib Require Floats.SpecFloat.
Import ListNotations.

Local Open Scope string_scope.
Local Open Scope list_scope.
Local Open Scope Z_scope.

(* ================================================================== *)
(** * Part I: the model                                                 *)
(* ================================================================== *)

(** ** Promises and thrown errors *)
Module Async.

(** What a promise is rejected with (or what a function throws). *)
Inductive Error : Type :=
| Reason (msg : string)            (* Promise.reject('...') *)
| TypeError (msg : string)         (* thrown by the JS runtime *)
| RangeError (msg : string)        (* thrown by the JS runtime *)
| InvalidValueError (msg : string) (* errors/InvalidValueError *)
| UnsupportedError (msg : string)  (* errors/UnsupportedError *)
| DecodeError (msg : string)       (* failure inside a SCALE decoder *)
| NetworkError (msg : string).     (* errors/NetworkError *)

(** Final state of a promise. *)
Inductive Promise (A : Type) : Type :=
| Fulfilled (a : A)
| Rejected (e : Error)
| Pending.
Arguments Fulfilled {A} a.
Arguments Rejected {A} e.
Arguments Pending {A}.

(** [await p] followed by the rest of the async function. *)
Definition bind {A B : Type} (p : Promise A) (k : A -> Promise B) : Promise B :=
  match p with
  | Fulfilled a => k a
  | Rejected e => Rejected e
  | Pending => Pending
  end.

(** [p.then(f)] for a synchronous, non-throwing [f]. *)
Definition then_ {A B : Type} (p : Promise A) (f : A -> B) : Promise B :=
  bind p (fun a => Fulfilled (f a)).

Definition isRejected {A : Type} (p : Promise A) : bool :=
  match p with Rejected _ => true | _ => false end.

(** [Promise.all]: rejected as soon as one member is rejected (the first
    rejected member in list order is reported), otherwise pending while a
    member is pending, otherwise fulfilled with all the values. *)
Fixpoint values {A : Type} (ps : list (Promise A)) : Promise (list A) :=
  match ps with
  | [] => Fulfilled []
  | Fulfilled a :: ps' => then_ (values ps') (cons a)
  | _ :: _ => Pending
  end.

Definition all {A : Type} (ps : list (Promise A)) : Promise (list A) :=
  match find isRejected ps with
  | Some (Rejected e) => Rejected e
  | _ => values ps
  end.

(** [Promise.all([p, q])] for two promises of different types. *)
Definition all2 {A B : Type} (p : Promise A) (q : Promise B) : Promise (A * B) :=
  match p, q with
  | Rejected e, _ => Rejected e
  | _, Rejected e => Rejected e
  | Fulfilled a, Fulfilled b => Fulfilled (a, b)
  | _, _ => Pending
  end.

End Async.
Import Async.

Declare Scope promise_scope.
Delimit Scope promise_scope with promise.
Notation "x <- p ;; k" := (bind p (fun x => k))
  (at level 61, p at next level, right associativity) : promise_scope.
Local Open Scope promise_scope.

(** ** JavaScript arrays *)
Module JsArray.

Section Generic.
Context {A : Type}.

(** [array.slice(i, j)] for [0 <= i <= j]. *)
Definition slice (array : list A) (i j : nat) : list A :=
  firstn (j - i) (skipn i array).

(** [array.sort(compare)]: the sort is stable; an element is moved behind
    its successor only when [compare] is positive. *)
Fixpoint insert (compare : A -> A -> Z) (x : A) (sorted : list A) : list A :=
  match sorted with
  | [] => [x]
  | y :: rest => if compare x y <=? 0 then x :: y :: rest
                 else y :: insert compare x rest
  end.

Definition sort (compare : A -> A -> Z) (array : list A) : list A :=
  fold_right (insert compare) [] array.

(** [array.findIndex(p)], [-1] when no element satisfies [p]. *)
Fixpoint findIndexFrom (p : A -> bool) (array : list A) (i : Z) : Z :=
  match array with
  | [] => -1
  | x :: rest => if p x then i else findIndexFrom p rest (i + 1)
  end.

Definition findIndex (p : A -> bool) (array : list A) : Z :=
  findIndexFrom p array 0.

(** [array.reduce(f)] without an initial value. *)
Definition reduce1 (f : A -> A -> A) (array : list A) : Promise A :=
  match array with
  | [] => Rejected (TypeError "Reduce of empty array with no initial value")
  | x :: rest => Fulfilled (fold_left f rest x)
  end.

End Generic.

(** [array.indexOf(s)] on an array of strings. *)
Definition indexOf (array : list string) (s : string) : Z :=
  findIndex (String.eqb s) array.

(** [array.includes(s)] on an array of strings. *)
Definition includes (array : list string) (s : string) : bool :=
  existsb (String.eqb s) array.

End JsArray.

(** ** JavaScript numbers: IEEE 754 binary64 *)
Module Number.
Import SpecFloat.

Definition prec : Z := 53.
Definition emax : Z := 1024.

Definition t : Type := spec_float.

(** The number denoting an integer (exact below 2^53). *)
Definition ofZ (z : Z) : t := binary_normalize prec emax z 0 false.

Definition mul (x y : t) : t := SFmul prec emax x y.
Definition div (x y : t) : t := SFdiv prec emax x y.

(** [Math.floor] and [Math.ceil]; [None] stands for a result that is not a
    finite number (NaN or an infinity). *)
Definition floor (x : t) : option Z :=
  match x with
  | S754_zero _ => Some 0
  | S754_finite s m e => Some (Z.shiftl (cond_Zopp s (Zpos m)) e)
  | _ => None
  end.

Definition ceil (x : t) : option Z :=
  match x with
  | S754_zero _ => Some 0
  | S754_finite s m e => Some (- Z.shiftl (cond_Zopp (negb s) (Zpos m)) e)
  | _ => None
  end.

(** [x <= y] *)
Definition leb (x y : t) : bool := SFleb x y.

(** [x || 0]: 0 takes the place of a falsy number, which is a zero or NaN. *)
Definition orZero (x : t) : t :=
  match x with
  | S754_zero _ | S754_nan => S754_zero false
  | _ => x
  end.

End Number.

(** ** utils/array.ts *)
Module ArrayUtils.

Section Chunks.
Context {T : Type}.

(** An array with holes, as [new Array(n)] creates it. *)
Definition Sparse : Type := list (option (list T)).

(** [new Array(n)] *)
Definition newArray (n : option Z) : Promise Sparse :=
  match n with
  | Some n =>
      if (0 <=? n) && (n <? 2 ^ 32) then Fulfilled (repeat None (Z.to_nat n))
      else Rejected (RangeError "Invalid array length")
  | None => Rejected (RangeError "Invalid array length")
  end.

(** [chunks[k] = chunk]: writing at or beyond the length extends the array
    and leaves holes in between. *)
Fixpoint assign (chunks : Sparse) (k : nat) (chunk : list T) : Sparse :=
  match k, chunks with
  | O, [] => [Some chunk]
  | O, _ :: rest => Some chunk :: rest
  | S k', [] => None :: assign [] k' chunk
  | S k', c :: rest => c :: assign rest k' chunk
  end.

Definition assignAt (chunks : Sparse) (k : option Z) (chunk : list T) : Sparse :=
  match k with
  | Some k => if 0 <=? k then assign chunks (Z.to_nat k) chunk else chunks
  | None => chunks
  end.

(** The [for] loop of [chunkedArray]; [steps] bounds the number of
    iterations, [length array] of them are enough when [chunkSize >= 1]. *)
Fixpoint chunkLoop (steps : nat) (array : list T) (chunkSize : nat)
  (chunkSizeInverse : Number.t) (i : nat) (chunks : Sparse) : Sparse :=
  match steps with
  | O => chunks
  | S steps' =>
      if (i <? List.length array)%nat then
        chunkLoop steps' array chunkSize chunkSizeInverse (i + chunkSize)
          (assignAt chunks
             (Number.floor (Number.mul (Number.ofZ (Z.of_nat i)) chunkSizeInverse))
             (JsArray.slice array i (i + chunkSize)))
      else chunks
  end.

Definition chunkedArray (array : list T) (chunkSize : nat) : Promise Sparse :=
  let chunkSizeInverse := Number.div (Number.ofZ 1) (Number.ofZ (Z.of_nat chunkSize)) in
  chunks <- newArray (Number.ceil
              (Number.mul (Number.ofZ (Z.of_nat (List.length array))) chunkSizeInverse)) ;;
  Fulfilled (chunkLoop (List.length array) array chunkSize chunkSizeInverse 0 chunks).

(** [reduce] skips the holes of the array. *)
Definition flattenArray (array : Sparse) : list T :=
  fold_left (fun flatten next =>
               match next with
               | Some next => flatten ++ next
               | None => flatten
               end) array [].

End Chunks.

End ArrayUtils.

(** ** bignumber.js *)
Module BigNumber.

(** A BigNumber is a decimal number of arbitrary precision, an infinity or
    NaN. The sign of a zero is not tracked: it only shows in the sign of an
    infinity obtained by dividing by that zero, and every divisor of the
    modelled code is an integer read from the chain or a literal. *)
Inductive t : Type :=
| Fin (q : Q)
| Inf (negative : bool)
| NaN.

(** The library's defaults, which the code does not reconfigure. *)
Definition DECIMAL_PLACES : Z := 20.

(** ROUND_HALF_UP: to the nearest integer, a tie goes away from zero. *)
Definition roundHalfUp (x : Q) : Z :=
  let n := Qnum x in
  let d := Zpos (Qden x) in
  if 0 <=? n then (2 * n + d) / (2 * d) else - ((2 * (- n) + d) / (2 * d)).

(** Rounding to [DECIMAL_PLACES] decimals, as a division does. *)
Definition roundDP (x : Q) : Q :=
  Qred (Qmake (roundHalfUp (x * inject_Z (10 ^ DECIMAL_PLACES)))
              (Z.to_pos (10 ^ DECIMAL_PLACES))).

Definition ofZ (z : Z) : t := Fin (inject_Z z).

Definition isNegative (q : Q) : bool := Qnum q <? 0.
Definition isZero (q : Q) : bool := Qnum q =? 0.

Definition negated (x : t) : t :=
  match x with
  | Fin q => Fin (Qred (- q))
  | Inf s => Inf (negb s)
  | NaN => NaN
  end.

(** [x.plus(y)], exact. *)
Definition plus (x y : t) : t :=
  match x, y with
  | NaN, _ | _, NaN => NaN
  | Inf s, Inf s' => if Bool.eqb s s' then Inf s else NaN
  | Inf s, Fin _ | Fin _, Inf s => Inf s
  | Fin a, Fin b => Fin (Qred (a + b))
  end.

(** [x.minus(y)], exact. *)
Definition minus (x y : t) : t := plus x (negated y).

(** [x.multipliedBy(y)], exact. *)
Definition multipliedBy (x y : t) : t :=
  match x, y with
  | NaN, _ | _, NaN => NaN
  | Inf s, Inf s' => Inf (xorb s s')
  | Inf s, Fin q | Fin q, Inf s =>
      if isZero q then NaN else Inf (xorb s (isNegative q))
  | Fin a, Fin b => Fin (Qred (a * b))
  end.

(** [x.dividedBy(y)] for an integer divisor [y]: the quotient is rounded
    to [DECIMAL_PLACES] decimals with ROUND_HALF_UP. *)
Definition dividedBy (x : t) (y : Z) : t :=
  match x with
  | NaN => NaN
  | Inf s => Inf (xorb s (y <? 0))
  | Fin a =>
      if y =? 0 then (if isZero a then NaN else Inf (isNegative a))
      else Fin (roundDP (a / inject_Z y))
  end.

(** Decimal notation of an integer. *)
Definition digits (z : Z) : string := NilZero.string_of_int (Z.to_int z).

(** [x.toFixed(0)]: the value rounded to an integer, in normal notation; a
    negative value keeps its sign when it rounds to zero. *)
Definition toFixed0 (x : t) : string :=
  match x with
  | NaN => "NaN"
  | Inf false => "Infinity"
  | Inf true => "-Infinity"
  | Fin q =>
      if isNegative q then ("-" ++ digits (- roundHalfUp q))%string
      else digits (roundHalfUp q)
  end.

(** [x.toNumber()] for an integer [x]: the JavaScript number nearest to
    it, a tie going to the even one; an infinity when [x] lies beyond the
    finite numbers. Integers above 2^53 are not all numbers:
    2^53 + 1 becomes 9007199254740992. *)
Definition toNumber (x : Z) : Number.t := Number.ofZ x.

(** Two BigNumbers denote the same value. *)
Definition eqv (x y : t) : Prop :=
  match x, y with
  | Fin a, Fin b => a == b
  | Inf s, Inf s' => s = s'
  | NaN, NaN => True
  | _, _ => False
  end.

End BigNumber.

(** ** SCALE integers *)
Module Scale.

(** Value of a little-endian byte string. *)
Definition littleEndian (bytes : list byte) : Z :=
  fold_right (fun b acc => Z.of_N (Byte.to_N b) + 256 * acc) 0 bytes.

(** Modelled from the spec: [SCALEDecoder.decodeNextInt] lives in
    helpers/data/scale/SCALEDecoder.ts, which is not part of the sources at
    hand. The specification says that integers are little-endian and
    fixed-width per declared bit size, that a decoder reports what it
    consumed so that decoders chain, and that running past the end of the
    buffer fails with a decode error. The hexadecimal text handed to the
    decoder is modelled by the bytes it denotes; the result is the decoded
    value and the bytes left for the next call. A synchronous function is
    described by a [Promise] as well: [Fulfilled] is a returned value and
    [Rejected] a thrown error. *)
Definition decodeNextInt (bitLength : nat) (buffer : list byte)
  : Promise (Z * list byte) :=
  let n := (bitLength / 8)%nat in
  if (List.length buffer <? n)%nat
  then Rejected (DecodeError "unexpected end of input")
  else Fulfilled (littleEndian (firstn n buffer), skipn n buffer).

(** [SCALEInt.decode(hex).decoded.value] for a value that fills the buffer. *)
Definition decodeInt (buffer : list byte) : Z := littleEndian buffer.

End Scale.

(** ** helpers/data/metadata/Metadata.ts *)
Module Metadata.

(** [parseInt('6174656d', 16)], the bytes of "meta" read little-endian. *)
Definition MAGIC_NUMBER : Z := 0x6174656d.

(** The ASCII text "meta". *)
Definition magic : list byte := [x6d; x65; x74; x61].

Section Decode.
(** The per-version parsers ([MetadataV11.decode], [MetadataV12.decode])
    are not part of the sources at hand and are parameters of the model. *)
Variable SubstrateNetwork : Type.
Variable MetadataVersioned : Type.
Variable MetadataV11_decode MetadataV12_decode :
  SubstrateNetwork -> option Z -> list byte -> Promise MetadataVersioned.

Record Metadata : Type := { versioned : MetadataVersioned }.

Definition assertMagicNumber (magicNumber : Z) : Promise unit :=
  if magicNumber =? MAGIC_NUMBER then Fulfilled tt
  else Rejected (InvalidValueError "Error while parsing metadata, invalid magic number").

(** The message of the [UnsupportedError] is a template literal that
    interpolates [version], which is the result object of [decodeNextInt]
    and not the number read: the text that stands for it is
    [[object Object]], whatever the version byte is. *)
Definition decode (network : SubstrateNetwork) (runtimeVersion : option Z)
  (raw : list byte) : Promise Metadata :=
  magicNumber <- Scale.decodeNextInt 32 raw ;;
  _ <- assertMagicNumber (fst magicNumber) ;;
  version <- Scale.decodeNextInt 8 (snd magicNumber) ;;
  versioned <-
    (if fst version =? 12 then MetadataV12_decode network runtimeVersion raw
     else if fst version =? 11 then MetadataV11_decode network runtimeVersion raw
     else Rejected (UnsupportedError
            "Error while parsing metadata, metadata version [object Object] is not supported")) ;;
  Fulfilled {| versioned := versioned |}.

End Decode.

Arguments versioned {MetadataVersioned} _.

End Metadata.

(** ** helpers/node/SubstrateNodeClient.ts: lazy initialisation *)
Module SubstrateNodeClient.

Record SubstrateRuntimeVersion : Type := { specVersion : Z }.

(** What [send] yields when it is called as the [n]-th request of the
    client, from the response cache or from the node. *)
Record Node : Type := {
  state_getMetadata : nat -> Promise (list byte);
  state_getRuntimeVersion : nat -> Promise (option SubstrateRuntimeVersion)
}.

Section Client.
Variable SubstrateNetwork : Type.
Variable MetadataVersioned : Type.
Variable MetadataV11_decode MetadataV12_decode :
  SubstrateNetwork -> option Z -> list byte -> Promise MetadataVersioned.
(** [MetadataDecorator] is not part of the sources at hand either: the
    decoration of a metadata and the lookup of a constant's encoded value
    ([metadata.constant(module, name)?.value]) are parameters. *)
Variable MetadataDecorator : Type.
Variable decorate : MetadataVersioned -> MetadataDecorator.
Variable constant : MetadataDecorator -> string -> string -> option (list byte).

(** The mutable fields of the client; [requests] lists the endpoints that
    were handed to [send], the most recent first. *)
Record Client : Type := {
  network : SubstrateNetwork;
  metadata : option MetadataDecorator;
  runtimeVersion : option Z;
  initApiPromise : option (Promise unit);
  expirationTime : option Z;
  requests : list string
}.

Definition withRequest (endpoint : string) (c : Client) : Client :=
  {| network := network c; metadata := metadata c;
     runtimeVersion := runtimeVersion c; initApiPromise := initApiPromise c;
     expirationTime := expirationTime c; requests := endpoint :: requests c |}.

Definition withInitApiPromise (p : Promise unit) (c : Client) : Client :=
  {| network := network c; metadata := metadata c;
     runtimeVersion := runtimeVersion c; initApiPromise := Some p;
     expirationTime := expirationTime c; requests := requests c |}.

Definition withMetadata (m : MetadataDecorator) (v : option Z) (c : Client) : Client :=
  {| network := network c; metadata := Some m;
     runtimeVersion := v; initApiPromise := initApiPromise c;
     expirationTime := expirationTime c; requests := requests c |}.

Definition withExpirationTime (t : option Z) (c : Client) : Client :=
  {| network := network c; metadata := metadata c;
     runtimeVersion := runtimeVersion c; initApiPromise := initApiPromise c;
     expirationTime := t; requests := requests c |}.

(** A client as the constructor leaves it. *)
Definition create (net : SubstrateNetwork) : Client :=
  {| network := net; metadata := None; runtimeVersion := None;
     initApiPromise := None; expirationTime := Some 3000; requests := [] |}.

(** [getRuntimeVersion]: [send(...).catch(() => null)]. *)
Definition getRuntimeVersion (node : Node) (n : nat)
  : Promise (option SubstrateRuntimeVersion) :=
  match state_getRuntimeVersion node n with
  | Rejected _ => Fulfilled None
  | p => p
  end.

Definition notFound (moduleName name : string) : Error :=
  Reason ("Could not find requested item: " ++ moduleName ++ " " ++ name)%string.

(** [getConstant] on top of a given [initApi]. *)
Definition getConstantWith (initApi : Client -> Client * Promise unit)
  (c : Client) (moduleName constantName : string) : Client * Promise (list byte) :=
  let (c', ready) := initApi c in
  (c', _ <- ready ;;
       match metadata c' with
       | Some m =>
           match constant m moduleName constantName with
           | Some value => Fulfilled value
           | None => Rejected (notFound moduleName constantName)
           end
       | None => Rejected (notFound moduleName constantName)
       end).

(** [initCache] on top of a given [initApi]. *)
Definition initCacheWith (initApi : Client -> Client * Promise unit)
  (c : Client) : Client * Promise unit :=
  let (c', blockTime) := getConstantWith initApi c "Babe" "ExpectedBlockTime" in
  match blockTime with
  | Fulfilled value =>
      (withExpirationTime
         (Number.floor (Number.div (Number.ofZ (Scale.decodeInt value)) (Number.ofZ 3))) c',
       Fulfilled tt)
  | Rejected e => (c', Rejected e)
  | Pending => (c', Pending)
  end.

Definition noRuntimeVersion : Error :=
  Reason "Could not fetch runtime version from the node".

(** [initApi]. The function and [initCache] call each other through
    [getConstant]; [depth] bounds the nesting of these calls. The result is
    the client once the event loop is idle, and the promise the call
    returned. When [initApiPromise] is unset:
    - both requests are sent, and the executor waits for both;
    - an error thrown by the executor after its [await] settles nothing:
      the executor is an async function, so the promise stays pending;
    - [reject] does not leave the executor, the metadata is still decoded
      and stored, and the later [resolve] is ignored;
    - the promise handed out is [initApiPromise.catch(..)], which is
      fulfilled also when the initialisation was rejected; the [catch]
      callback stores the rejected promise in [initApiPromise]. *)
Fixpoint initApiAt (depth : nat) (node : Node) (c : Client) : Client * Promise unit :=
  match initApiPromise c with
  | Some p => (c, p)
  | None =>
      match depth with
      | O => (c, Pending)
      | S depth' =>
          let n := List.length (requests c) in
          let c1 := withRequest "state_getRuntimeVersion"
                      (withRequest "state_getMetadata" c) in
          match all2 (state_getMetadata node n) (getRuntimeVersion node (S n)) with
          | Fulfilled (metadataEncoded, version) =>
              let spec := option_map specVersion version in
              let decoded :=
                Metadata.decode SubstrateNetwork MetadataVersioned
                  MetadataV11_decode MetadataV12_decode (network c1) spec metadataEncoded in
              match decoded, version with
              | Fulfilled m, None =>
                  (withInitApiPromise (Rejected noRuntimeVersion)
                     (withMetadata (decorate (Metadata.versioned m)) spec c1),
                   Fulfilled tt)
              | Rejected _, None =>
                  (withInitApiPromise (Rejected noRuntimeVersion) c1, Fulfilled tt)
              | Fulfilled m, Some _ =>
                  let c2 := withInitApiPromise (Fulfilled tt)
                              (withMetadata (decorate (Metadata.versioned m)) spec c1) in
                  match initCacheWith (initApiAt depth' node) c2 with
                  | (c3, Fulfilled _) => (c3, Fulfilled tt)
                  | (c3, Rejected e) => (withInitApiPromise (Rejected e) c3, Fulfilled tt)
                  | (c3, Pending) => (c3, Pending)
                  end
              | _, _ => (withInitApiPromise Pending c1, Pending)
              end
          | _ => (withInitApiPromise Pending c1, Pending)
          end
      end
  end.

Definition initApi : Node -> Client -> Client * Promise unit := initApiAt 2.

Definition getConstant (node : Node) : Client -> string -> string -> Client * Promise (list byte) :=
  getConstantWith (initApi node).

Definition getExistentialDeposit (node : Node) (c : Client) : Client * Promise Z :=
  let (c', value) := getConstant node c "Balances" "ExistentialDeposit" in
  (c', then_ value Scale.decodeInt).

End Client.

Arguments network {SubstrateNetwork MetadataDecorator} c.
Arguments metadata {SubstrateNetwork MetadataDecorator} c.
Arguments runtimeVersion {SubstrateNetwork MetadataDecorator} c.
Arguments initApiPromise {SubstrateNetwork MetadataDecorator} c.
Arguments expirationTime {SubstrateNetwork MetadataDecorator} c.
Arguments requests {SubstrateNetwork MetadataDecorator} c.
Arguments create {SubstrateNetwork} MetadataDecorator net.
Arguments withInitApiPromise {SubstrateNetwork MetadataDecorator} p c.
Arguments withRequest {SubstrateNetwork MetadataDecorator} endpoint c.
Arguments withMetadata {SubstrateNetwork MetadataDecorator} m v c.
Arguments withExpirationTime {SubstrateNetwork MetadataDecorator} t c.
Arguments getConstantWith {SubstrateNetwork MetadataDecorator} constant initApi c _ _.
Arguments initCacheWith {SubstrateNetwork MetadataDecorator} constant initApi c.
Arguments initApiAt {SubstrateNetwork MetadataVersioned} MetadataV11_decode
  MetadataV12_decode {MetadataDecorator} decorate constant depth node c.
Arguments initApi {SubstrateNetwork MetadataVersioned} MetadataV11_decode
  MetadataV12_decode {MetadataDecorator} decorate constant _ _.
Arguments getConstant {SubstrateNetwork MetadataVersioned} MetadataV11_decode
  MetadataV12_decode {MetadataDecorator} decorate constant node _ _ _.
Arguments getExistentialDeposit {SubstrateNetwork MetadataVersioned} MetadataV11_decode
  MetadataV12_decode {MetadataDecorator} decorate constant node c.

End SubstrateNodeClient.

(** ** Decoded chain values *)
Definition SubstrateAddress : Type := string.

Module AccountInfo.
(** [SubstrateAccountInfo]: the [data] of the account. *)
Record t : Type := { free : Z; reserved : Z; miscFrozen : Z; feeFrozen : Z }.
End AccountInfo.

Module Exposure.
(** [SubstrateExposure]; [others] pairs a nominator with its stake. *)
Record t : Type := { total : Z; own : Z; others : list (SubstrateAddress * Z) }.
End Exposure.

Module Nominations.
Record t : Type := { targets : list SubstrateAddress; submittedIn : Z }.
End Nominations.

Module ActiveEraInfo.
Record t : Type := { index : Z; start : option Z }.
End ActiveEraInfo.

Module EraRewardPoints.
Record t : Type := { total : Z; individual : list (SubstrateAddress * Z) }.
End EraRewardPoints.

Module ValidatorPrefs.
Record t : Type := { commission : Z }.
End ValidatorPrefs.

Inductive SubstrateElectionStatus : Type := CLOSED | OPEN.

Inductive SubstrateNominationStatus : Type := ACTIVE | INACTIVE | OVERSUBSCRIBED.

Inductive SubstrateStakingActionType : Type :=
| BOND_NOMINATE | REBOND_NOMINATE | NOMINATE | CANCEL_NOMINATION
| CHANGE_NOMINATION | BOND_EXTRA | REBOND_EXTRA | UNBOND | WITHDRAW_UNBONDED.

Record DelegatorAction : Type := { type : SubstrateStakingActionType; args : list string }.

Record SubstrateLockedDetails : Type := { value : string; expectedUnlock : Number.t }.

(** The fields of [SubstrateStakingDetails] that the eligibility rules
    read; [active] and [unlocked] are the integers their text denotes. *)
Record SubstrateStakingDetails : Type := {
  active : Z;
  locked : list SubstrateLockedDetails;
  unlocked : Z
}.

Record PartialRewardDetails : Type := {
  partialEraIndex : Z;
  partialAmount : string;
  partialExposures : list (string * Z)
}.

Record SubstrateNominatorRewardDetails : Type := {
  eraIndex : Z;
  amount : string;
  exposures : list (string * Z);
  timestamp : Number.t
}.

(** The answers of the node client to the queries of the controller. *)
Module NodeApi.
Record t : Type := {
  getAccountInfo : SubstrateAddress -> Promise (option AccountInfo.t);
  getExistentialDeposit : Promise Z;
  getActiveEraInfo : Promise (option ActiveEraInfo.t);
  getNominations : SubstrateAddress -> Promise (option Nominations.t);
  getValidatorExposure : Z -> SubstrateAddress -> Promise (option Exposure.t);
  getValidatorReward : Z -> Promise (option Z);
  getRewardPoints : Z -> Promise (option EraRewardPoints.t);
  getValidatorPrefs : Z -> SubstrateAddress -> Promise (option ValidatorPrefs.t);
  getStakersClipped : Z -> SubstrateAddress -> Promise (option Exposure.t);
  getExpectedEraDuration : Promise (option Z);
  getElectionStatus : Promise (option SubstrateElectionStatus)
}.
End NodeApi.

(** ** helpers/SubstrateAccountController.ts *)
Module SubstrateAccountController.
Import NodeApi.

(** The entry of [accountId] in a list of (account, value) tuples. *)
Definition findValue (accountId : SubstrateAddress)
  (elements : list (SubstrateAddress * Z)) : option Z :=
  option_map snd (find (fun element => String.eqb (fst element) accountId) elements).

Definition getBalance (nodeClient : NodeApi.t) (accountId : SubstrateAddress) : Promise Z :=
  accountInfo <- getAccountInfo nodeClient accountId ;;
  Fulfilled match accountInfo with
            | Some info => AccountInfo.free info
            | None => 0
            end.

Definition getTransferableBalance (nodeClient : NodeApi.t) (accountId : SubstrateAddress)
  (excludeExistentialDeposit ignoreFees : bool) : Promise Z :=
  results <- all2 (getAccountInfo nodeClient accountId)
                  (if excludeExistentialDeposit
                   then then_ (getExistentialDeposit nodeClient) Some
                   else Fulfilled None) ;;
  let accountInfo := fst results in
  let minBalance := snd results in
  match accountInfo with
  | None => Fulfilled 0
  | Some info =>
      let free := AccountInfo.free info in
      let reserved := AccountInfo.reserved info in
      let locked := if ignoreFees then AccountInfo.miscFrozen info
                    else AccountInfo.feeFrozen info in
      Fulfilled (free - reserved - locked
                 - match minBalance with Some m => m | None => 0 end)
  end.

(** The comparator handed to [sort] in [getNominationStatus]. *)
Definition byStakeDescending (a b : SubstrateAddress * Z) : Z := snd b - snd a.

Definition getNominationStatus (nodeClient : NodeApi.t)
  (nominator validator : SubstrateAddress) (era : option Z)
  : Promise (option SubstrateNominationStatus) :=
  eraIndex <- match era with
              | Some era => Fulfilled (Some era)
              | None => then_ (getActiveEraInfo nodeClient) (option_map ActiveEraInfo.index)
              end ;;
  match eraIndex with
  | None => Rejected (Reason "Could not fetch active era")
  | Some eraIndex =>
      nominations <- getNominations nodeClient nominator ;;
      if match nominations with
         | None => true
         | Some n => negb (existsb (fun target => String.eqb target validator)
                             (Nominations.targets n))
         end
      then Fulfilled None
      else
        exposure <- getValidatorExposure nodeClient eraIndex validator ;;
        match exposure with
        | None => Fulfilled (Some INACTIVE)
        | Some exposure =>
            let elements := Exposure.others exposure in
            let isActive := existsb (fun element => String.eqb (fst element) nominator) elements in
            if negb isActive then Fulfilled (Some INACTIVE)
            else
              let isOversubscribed := Z.of_nat (List.length elements) >? 256 in
              if isOversubscribed then
                let position :=
                  JsArray.indexOf (map fst (JsArray.sort byStakeDescending elements)) nominator in
                if position >? 256 then Fulfilled (Some OVERSUBSCRIBED)
                else Fulfilled (Some ACTIVE)
              else Fulfilled (Some ACTIVE)
        end
  end.

Definition calculateValidatorReward (totalReward totalPoints validatorPoints : Z) : BigNumber.t :=
  BigNumber.multipliedBy
    (BigNumber.dividedBy (BigNumber.ofZ validatorPoints) totalPoints)
    (BigNumber.ofZ totalReward).

Definition calculateNominatorReward (validatorReward : BigNumber.t)
  (validatorCommission totalStake nominatorStake : Z) : BigNumber.t :=
  let nominatorShare := BigNumber.dividedBy (BigNumber.ofZ nominatorStake) totalStake in
  BigNumber.multipliedBy
    (BigNumber.multipliedBy
       (BigNumber.minus (BigNumber.ofZ 1)
          (BigNumber.dividedBy (BigNumber.ofZ validatorCommission) 1000000000))
       validatorReward)
    nominatorShare.

(** The reward one validator contributes in [calculateEraNominatorReward],
    [None] when one of the four values it needs is missing. *)
Definition partialReward (accountId : SubstrateAddress) (reward : Z)
  (rewardPoints : EraRewardPoints.t)
  (entry : SubstrateAddress * option Z * option Exposure.t) : option BigNumber.t :=
  let '(validator, commission, exposure) := entry in
  let validatorPoints := findValue validator (EraRewardPoints.individual rewardPoints) in
  let nominatorStake :=
    match exposure with
    | Some exposure => findValue accountId (Exposure.others exposure)
    | None => None
    end in
  match commission, exposure, validatorPoints, nominatorStake with
  | Some commission, Some exposure, Some validatorPoints, Some nominatorStake =>
      let validatorReward :=
        calculateValidatorReward reward (EraRewardPoints.total rewardPoints) validatorPoints in
      Some (calculateNominatorReward validatorReward commission
              (Exposure.total exposure) nominatorStake)
  | _, _, _, _ => None
  end.

(** The non-null elements of an array. *)
Definition present {A : Type} (array : list (option A)) : list A :=
  flat_map (fun x => match x with Some a => [a] | None => [] end) array.

Definition calculateEraNominatorReward (nodeClient : NodeApi.t)
  (accountId : SubstrateAddress) (validators : list SubstrateAddress) (eraIndex : Z)
  : Promise (option PartialRewardDetails) :=
  results <-
    all2 (getValidatorReward nodeClient eraIndex)
      (all2 (getRewardPoints nodeClient eraIndex)
         (all (map (fun validator =>
                      prefs <- getValidatorPrefs nodeClient eraIndex validator ;;
                      exposure <- getStakersClipped nodeClient eraIndex validator ;;
                      Fulfilled (validator, option_map ValidatorPrefs.commission prefs, exposure))
                   validators))) ;;
  let reward := fst results in
  let rewardPoints := fst (snd results) in
  let exposuresWithValidators := snd (snd results) in
  match reward, rewardPoints with
  | Some reward, Some rewardPoints =>
      let partialRewards :=
        present (map (partialReward accountId reward rewardPoints) exposuresWithValidators) in
      (* [every((reward) => !reward)]: a BigNumber is an object, hence truthy *)
      if forallb (fun _ : BigNumber.t => false) partialRewards then Fulfilled None
      else
        Fulfilled (Some
          {| partialEraIndex := eraIndex;
             partialAmount :=
               BigNumber.toFixed0 (fold_left BigNumber.plus partialRewards (BigNumber.ofZ 0));
             partialExposures :=
               present (map (fun entry : SubstrateAddress * option Z * option Exposure.t =>
                               let '(validator, _, exposure) := entry in
                               option_map
                                 (fun exposure =>
                                    (validator,
                                     JsArray.findIndex
                                       (fun element : SubstrateAddress * Z =>
                                          String.eqb (fst element) accountId)
                                       (Exposure.others exposure)))
                                 exposure)
                            exposuresWithValidators) |})
  | _, _ => Fulfilled None
  end.

(** The [eras] argument of [getNominatorRewards]: a count or a list. *)
Definition eraIndicesOf (activeEra : ActiveEraInfo.t) (eras : nat + list Z) : list Z :=
  match eras with
  | inl count =>
      map (fun index => ActiveEraInfo.index activeEra - 1 - Z.of_nat index) (seq 0 count)
  | inr indices => indices
  end.

(** The [then] callback of [getNominatorRewards]. The era indices are
    32-bit integers of the chain and the numbers that carry them are exact;
    the timestamp is a difference of 64-bit instants that [toNumber] turns
    into a number. *)
Definition withTimestamp (activeEra : ActiveEraInfo.t) (expectedEraDuration : Z)
  (partial : PartialRewardDetails) : SubstrateNominatorRewardDetails :=
  let rewardEra := if partialEraIndex partial =? 0 then ActiveEraInfo.index activeEra
                   else partialEraIndex partial in
  let erasPassed := ActiveEraInfo.index activeEra - rewardEra in
  {| eraIndex := partialEraIndex partial;
     amount := partialAmount partial;
     exposures := partialExposures partial;
     timestamp := match ActiveEraInfo.start activeEra with
                  | Some start =>
                      BigNumber.toNumber (start - expectedEraDuration * (erasPassed - 1))
                  | None => Number.ofZ 0
                  end |}.

Definition getNominatorRewards (nodeClient : NodeApi.t) (accountId : SubstrateAddress)
  (validators : list SubstrateAddress) (activeEra : ActiveEraInfo.t) (eras : nat + list Z)
  : Promise (list SubstrateNominatorRewardDetails) :=
  expectedEraDuration <- getExpectedEraDuration nodeClient ;;
  match expectedEraDuration with
  | None => Rejected (Reason "Could not fetch all necessary data.")
  | Some expectedEraDuration =>
      let eraIndices := eraIndicesOf activeEra eras in
      rewards <-
        all (map (fun era =>
                    then_ (calculateEraNominatorReward nodeClient accountId validators era)
                          (option_map (withTimestamp activeEra expectedEraDuration)))
                 eraIndices) ;;
      Fulfilled (present rewards)
  end.

Section Actions.
(** The declaration of the enum [SubstrateStakingActionType] is not part of
    the sources at hand; the number of each member is a parameter. *)
Variable ordinal : SubstrateStakingActionType -> Z.

Definition byType (a b : DelegatorAction) : Z := ordinal (type a) - ordinal (type b).

Definition when (condition : bool) (actions : list DelegatorAction) : list DelegatorAction :=
  if condition then actions else [].

Definition getAvailableStakingActions (nodeClient : NodeApi.t)
  (stakingDetails : option SubstrateStakingDetails) (nominations : option Nominations.t)
  (validatorIds : list SubstrateAddress) (maxDelegationValue : Z)
  : Promise (list DelegatorAction) :=
  let currentValidators :=
    match nominations with Some n => Nominations.targets n | None => [] end in
  let validatorAddresses := validatorIds in
  let isBonded := match stakingDetails with Some d => active d | None => 0 end >? 0 in
  let isDelegating := match nominations with Some _ => true | None => false end in
  let isUnbonding :=
    match stakingDetails with
    | Some d => Z.of_nat (List.length (locked d)) >? 0
    | None => false
    end in
  minBondingValue <- getExistentialDeposit nodeClient ;;
  let minDelegationValue := 1 in
  electionStatus <- getElectionStatus nodeClient ;;
  let isElectionClosed :=
    match electionStatus with Some OPEN => false | _ => true end in
  let hasFundsToWithdraw :=
    match stakingDetails with Some d => unlocked d | None => 0 end >? 0 in
  let availableActions :=
    when ((maxDelegationValue >? minBondingValue) && negb isBonded
          && negb isUnbonding && isElectionClosed)
      [ {| type := BOND_NOMINATE; args := ["targets"; "controller"; "value"; "payee"] |} ]
    ++ when ((maxDelegationValue >? minDelegationValue) && isBonded
             && negb isUnbonding && isElectionClosed)
      [ {| type := BOND_EXTRA; args := ["value"] |} ]
    ++ when (isBonded && negb isDelegating && negb isUnbonding && isElectionClosed)
      [ {| type := NOMINATE; args := ["targets"] |};
        {| type := UNBOND; args := ["value"] |} ]
    ++ when (isUnbonding && negb isDelegating && isElectionClosed)
      [ {| type := REBOND_NOMINATE; args := ["targets"; "value"] |} ]
    ++ when (isUnbonding && isDelegating && isElectionClosed)
      [ {| type := REBOND_EXTRA; args := ["value"] |} ]
    ++ when (isDelegating && isElectionClosed)
      (if forallb (JsArray.includes currentValidators) validatorAddresses
          && (List.length validatorAddresses =? List.length currentValidators)%nat
       then [ {| type := CANCEL_NOMINATION; args := ["value"] |} ]
       else if (0 <? List.length validatorAddresses)%nat
       then [ {| type := CHANGE_NOMINATION; args := ["targets"] |} ]
       else [])
    ++ when (hasFundsToWithdraw && isElectionClosed)
      [ {| type := WITHDRAW_UNBONDED; args := [] |} ] in
  Fulfilled (JsArray.sort byType availableActions).

End Actions.

End SubstrateAccountController.

(** ** protocols/polkadot/node/PolkadotNodeClient.ts: [getRewards] *)
Module PolkadotNodeClient.

(** [PolkadotStakingLedger]: the optional [lastReward] is the one field
    that [getRewards] reads. *)
Record PolkadotStakingLedger : Type := { lastReward : option Z }.

Record PolkadotReward : Type := {
  eraIndex : Z;
  amount : BigNumber.t;
  exposures : list (string * Z);
  timestamp : Z;
  collected : bool
}.

(** The answers of the node to the storage queries of [getRewards]; the
    exposure's [totalBalance] is the [total] of [Exposure.t]. *)
Record Storage : Type := {
  getValidatorReward : Z -> Promise (option Z);
  getRewardPoints : Z -> Promise (option EraRewardPoints.t);
  getValidatorPrefs : SubstrateAddress -> Promise (option ValidatorPrefs.t);
  getStakersClipped : Z -> SubstrateAddress -> Promise (option Exposure.t);
  getLedger : SubstrateAddress -> Promise (option PolkadotStakingLedger)
}.

(** The callback of [exposuresWithValidators.map] in [getRewards]. *)
Definition validatorShare (address : SubstrateAddress) (reward : Z)
  (rewardPoints : EraRewardPoints.t)
  (exposureWithValidator : SubstrateAddress * option Z * option Exposure.t) : BigNumber.t :=
  let '(validator, commission, exposure) := exposureWithValidator in
  match commission, exposure with
  | Some commission, Some exposure =>
      let validatorReward :=
        match SubstrateAccountController.findValue validator
                (EraRewardPoints.individual rewardPoints) with
        | Some points =>
            BigNumber.multipliedBy
              (BigNumber.dividedBy (BigNumber.ofZ points) (EraRewardPoints.total rewardPoints))
              (BigNumber.ofZ reward)
        | None => BigNumber.ofZ 0
        end in
      let nominatorStake :=
        match SubstrateAccountController.findValue address (Exposure.others exposure) with
        | Some stake => stake
        | None => 0
        end in
      let nominatorShare :=
        BigNumber.dividedBy (BigNumber.ofZ nominatorStake) (Exposure.total exposure) in
      BigNumber.multipliedBy
        (BigNumber.multipliedBy
           (BigNumber.minus (BigNumber.ofZ 1)
              (BigNumber.dividedBy (BigNumber.ofZ commission) 1000000000))
           validatorReward)
        nominatorShare
  | _, _ => BigNumber.ofZ 0
  end.

(** One round of the [for] loop of [getRewards]: the reward pushed for
    [era], if any. *)
Definition rewardOfEra (node : Storage) (address : SubstrateAddress)
  (validators : list SubstrateAddress) (era : Z) : Promise (option PolkadotReward) :=
  results <-
    all2 (getValidatorReward node era)
      (all2 (getRewardPoints node era)
         (all2 (all (map (fun validator =>
                            prefs <- getValidatorPrefs node validator ;;
                            exposure <- getStakersClipped node era validator ;;
                            Fulfilled (validator,
                                       option_map ValidatorPrefs.commission prefs, exposure))
                         validators))
               (getLedger node address))) ;;
  let reward := fst results in
  let rewardPoints := fst (snd results) in
  let exposuresWithValidators := fst (snd (snd results)) in
  let stakingLedger := snd (snd (snd results)) in
  match reward, rewardPoints, stakingLedger with
  | Some reward, Some rewardPoints, Some stakingLedger =>
      let total :=
        fold_left BigNumber.plus
          (map (validatorShare address reward rewardPoints) exposuresWithValidators)
          (BigNumber.ofZ 0) in
      Fulfilled (Some
        {| eraIndex := era;
           amount := total;
           exposures :=
             SubstrateAccountController.present
               (map (fun entry : SubstrateAddress * option Z * option Exposure.t =>
                       let '(validator, _, exposure) := entry in
                       option_map
                         (fun exposure =>
                            (validator,
                             JsArray.findIndex
                               (fun element : SubstrateAddress * Z =>
                                  String.eqb (fst element) address)
                               (Exposure.others exposure)))
                         exposure)
                    exposuresWithValidators);
           timestamp := 0;
           collected := match lastReward stakingLedger with
                        | Some last => last >=? era
                        | None => false
                        end |})
  | _, _, _ => Fulfilled None
  end.

(** The loop awaits era after era and stops at the first failure. *)
Fixpoint rewardsOfEras (node : Storage) (address : SubstrateAddress)
  (validators : list SubstrateAddress) (eras : list Z) (rewards : list PolkadotReward)
  : Promise (list PolkadotReward) :=
  match eras with
  | [] => Fulfilled rewards
  | era :: eras' =>
      pushed <- rewardOfEra node address validators era ;;
      rewardsOfEras node address validators eras'
        (rewards ++ match pushed with Some r => [r] | None => [] end)
  end.

Definition getRewards (node : Storage) (address : SubstrateAddress)
  (validators : list SubstrateAddress) (currentEra : Z) (limit : nat)
  : Promise (list PolkadotReward) :=
  let eras := map (fun index => currentEra - 1 - Z.of_nat index) (seq 0 limit) in
  rewards <- rewardsOfEras node address validators eras [] ;;
  Fulfilled (JsArray.sort (fun a b => eraIndex b - eraIndex a) rewards).

End PolkadotNodeClient.

(** ** The balance queries of the protocol classes *)
Module SubstrateProtocol.

(** [SubstrateProtocol.getBalanceOfAddresses]; [getBalance] is the method of
    the account controller. *)
Definition getBalanceOfAddresses (nodeClient : NodeApi.t) (addresses : list string)
  : Promise string :=
  balances <- all (map (SubstrateAccountController.getBalance nodeClient) addresses) ;;
  balance <- JsArray.reduce1 Z.add balances ;;
  Fulfilled (BigNumber.digits balance).

End SubstrateProtocol.

Module PolkadotProtocol.

(** [PolkadotNodeClient.getBalance] *)
Definition getBalance (getAccountInfo : SubstrateAddress -> Promise (option AccountInfo.t))
  (address : SubstrateAddress) : Promise Z :=
  accountInfo <- getAccountInfo address ;;
  Fulfilled match accountInfo with
            | Some info => AccountInfo.free info
            | None => 0
            end.

(** [PolkadotProtocol.getBalanceOfAddresses] *)
Definition getBalanceOfAddresses
  (getAccountInfo : SubstrateAddress -> Promise (option AccountInfo.t))
  (addresses : list string) : Promise string :=
  balances <- all (map (fun address => getBalance getAccountInfo address) addresses) ;;
  balance <- JsArray.reduce1 Z.add balances ;;
  Fulfilled (BigNumber.digits balance).

End PolkadotProtocol.

(** ** Vocabulary of the properties *)
Module Spec.
Import NodeApi SubstrateAccountController.

(** The sum of a list of balances. *)
Definition total (balances : list Z) : Z := fold_right Z.add 0 balances.

(** Number of units in the last decimal place kept by a division. *)
Definition scale : Z := 10 ^ BigNumber.DECIMAL_PLACES.

(** The order in which [x] does not come behind [y]. *)
Definition notBehind {A : Type} (compare : A -> A -> Z) (x y : A) : Prop :=
  compare x y <= 0.

(** Number of entries of an exposure with a stake above [stake]; a
    nominator with [n] such entries is ranked [n + 1] by stake. *)
Definition greaterStakes (stake : Z) (elements : list (SubstrateAddress * Z)) : nat :=
  List.length (filter (fun element => stake <? snd element) elements).

(** A decidable test for the absence of duplicates. *)
Fixpoint distinct {A : Type} (eqb : A -> A -> bool) (l : list A) : bool :=
  match l with
  | [] => true
  | x :: rest => negb (existsb (eqb x) rest) && distinct eqb rest
  end.

(** The data of [validator] for [era] is complete: its preferences and its
    clipped exposure are stored, it has reward points and the exposure
    lists the account. *)
Definition validatorComplete (nodeClient : NodeApi.t) (accountId : SubstrateAddress)
  (era : Z) (points : EraRewardPoints.t) (validator : SubstrateAddress) : Prop :=
  exists prefs exposure validatorPoints nominatorStake,
    getValidatorPrefs nodeClient era validator = Fulfilled (Some prefs)
    /\ getStakersClipped nodeClient era validator = Fulfilled (Some exposure)
    /\ findValue validator (EraRewardPoints.individual points) = Some validatorPoints
    /\ findValue accountId (Exposure.others exposure) = Some nominatorStake.

(** The data of [era] is complete: the reward pool and the reward points
    are stored and at least one validator's data is complete. *)
Definition eraComplete (nodeClient : NodeApi.t) (accountId : SubstrateAddress)
  (validators : list SubstrateAddress) (era : Z) : Prop :=
  exists reward points,
    getValidatorReward nodeClient era = Fulfilled (Some reward)
    /\ getRewardPoints nodeClient era = Fulfilled (Some points)
    /\ exists validator,
         In validator validators
         /\ validatorComplete nodeClient accountId era points validator.

(** The node answers the four storage queries of the reward computation. *)
Definition answers (nodeClient : NodeApi.t) : Prop :=
  forall (era : Z) (validator : SubstrateAddress),
    (exists r, getValidatorReward nodeClient era = Fulfilled r)
    /\ (exists r, getRewardPoints nodeClient era = Fulfilled r)
    /\ (exists r, getValidatorPrefs nodeClient era validator = Fulfilled r)
    /\ (exists r, getStakersClipped nodeClient era validator = Fulfilled r).

End Spec.

(** ** Sample inputs *)
Module Samples.
Import NodeApi SubstrateAccountController.

(** A node that knows one account and the existential deposit. *)
Definition nodeWith (info : option AccountInfo.t) (existentialDeposit : Promise Z)
  : NodeApi.t :=
  {| getAccountInfo := fun _ => Fulfilled info;
     getExistentialDeposit := existentialDeposit;
     getActiveEraInfo := Fulfilled None;
     getNominations := fun _ => Fulfilled None;
     getValidatorExposure := fun _ _ => Fulfilled None;
     getValidatorReward := fun _ => Fulfilled None;
     getRewardPoints := fun _ => Fulfilled None;
     getValidatorPrefs := fun _ _ => Fulfilled None;
     getStakersClipped := fun _ _ => Fulfilled None;
     getExpectedEraDuration := Fulfilled None;
     getElectionStatus := Fulfilled None |}.

(** A node that knows the free balance of two accounts. *)
Definition twoAccounts : NodeApi.t :=
  {| getAccountInfo := fun address =>
       if String.eqb address "alice"
       then Fulfilled (Some {| AccountInfo.free := 1200; AccountInfo.reserved := 0;
                               AccountInfo.miscFrozen := 0; AccountInfo.feeFrozen := 0 |})
       else if String.eqb address "bob"
       then Fulfilled (Some {| AccountInfo.free := 34; AccountInfo.reserved := 0;
                               AccountInfo.miscFrozen := 0; AccountInfo.feeFrozen := 0 |})
       else Fulfilled None;
     getExistentialDeposit := Fulfilled 1;
     getActiveEraInfo := Fulfilled None;
     getNominations := fun _ => Fulfilled None;
     getValidatorExposure := fun _ _ => Fulfilled None;
     getValidatorReward := fun _ => Fulfilled None;
     getRewardPoints := fun _ => Fulfilled None;
     getValidatorPrefs := fun _ _ => Fulfilled None;
     getStakersClipped := fun _ _ => Fulfilled None;
     getExpectedEraDuration := Fulfilled None;
     getElectionStatus := Fulfilled None |}.

(** An account with every precondition of an action met: bonded,
    nominating, with unlocking and withdrawable funds and a large balance. *)
Definition busyDetails : SubstrateStakingDetails :=
  {| active := 500;
     locked := [ {| value := "20"; expectedUnlock := Number.ofZ 1700000000 |} ];
     unlocked := 30 |}.

Definition busyNominations : Nominations.t :=
  {| Nominations.targets := ["v1"; "v2"]; Nominations.submittedIn := 10 |}.

Definition electionNode (status : option SubstrateElectionStatus) : NodeApi.t :=
  {| getAccountInfo := fun _ => Fulfilled None;
     getExistentialDeposit := Fulfilled 1;
     getActiveEraInfo := Fulfilled None;
     getNominations := fun _ => Fulfilled None;
     getValidatorExposure := fun _ _ => Fulfilled None;
     getValidatorReward := fun _ => Fulfilled None;
     getRewardPoints := fun _ => Fulfilled None;
     getValidatorPrefs := fun _ _ => Fulfilled None;
     getStakersClipped := fun _ _ => Fulfilled None;
     getExpectedEraDuration := Fulfilled None;
     getElectionStatus := Fulfilled status |}.

(** A numbering of the action types, in the order of their declaration here. *)
Definition declarationOrder (t : SubstrateStakingActionType) : Z :=
  match t with
  | BOND_NOMINATE => 0 | REBOND_NOMINATE => 1 | NOMINATE => 2
  | CANCEL_NOMINATION => 3 | CHANGE_NOMINATION => 4 | BOND_EXTRA => 5
  | REBOND_EXTRA => 6 | UNBOND => 7 | WITHDRAW_UNBONDED => 8
  end.

(** Parsers that accept every blob: the checks of [decode] alone reject. *)
Definition acceptAll (_ : unit) (_ : option Z) (raw : list byte) : Promise (list byte) :=
  Fulfilled raw.

(** A metadata blob of version 12, and a constant table that knows the
    expected block time (6000 ms) and the existential deposit (500). *)
Definition blob : list byte := [x6d; x65; x74; x61; x0c; x00].

Definition constants (_ : list byte) (moduleName name : string) : option (list byte) :=
  if String.eqb moduleName "Babe" && String.eqb name "ExpectedBlockTime"
  then Some [x70; x17]
  else if String.eqb moduleName "Balances" && String.eqb name "ExistentialDeposit"
  then Some [xf4; x01]
  else None.

(** A node that answers every request. *)
Definition healthy : SubstrateNodeClient.Node :=
  {| SubstrateNodeClient.state_getMetadata := fun _ => Fulfilled blob;
     SubstrateNodeClient.state_getRuntimeVersion := fun _ =>
       Fulfilled (Some {| SubstrateNodeClient.specVersion := 9000 |}) |}.

(** A node whose first answer to the runtime-version request is an error;
    it answers every later request. *)
Definition flaky : SubstrateNodeClient.Node :=
  {| SubstrateNodeClient.state_getMetadata := fun _ => Fulfilled blob;
     SubstrateNodeClient.state_getRuntimeVersion := fun n =>
       if (n <=? 1)%nat then Rejected (NetworkError "connection reset")
       else Fulfilled (Some {| SubstrateNodeClient.specVersion := 9000 |}) |}.

(** A node whose first answer to the metadata request is an error. *)
Definition offline : SubstrateNodeClient.Node :=
  {| SubstrateNodeClient.state_getMetadata := fun n =>
       if (n <=? 1)%nat then Rejected (NetworkError "connection reset")
       else Fulfilled blob;
     SubstrateNodeClient.state_getRuntimeVersion := fun _ =>
       Fulfilled (Some {| SubstrateNodeClient.specVersion := 9000 |}) |}.

(** The client after its first call of [initApi] against the flaky node. *)
Definition afterFailure : SubstrateNodeClient.Client unit (list byte) :=
  fst (SubstrateNodeClient.initApi acceptAll acceptAll id constants flaky
         (SubstrateNodeClient.create (list byte) tt)).

(** An exposure of 300 nominators n0 .. n299 whose stakes are the numbers
    1 .. 300 in a scrambled order: the stake of n49 is 44 (rank 257), that
    of n200 is 201 (rank 100) and that of n6 is 43 (rank 258). *)
Definition nominatorName (i : nat) : SubstrateAddress :=
  ("n" ++ BigNumber.digits (Z.of_nat i))%string.

Definition stakeOf (i : nat) : Z := Z.of_nat ((i * 7) mod 300) + 1.

Definition exposure300 : Exposure.t :=
  {| Exposure.total := 45150 + 1000;
     Exposure.own := 1000;
     Exposure.others := map (fun i => (nominatorName i, stakeOf i)) (seq 0 300) |}.

(** A node on which every account nominates the validator "validator",
    whose exposure is [exposure300] in every era. *)
Definition node300 : NodeApi.t :=
  {| getAccountInfo := fun _ => Fulfilled None;
     getExistentialDeposit := Fulfilled 1;
     getActiveEraInfo :=
       Fulfilled (Some {| ActiveEraInfo.index := 7; ActiveEraInfo.start := None |});
     getNominations := fun _ =>
       Fulfilled (Some {| Nominations.targets := ["validator"];
                          Nominations.submittedIn := 3 |});
     getValidatorExposure := fun _ _ => Fulfilled (Some exposure300);
     getValidatorReward := fun _ => Fulfilled None;
     getRewardPoints := fun _ => Fulfilled None;
     getValidatorPrefs := fun _ _ => Fulfilled None;
     getStakersClipped := fun _ _ => Fulfilled None;
     getExpectedEraDuration := Fulfilled None;
     getElectionStatus := Fulfilled None |}.

(** A node with three past eras. Era 5: pool 1000, 50 of 100 points for
    each of v1 and v2, 10% commission; the account has 100 of the 1000
    staked on v1, and no exposure is stored for v2. Era 4: pool and points
    are stored but no exposure at all. Era 3: nothing is stored. *)
Definition rewardNode : NodeApi.t :=
  {| getAccountInfo := fun _ => Fulfilled None;
     getExistentialDeposit := Fulfilled 1;
     getActiveEraInfo :=
       Fulfilled (Some {| ActiveEraInfo.index := 6;
                          ActiveEraInfo.start := Some 1600000000000 |});
     getNominations := fun _ => Fulfilled None;
     getValidatorExposure := fun _ _ => Fulfilled None;
     getValidatorReward := fun era =>
       Fulfilled (if (era =? 5) || (era =? 4) then Some 1000 else None);
     getRewardPoints := fun era =>
       Fulfilled (if (era =? 5) || (era =? 4)
                  then Some {| EraRewardPoints.total := 100;
                               EraRewardPoints.individual := [("v1", 50); ("v2", 50)] |}
                  else None);
     getValidatorPrefs := fun era _ =>
       Fulfilled (if (era =? 5) || (era =? 4)
                  then Some {| ValidatorPrefs.commission := 100000000 |}
                  else None);
     getStakersClipped := fun era validator =>
       Fulfilled (if (era =? 5) && String.eqb validator "v1"
                  then Some {| Exposure.total := 1000; Exposure.own := 900;
                               Exposure.others := [("acct", 100)] |}
                  else None);
     getExpectedEraDuration := Fulfilled (Some 86400000);
     getElectionStatus := Fulfilled None |}.

Definition era6 : ActiveEraInfo.t :=
  {| ActiveEraInfo.index := 6; ActiveEraInfo.start := Some 1600000000000 |}.

Definition entryOfEra5 : SubstrateNominatorRewardDetails :=
  {| eraIndex := 5; amount := "45"; exposures := [("v1", 0)];
     timestamp := Number.ofZ 1600000000000 |}.

(** The storage of [rewardNode] as the older Polkadot node client sees it,
    with a staking ledger for every account. *)
Definition oldNode : PolkadotNodeClient.Storage :=
  {| PolkadotNodeClient.getValidatorReward := getValidatorReward rewardNode;
     PolkadotNodeClient.getRewardPoints := getRewardPoints rewardNode;
     PolkadotNodeClient.getValidatorPrefs := getValidatorPrefs rewardNode 5;
     PolkadotNodeClient.getStakersClipped := getStakersClipped rewardNode;
     PolkadotNodeClient.getLedger := fun _ =>
       Fulfilled (Some {| PolkadotNodeClient.lastReward := None |}) |}.

End Samples.
(* ------------------------------------------------------------------ *)
(** ** Further functions of the library

    The functions below are those that the properties of Part III are
    about: the callers and callees of the functions above and their
    neighbours in the same source files. *)

(** ** utils/array.ts: [shuffledArray] *)
Module ArrayShuffle.

Section Shuffle.
Context {T : Type}.

(** [array[k] = v] on an array with holes; [None] is a hole (or
    [undefined]). Writing at or beyond the length extends the array. *)
Fixpoint setAt (array : list (option T)) (k : nat) (v : option T) : list (option T) :=
  match k, array with
  | O, [] => [v]
  | O, _ :: rest => v :: rest
  | S k', [] => None :: setAt [] k' v
  | S k', x :: rest => x :: setAt rest k' v
  end.

(** The [for] loop of [shuffledArray], from index [i] down to 1. The value
    of [Math.floor(Math.random() * (i + 1))] in the round of index [i] is
    [random i]. *)
Fixpoint shuffleLoop (random : nat -> nat) (array : list T) (i : nat)
  (shuffled : list (option T)) : list (option T) :=
  match i with
  | O => shuffled
  | S i' =>
      let j := random i in
      shuffleLoop random array i'
        (setAt (setAt shuffled i (nth_error array j)) j (nth_error array i))
  end.

Definition shuffledArray (random : nat -> nat) (array : list T) : list (option T) :=
  shuffleLoop random array (List.length array - 1) (repeat None (List.length array)).

End Shuffle.

End ArrayShuffle.

(** ** helpers/node/SubstrateNodeClient.ts: the last fees *)
Module LastFees.

Section Fees.
(** [SubstrateTransactionType] is declared outside the sources at hand; the
    keys of the map are a parameter with a decidable equality. *)
Variable SubstrateTransactionType : Type.
Variable eqb : SubstrateTransactionType -> SubstrateTransactionType -> bool.

(** The [Map] [lastFees], in insertion order. *)
Definition Fees : Type := list (SubstrateTransactionType * Z).

(** [map.set(type, fee)]: an existing key keeps its place. *)
Fixpoint set (fees : Fees) (type : SubstrateTransactionType) (fee : Z) : Fees :=
  match fees with
  | [] => [(type, fee)]
  | (k, v) :: rest => if eqb k type then (k, fee) :: rest else (k, v) :: set rest type fee
  end.

(** [map.get(type)] *)
Fixpoint get (fees : Fees) (type : SubstrateTransactionType) : option Z :=
  match fees with
  | [] => None
  | (k, v) :: rest => if eqb k type then Some v else get rest type
  end.

(** [BigNumber.max(...values)] of a non-empty array. *)
Definition maximum (first : Z) (others : list Z) : Z := fold_left Z.max others first.

Definition saveLastFee (fees : Fees) (type : SubstrateTransactionType) (fee : Z) : Fees :=
  set fees type fee.

(** [getSavedLastFee(type, defaultValue)]; [largest] tells whether
    [defaultValue] is ['largest']. A saved fee is an object, hence truthy. *)
Definition getSavedLastFee (fees : Fees) (type : SubstrateTransactionType)
  (largest : bool) : option Z :=
  match get fees type with
  | Some fee => Some fee
  | None =>
      if largest then
        match map snd fees with
        | [] => None
        | first :: others => Some (maximum first others)
        end
      else None
  end.

End Fees.

End LastFees.

(** ** Further decoded chain values *)
Module StakingLedger.
(** [SubstrateStakingLedger]; [unlocking] pairs a value with the era from
    which it can be withdrawn. *)
Record t : Type := { total : Z; active : Z; unlocking : list (Z * Z) }.
End StakingLedger.

(** The answers of the node client to the further queries of the
    controller, on top of [NodeApi.t]. *)
Module StakingApi.
Record t : Type := {
  node : NodeApi.t;
  getStakingLedger : SubstrateAddress -> Promise (option StakingLedger.t);
  getBonded : SubstrateAddress -> Promise (option SubstrateAddress)
}.
End StakingApi.

Inductive SubstrateStakingStatus : Type :=
| bonded | nominating | nominating_inactive | nominating_waiting.

(** [SubstrateStakingDetails] with all its fields; [total], [active] and
    [unlocked] are the integers their text denotes. *)
Module StakingDetails.
Record t : Type := {
  total : Z;
  active : Z;
  locked : list SubstrateLockedDetails;
  unlocked : Z;
  status : SubstrateStakingStatus;
  nextEra : Number.t;
  rewards : list SubstrateNominatorRewardDetails
}.
End StakingDetails.

(** [SubstrateNominatorDetails]; [balance] is the integer its text denotes. *)
Module NominatorDetails.
Record t : Type := {
  address : string;
  balance : Z;
  delegatees : list string;
  availableActions : list DelegatorAction;
  stakingDetails : option StakingDetails.t
}.
End NominatorDetails.

(** ** helpers/SubstrateAccountController.ts: staking details *)
Module SubstrateStaking.
Import NodeApi StakingApi SubstrateAccountController.

Definition partitionArray {T : Type} (array : list T) (predicate : T -> bool)
  : list T * list T :=
  fold_left (fun partitioned item =>
               if predicate item
               then (fst partitioned ++ [item], snd partitioned)
               else (fst partitioned, snd partitioned ++ [item]))
            array ([], []).

Definition getUnlockingBalance (api : StakingApi.t) (accountId : SubstrateAddress)
  : Promise Z :=
  stakingDetails <- getStakingLedger api accountId ;;
  Fulfilled match stakingDetails with
            | Some ledger =>
                fold_left (fun sum next => sum + next)
                          (map fst (StakingLedger.unlocking ledger)) 0
            | None => 0
            end.

Definition isBonded (api : StakingApi.t) (accountId : SubstrateAddress) : Promise bool :=
  bonded <- getBonded api accountId ;;
  Fulfilled match bonded with Some _ => true | None => false end.

Definition isNominating (api : StakingApi.t) (accountId : SubstrateAddress) : Promise bool :=
  nominations <- getNominations (node api) accountId ;;
  Fulfilled match nominations with Some _ => true | None => false end.

Definition getCurrentValidators (api : StakingApi.t) (accountId : SubstrateAddress)
  : Promise (list string) :=
  nominations <- getNominations (node api) accountId ;;
  Fulfilled match nominations with
            | Some n => Nominations.targets n
            | None => []
            end.

(** [getUnlockingDetails]; the second component is the integer that the
    text [unlocked] denotes. *)
Definition getUnlockingDetails (unlocking : list (Z * Z)) (activeEra : ActiveEraInfo.t)
  (expectedEraDuration : Z) : list SubstrateLockedDetails * Z :=
  let partitioned :=
    partitionArray unlocking (fun entry => ActiveEraInfo.index activeEra <? snd entry) in
  let lockedDetails :=
    map (fun entry : Z * Z =>
           let eraStart := match ActiveEraInfo.start activeEra with
                           | Some start => start
                           | None => 0
                           end in
           let estimatedDuration :=
             (snd entry - ActiveEraInfo.index activeEra) * expectedEraDuration in
           let expectedUnlock := eraStart + estimatedDuration in
           {| value := BigNumber.digits (fst entry);
              expectedUnlock := BigNumber.toNumber expectedUnlock |})
        (fst partitioned) in
  let totalUnlocked :=
    fold_left (fun total entry => total + fst entry) (snd partitioned) 0 in
  (lockedDetails, totalUnlocked).

Definition getStakingStatus (nodeClient : NodeApi.t) (nominator : SubstrateAddress)
  (nominations : option Nominations.t) (eraIndex : Z) : Promise SubstrateStakingStatus :=
  let isWaitingForNomination :=
    match nominations with
    | Some n => Nominations.submittedIn n >=? eraIndex
    | None => false
    end in
  hasActiveNominations <-
    match nominations with
    | Some n =>
        if negb isWaitingForNomination then
          then_ (all (map (fun target =>
                             getNominationStatus nodeClient nominator target (Some eraIndex))
                          (Nominations.targets n)))
                (existsb (fun status => match status with
                                        | Some ACTIVE => true
                                        | _ => false
                                        end))
        else Fulfilled false
    | None => Fulfilled false
    end ;;
  Fulfilled match nominations with
            | None => bonded
            | Some _ =>
                if hasActiveNominations then nominating
                else if negb isWaitingForNomination && negb hasActiveNominations
                then nominating_inactive
                else nominating_waiting
            end.

Definition getStakingDetails (nodeClient : NodeApi.t) (accountId : SubstrateAddress)
  (stakingLedger : option StakingLedger.t) (nominations : option Nominations.t)
  (activeEra : ActiveEraInfo.t) (expectedEraDuration : Z)
  : Promise (option StakingDetails.t) :=
  match stakingLedger with
  | None => Fulfilled None
  | Some stakingLedger =>
      let unlockingDetails :=
        getUnlockingDetails (StakingLedger.unlocking stakingLedger) activeEra
          expectedEraDuration in
      results <-
        all2 (getStakingStatus nodeClient accountId nominations
                (ActiveEraInfo.index activeEra))
             (match nominations with
              | Some n =>
                  getNominatorRewards nodeClient accountId (Nominations.targets n)
                    activeEra (inl 5%nat)
              | None => Fulfilled []
              end) ;;
      Fulfilled (Some
        {| StakingDetails.total := StakingLedger.total stakingLedger;
           StakingDetails.active := StakingLedger.active stakingLedger;
           StakingDetails.locked := fst unlockingDetails;
           StakingDetails.unlocked := snd unlockingDetails;
           StakingDetails.status := fst results;
           StakingDetails.nextEra :=
             match ActiveEraInfo.start activeEra with
             | Some start =>
                 Number.orZero (BigNumber.toNumber (start + expectedEraDuration))
             | None => Number.ofZ 0
             end;
           StakingDetails.rewards := snd results |})
  end.

(** The three fields that [getAvailableStakingActions] reads. *)
Definition eligibilityFields (details : StakingDetails.t) : SubstrateStakingDetails :=
  {| active := StakingDetails.active details;
     locked := StakingDetails.locked details;
     unlocked := StakingDetails.unlocked details |}.

Section Details.
Variable ordinal : SubstrateStakingActionType -> Z.

Definition getNominatorDetails (api : StakingApi.t) (accountId : SubstrateAddress)
  (validatorIds : option (list SubstrateAddress)) : Promise NominatorDetails.t :=
  let address := accountId in
  results <-
    all2 (getBalance (node api) address)
      (all2 (getTransferableBalance (node api) address false true)
         (all2 (getStakingLedger api address)
            (all2 (getNominations (node api) address)
               (all2 (getActiveEraInfo (node api))
                  (all2 (getExpectedEraDuration (node api))
                        (getExistentialDeposit (node api))))))) ;;
  let balance := fst results in
  let transferableBalance := fst (snd results) in
  let stakingLedger := fst (snd (snd results)) in
  let nominations := fst (snd (snd (snd results))) in
  let activeEra := fst (snd (snd (snd (snd results)))) in
  let expectedEraDuration := fst (snd (snd (snd (snd (snd results))))) in
  match activeEra, expectedEraDuration with
  | Some activeEra, Some expectedEraDuration =>
      let validators :=
        match nominations with Some n => Nominations.targets n | None => [] end in
      stakingDetails <-
        getStakingDetails (node api) accountId stakingLedger nominations activeEra
          expectedEraDuration ;;
      availableActions <-
        getAvailableStakingActions ordinal (node api)
          (option_map eligibilityFields stakingDetails) nominations
          (match validatorIds with Some ids => ids | None => validators end)
          transferableBalance ;;
      Fulfilled {| NominatorDetails.address := address;
                   NominatorDetails.balance := balance;
                   NominatorDetails.delegatees := validators;
                   NominatorDetails.availableActions := availableActions;
                   NominatorDetails.stakingDetails := stakingDetails |}
  | _, _ => Rejected (Reason "Could not fetch nominator details.")
  end.

End Details.

End SubstrateStaking.

(** [SubstrateTransactionType]: the members that [SubstrateProtocol] names.
    The enum is declared in helpers/data/transaction/SubstrateTransaction.ts,
    which is not part of the sources at hand. *)
Module SubstrateTransactionType.
Inductive t : Type :=
| TRANSFER | BOND | UNBOND | REBOND | BOND_EXTRA | WITHDRAW_UNBONDED
| NOMINATE | CANCEL_NOMINATION | SUBMIT_BATCH.
End SubstrateTransactionType.

(** The [args] object of a transaction; a field that the object does not
    have is [None]. *)
Module TransactionArgs.
Record t : Type := {
  to : option SubstrateAddress;
  value : option Z;
  controller : option SubstrateAddress;
  payee : option Z;
  targets : option (list SubstrateAddress);
  slashingSpansNumber : option Z
}.

(** [{}] *)
Definition empty : t :=
  {| to := None; value := None; controller := None; payee := None;
     targets := None; slashingSpansNumber := None |}.

(** [{ value }] *)
Definition ofValue (v : Z) : t :=
  {| to := None; value := Some v; controller := None; payee := None;
     targets := None; slashingSpansNumber := None |}.

(** [{ targets }] *)
Definition ofTargets (ts : list SubstrateAddress) : t :=
  {| to := None; value := None; controller := None; payee := None;
     targets := Some ts; slashingSpansNumber := None |}.

End TransactionArgs.

(** [SubstrateTransactionConfig] *)
Record SubstrateTransactionConfig : Type := {
  configType : SubstrateTransactionType.t;
  tip : Z;
  configArgs : TransactionArgs.t
}.

Inductive Intention : Type := check | transfer | delegate.

(** ** Further methods of [SubstrateProtocol] *)
Module SubstrateDelegation.
Import NodeApi StakingApi SubstrateAccountController SubstrateStaking.

(** The field names that [prepareDelegatorActionFromPublicKey] hands to
    [assertFields] for an action type; none for an action that it prepares
    without an assertion. *)
Definition assertedFields (type : SubstrateStakingActionType) : list string :=
  match type with
  | BOND_NOMINATE => ["targets"; "value"; "payee"]
  | REBOND_NOMINATE => ["targets"; "value"]
  | NOMINATE => ["targets"]
  | CANCEL_NOMINATION => []
  | CHANGE_NOMINATION => ["targets"]
  | UNBOND => ["value"]
  | BOND_EXTRA => ["value"]
  | REBOND_EXTRA => ["value"]
  | WITHDRAW_UNBONDED => []
  end.

Section Transactions.
(** [SubstrateAddress.createPlaceholder()] and the transaction controller
    are not part of the sources at hand: the placeholder address and
    [prepareSubmittableTransactions] are parameters. *)
Variable placeholder : SubstrateAddress.
Variable prepareSubmittableTransactions :
  SubstrateAddress -> Z -> list SubstrateTransactionConfig -> Promise string.

(** [typeof targets === 'string' ? [targets] : targets] *)
Definition targetList (targets : list SubstrateAddress + SubstrateAddress)
  : list SubstrateAddress :=
  match targets with
  | inl targets => targets
  | inr target => [target]
  end.

(** [prepareRebondNominate]; the result lists the [encoded] field of each
    raw transaction. *)
Definition prepareRebondNominate (api : StakingApi.t) (publicKey : SubstrateAddress)
  (tip : Z) (targets : list SubstrateAddress + SubstrateAddress) (value : Z)
  : Promise (list string) :=
  results <- all2 (getTransferableBalance (node api) publicKey false false)
                  (getUnlockingBalance api publicKey) ;;
  let transferableBalance := fst results in
  let lockedBalance := snd results in
  let toDelegate := value in
  let configs :=
    (if toDelegate >? lockedBalance
     then [ {| configType := SubstrateTransactionType.REBOND; tip := tip;
               configArgs := TransactionArgs.ofValue lockedBalance |};
            {| configType := SubstrateTransactionType.BOND_EXTRA; tip := tip;
               configArgs := TransactionArgs.ofValue (toDelegate - lockedBalance) |} ]
     else [ {| configType := SubstrateTransactionType.REBOND; tip := tip;
               configArgs := TransactionArgs.ofValue toDelegate |} ])
    ++ [ {| configType := SubstrateTransactionType.NOMINATE; tip := tip;
            configArgs := TransactionArgs.ofTargets (targetList targets) |} ] in
  encoded <- prepareSubmittableTransactions publicKey transferableBalance configs ;;
  Fulfilled [encoded].

(** [prepareRebondExtra] *)
Definition prepareRebondExtra (api : StakingApi.t) (publicKey : SubstrateAddress)
  (tip : Z) (value : Z) : Promise (list string) :=
  results <- all2 (getTransferableBalance (node api) publicKey false false)
                  (getUnlockingBalance api publicKey) ;;
  let transferableBalance := fst results in
  let lockedBalance := snd results in
  let toDelegate := value in
  let configs :=
    if toDelegate >? lockedBalance
    then [ {| configType := SubstrateTransactionType.REBOND; tip := tip;
              configArgs := TransactionArgs.ofValue lockedBalance |};
           {| configType := SubstrateTransactionType.BOND_EXTRA; tip := tip;
              configArgs := TransactionArgs.ofValue (toDelegate - lockedBalance) |} ]
    else [ {| configType := SubstrateTransactionType.REBOND; tip := tip;
              configArgs := TransactionArgs.ofValue toDelegate |} ] in
  encoded <- prepareSubmittableTransactions publicKey transferableBalance configs ;;
  Fulfilled [encoded].

(** [getFutureRequiredTransactions] *)
Definition getFutureRequiredTransactions (api : StakingApi.t)
  (accountId : SubstrateAddress) (intention : Intention)
  : Promise (list (SubstrateTransactionType.t * TransactionArgs.t)) :=
  results <-
    all2 (isBonded api accountId)
      (all2 (isNominating api accountId)
         (all2 (getTransferableBalance (node api) accountId true true)
            (all2 (getTransferableBalance (node api) accountId false false)
                  (getUnlockingBalance api accountId)))) ;;
  let isBonded := fst results in
  let isNominating := fst (snd results) in
  let transferableBalance := fst (snd (snd results)) in
  let stakingBalance := fst (snd (snd (snd results))) in
  let unlockingBalance := snd (snd (snd (snd results))) in
  let isUnbonding := unlockingBalance >? 0 in
  let isTransfer := match intention with transfer => true | _ => false end in
  let isDelegate := match intention with delegate => true | _ => false end in
  let withdraw :=
    (SubstrateTransactionType.WITHDRAW_UNBONDED,
     {| TransactionArgs.to := None; TransactionArgs.value := None;
        TransactionArgs.controller := None; TransactionArgs.payee := None;
        TransactionArgs.targets := None;
        TransactionArgs.slashingSpansNumber := Some 0 |}) in
  let nominate :=
    (SubstrateTransactionType.NOMINATE, TransactionArgs.ofTargets [placeholder]) in
  let cancel := (SubstrateTransactionType.CANCEL_NOMINATION, TransactionArgs.empty) in
  let requiredTransactions :=
    (if isTransfer
     then [ (SubstrateTransactionType.TRANSFER,
             {| TransactionArgs.to := Some placeholder;
                TransactionArgs.value := Some transferableBalance;
                TransactionArgs.controller := None; TransactionArgs.payee := None;
                TransactionArgs.targets := None;
                TransactionArgs.slashingSpansNumber := None |}) ]
     else [])
    ++ (if negb isBonded && negb isUnbonding && isDelegate
        then [ (SubstrateTransactionType.BOND,
                {| TransactionArgs.to := None;
                   TransactionArgs.value := Some stakingBalance;
                   TransactionArgs.controller := Some placeholder;
                   TransactionArgs.payee := Some 0;
                   TransactionArgs.targets := None;
                   TransactionArgs.slashingSpansNumber := None |});
               nominate; cancel;
               (SubstrateTransactionType.UNBOND, TransactionArgs.ofValue stakingBalance);
               withdraw ]
        else if isUnbonding && isDelegate
        then [ (SubstrateTransactionType.REBOND, TransactionArgs.ofValue unlockingBalance);
               nominate; cancel;
               (SubstrateTransactionType.UNBOND,
                TransactionArgs.ofValue (stakingBalance + unlockingBalance));
               withdraw ]
        else if isBonded
        then [ (SubstrateTransactionType.UNBOND, TransactionArgs.ofValue stakingBalance);
               withdraw ]
        else [])
    ++ (if isNominating then [cancel] else []) in
  Fulfilled requiredTransactions.

End Transactions.

(** [getAvailableBalanceOfAddresses] *)
Definition getAvailableBalanceOfAddresses (nodeClient : NodeApi.t)
  (addresses : list string) : Promise string :=
  balances <- all (map (fun address => getTransferableBalance nodeClient address false true)
                       addresses) ;;
  balance <- JsArray.reduce1 Z.add balances ;;
  Fulfilled (BigNumber.digits balance).

End SubstrateDelegation.

(** ** Further vocabulary and sample inputs *)
Module StakingSamples.
Import NodeApi StakingApi SubstrateAccountController SubstrateStaking.

(** The values of the chunks that are still locked in the active era. *)
Definition lockedValues (unlocking : list (Z * Z)) (activeEra : ActiveEraInfo.t) : list Z :=
  map fst (filter (fun entry => ActiveEraInfo.index activeEra <? snd entry) unlocking).

(** The instant at which the chunks of an era are expected to unlock, in
    milliseconds and before it is turned into a number: the start of the
    active era (0 when it is unknown) plus the expected duration of the
    eras in between. *)
Definition unlockInstant (activeEra : ActiveEraInfo.t) (expectedEraDuration era : Z) : Z :=
  match ActiveEraInfo.start activeEra with
  | Some start => start
  | None => 0
  end + (era - ActiveEraInfo.index activeEra) * expectedEraDuration.

(** A ledger with two matured chunks (eras 5 and 6) and two locked ones
    (eras 7 and 9), seen from era 6, which started at 1600000000000. *)
Definition sampleLedger : StakingLedger.t :=
  {| StakingLedger.total := 1000;
     StakingLedger.active := 400;
     StakingLedger.unlocking := [(100, 5); (200, 7); (50, 6); (250, 9)] |}.

Definition sampleEra : ActiveEraInfo.t :=
  {| ActiveEraInfo.index := 6; ActiveEraInfo.start := Some 1600000000000 |}.

(** A node that knows the account "acct": 5000 free of which 1000 are
    frozen, nominating v1 and v2 since era 3, listed in the exposure of v1
    with a stake of 100; the reward data is that of [Samples.rewardNode]. *)
Definition stakingNode (election : option SubstrateElectionStatus) : NodeApi.t :=
  {| getAccountInfo := fun accountId =>
       Fulfilled (if String.eqb accountId "acct"
                  then Some {| AccountInfo.free := 5000; AccountInfo.reserved := 0;
                               AccountInfo.miscFrozen := 1000;
                               AccountInfo.feeFrozen := 1000 |}
                  else None);
     getExistentialDeposit := Fulfilled 1;
     getActiveEraInfo := Fulfilled (Some sampleEra);
     getNominations := fun accountId =>
       Fulfilled (if String.eqb accountId "acct"
                  then Some {| Nominations.targets := ["v1"; "v2"];
                               Nominations.submittedIn := 3 |}
                  else None);
     getValidatorExposure := fun _ validator =>
       Fulfilled (if String.eqb validator "v1"
                  then Some {| Exposure.total := 1000; Exposure.own := 900;
                               Exposure.others := [("acct", 100)] |}
                  else None);
     getValidatorReward := getValidatorReward Samples.rewardNode;
     getRewardPoints := getRewardPoints Samples.rewardNode;
     getValidatorPrefs := getValidatorPrefs Samples.rewardNode;
     getStakersClipped := getStakersClipped Samples.rewardNode;
     getExpectedEraDuration := Fulfilled (Some 86400000);
     getElectionStatus := Fulfilled election |}.

Definition stakingApi (election : option SubstrateElectionStatus) : StakingApi.t :=
  {| node := stakingNode election;
     getStakingLedger := fun accountId =>
       Fulfilled (if String.eqb accountId "acct" then Some sampleLedger else None);
     getBonded := fun accountId =>
       Fulfilled (if String.eqb accountId "acct" then Some "ctrl" else None) |}.

Definition sampleNominations : Nominations.t :=
  {| Nominations.targets := ["v1"; "v2"]; Nominations.submittedIn := 3 |}.

(** The same chain seen by an account that never staked: "fresh" holds 50,
    of which 10 are frozen; the election is closed. *)
Definition freshApi : StakingApi.t :=
  {| node :=
       {| getAccountInfo := fun accountId =>
            Fulfilled (if String.eqb accountId "fresh"
                       then Some {| AccountInfo.free := 50; AccountInfo.reserved := 0;
                                    AccountInfo.miscFrozen := 10;
                                    AccountInfo.feeFrozen := 10 |}
                       else None);
          getExistentialDeposit := Fulfilled 1;
          getActiveEraInfo := Fulfilled (Some sampleEra);
          getNominations := fun _ => Fulfilled None;
          getValidatorExposure := fun _ _ => Fulfilled None;
          getValidatorReward := fun _ => Fulfilled None;
          getRewardPoints := fun _ => Fulfilled None;
          getValidatorPrefs := fun _ _ => Fulfilled None;
          getStakersClipped := fun _ _ => Fulfilled None;
          getExpectedEraDuration := Fulfilled (Some 86400000);
          getElectionStatus := Fulfilled (Some CLOSED) |};
     getStakingLedger := fun _ => Fulfilled None;
     getBonded := fun _ => Fulfilled None |}.

(** A node on which every era pays alike: a pool of 1000, 50 of 100 points
    for v1, 10% commission, and 100 of the 1000 staked on v1 are those of
    "acct". *)
Definition steadyNode : NodeApi.t :=
  {| getAccountInfo := fun _ => Fulfilled None;
     getExistentialDeposit := Fulfilled 1;
     getActiveEraInfo := Fulfilled (Some sampleEra);
     getNominations := fun _ => Fulfilled None;
     getValidatorExposure := fun _ _ => Fulfilled None;
     getValidatorReward := fun _ => Fulfilled (Some 1000);
     getRewardPoints := fun _ =>
       Fulfilled (Some {| EraRewardPoints.total := 100;
                          EraRewardPoints.individual := [("v1", 50)] |});
     getValidatorPrefs := fun _ _ =>
       Fulfilled (Some {| ValidatorPrefs.commission := 100000000 |});
     getStakersClipped := fun _ validator =>
       Fulfilled (if String.eqb validator "v1"
                  then Some {| Exposure.total := 1000; Exposure.own := 900;
                               Exposure.others := [("acct", 100)] |}
                  else None);
     getExpectedEraDuration := Fulfilled (Some 86400000);
     getElectionStatus := Fulfilled None |}.

Definition steadyEntry (era stamp : Z) : SubstrateNominatorRewardDetails :=
  {| eraIndex := era; amount := "45"; exposures := [("v1", 0)];
     timestamp := Number.ofZ stamp |}.

Definition steadyRewards : list SubstrateNominatorRewardDetails :=
  [steadyEntry 5 1600000000000; steadyEntry 4 1599913600000;
   steadyEntry 3 1599827200000].

End StakingSamples.

(** ** Vocabulary for the rounding of integers to numbers *)
Module NumberSpec.

(** A non-negative integer rounded to 53 significant bits: to the nearest
    integer that has no bit below its 53 leading ones, a tie going to the
    one whose 53rd bit is 0. *)
Definition nearest53 (z : Z) : Z :=
  let k := Z.log2 z + 1 - 53 in
  if k <=? 0 then z
  else
    let q := z / 2 ^ k in
    let r := z mod 2 ^ k in
    let up := (2 ^ k <? 2 * r) || ((2 ^ k =? 2 * r) && Z.odd q) in
    (if up then q + 1 else q) * 2 ^ k.

End NumberSpec.

(** ** Vocabulary for the status of a nomination *)
Module NominationSpec.

(** The nominations name the validator among their targets. *)
Definition nominates (nominations : option Nominations.t) (validator : SubstrateAddress)
  : Prop :=
  exists n, nominations = Some n /\ In validator (Nominations.targets n).

(** An exposure is stored and lists the nominator. *)
Definition lists (exposure : option Exposure.t) (nominator : SubstrateAddress) : Prop :=
  exists e, exposure = Some e /\ In nominator (map fst (Exposure.others e)).

End NominationSpec.

(** ** Vocabulary for the lists of available actions *)
Module ActionSpec.

Definition sameType (a b : SubstrateStakingActionType) : bool :=
  Samples.declarationOrder a =? Samples.declarationOrder b.

(** An action of type [t] is among [actions]. *)
Definition offered (t : SubstrateStakingActionType) (actions : list DelegatorAction)
  : bool :=
  existsb (fun action => sameType (type action) t) actions.

(** Two action types are never offered together. *)
Definition exclusive (t u : SubstrateStakingActionType)
  (types : list SubstrateStakingActionType) : Prop :=
  ~ (In t types /\ In u types).

(** The decidable form of the consistency of a list of actions: no type
    occurs twice, bonding for the first time excludes every action on an
    existing bond, rebonding excludes the actions of a bond that is not
    unlocking, NOMINATE and UNBOND come together, and of the two ways to
    rebond and of the two ways to change a nomination at most one is
    offered. *)
Definition checkActions (actions : list DelegatorAction) : bool :=
  let has t := offered t actions in
  Spec.distinct sameType (map type actions)
  && implb (has BOND_NOMINATE)
       (negb (has BOND_EXTRA || has NOMINATE || has UNBOND
              || has REBOND_NOMINATE || has REBOND_EXTRA))
  && implb (has REBOND_NOMINATE || has REBOND_EXTRA)
       (negb (has BOND_EXTRA || has NOMINATE || has UNBOND))
  && Bool.eqb (has NOMINATE) (has UNBOND)
  && negb (has REBOND_NOMINATE && has REBOND_EXTRA)
  && negb (has CANCEL_NOMINATION && has CHANGE_NOMINATION).

(** The same as a proposition on the types of the actions of a list. *)
Definition consistent (types : list SubstrateStakingActionType) : Prop :=
  NoDup types
  /\ (forall t, In t [BOND_EXTRA; NOMINATE; UNBOND; REBOND_NOMINATE; REBOND_EXTRA] ->
      exclusive BOND_NOMINATE t types)
  /\ (forall t t', In t [REBOND_NOMINATE; REBOND_EXTRA] ->
                   In t' [BOND_EXTRA; NOMINATE; UNBOND] -> exclusive t t' types)
  /\ (In NOMINATE types <-> In UNBOND types)
  /\ exclusive REBOND_NOMINATE REBOND_EXTRA types
  /\ exclusive CANCEL_NOMINATION CHANGE_NOMINATION types.

End ActionSpec.

(** ** A chain without Babe *)
Module ClientSamples.

(** A constant table that knows the existential deposit (500) but no
    expected block time. *)
Definition constantsWithoutBabe (_ : list byte) (moduleName name : string)
  : option (list byte) :=
  if String.eqb moduleName "Balances" && String.eqb name "ExistentialDeposit"
  then Some [xf4; x01]
  else None.

(** The client after its first call of [initApi] against such a chain. *)
Definition afterMissingBlockTime : SubstrateNodeClient.Client unit (list byte) :=
  fst (SubstrateNodeClient.initApi Samples.acceptAll Samples.acceptAll id
         constantsWithoutBabe Samples.healthy
         (SubstrateNodeClient.create (list byte) tt)).

End ClientSamples.

(** ** Vocabulary for the balances of a list of addresses *)
Module BalanceSpec.

(** The free balance of an account, 0 for an account without info. *)
Definition freeOf (info : option AccountInfo.t) : Z :=
  match info with Some i => AccountInfo.free i | None => 0 end.

(** What is free and neither reserved nor frozen. *)
Definition availableOf (info : option AccountInfo.t) : Z :=
  match info with
  | Some i => AccountInfo.free i - AccountInfo.reserved i - AccountInfo.miscFrozen i
  | None => 0
  end.

(** A node that knows two accounts with reserved and frozen funds, and
    whose existential deposit cannot be read. *)
Definition frozenAccounts : NodeApi.t :=
  {| NodeApi.getAccountInfo := fun address =>
       Fulfilled
         (if String.eqb address "alice"
          then Some {| AccountInfo.free := 1200; AccountInfo.reserved := 100;
                       AccountInfo.miscFrozen := 50; AccountInfo.feeFrozen := 0 |}
          else if String.eqb address "bob"
          then Some {| AccountInfo.free := 34; AccountInfo.reserved := 0;
                       AccountInfo.miscFrozen := 4; AccountInfo.feeFrozen := 0 |}
          else None);
     NodeApi.getExistentialDeposit := Rejected (NetworkError "connection reset");
     NodeApi.getActiveEraInfo := Fulfilled None;
     NodeApi.getNominations := fun _ => Fulfilled None;
     NodeApi.getValidatorExposure := fun _ _ => Fulfilled None;
     NodeApi.getValidatorReward := fun _ => Fulfilled None;
     NodeApi.getRewardPoints := fun _ => Fulfilled None;
     NodeApi.getValidatorPrefs := fun _ _ => Fulfilled None;
     NodeApi.getStakersClipped := fun _ _ => Fulfilled None;
     NodeApi.getExpectedEraDuration := Fulfilled None;
     NodeApi.getElectionStatus := Fulfilled None |}.

End BalanceSpec.

(** ** Vocabulary and samples for the prepared transactions *)
Module TransactionSpec.

(** The values that the transactions of a list carry, in order. *)
Definition configValues (configs : list SubstrateTransactionConfig) : list Z :=
  flat_map (fun config =>
              match TransactionArgs.value (configArgs config) with
              | Some v => [v]
              | None => []
              end) configs.

(** A transaction controller that encodes a list of transactions as the
    text of the values they carry. *)
Definition encodeValues (_ : SubstrateAddress) (_ : Z)
  (configs : list SubstrateTransactionConfig) : Promise string :=
  Fulfilled (String.concat "," (map BigNumber.digits (configValues configs))).

End TransactionSpec.

(* ================================================================== *)
(** * Part II: properties                                               *)
(* ================================================================== *)

(** ** Promises *)
Module AsyncFacts.

Lemma values_fulfilled {A : Type} (ps : list (Promise A)) (vs : list A) :
  Forall2 (fun p v => p = Fulfilled v) ps vs -> values ps = Fulfilled vs.
Proof.
  induction 1 as [|p v ps vs Hp _ IH]; simpl.
  - reflexivity.
  - subst p. rewrite IH. reflexivity.
Qed.

Lemma find_isRejected_none {A : Type} (ps : list (Promise A)) (vs : list A) :
  Forall2 (fun p v => p = Fulfilled v) ps vs -> find isRejected ps = None.
Proof.
  induction 1 as [|p v ps vs Hp _ IH]; simpl.
  - reflexivity.
  - subst p. simpl. exact IH.
Qed.

(** [Promise.all] of promises that are all fulfilled. *)
Lemma all_fulfilled {A : Type} (ps : list (Promise A)) (vs : list A) :
  Forall2 (fun p v => p = Fulfilled v) ps vs -> all ps = Fulfilled vs.
Proof.
  intros H. unfold all. rewrite (find_isRejected_none ps vs H).
  apply values_fulfilled. exact H.
Qed.

Lemma values_inv {A : Type} (ps : list (Promise A)) :
  forall vs, values ps = Fulfilled vs -> Forall2 (fun p v => p = Fulfilled v) ps vs.
Proof.
  induction ps as [|p ps IH]; simpl; intros vs H.
  - injection H as <-. constructor.
  - destruct p as [a| |]; try discriminate.
    destruct (values ps) as [ws| |] eqn:E; simpl in H; try discriminate.
    injection H as <-. constructor; [reflexivity | apply IH; reflexivity].
Qed.

(** A fulfilled [Promise.all] fulfils every member, in order. *)
Lemma all_inv {A : Type} (ps : list (Promise A)) (vs : list A) :
  all ps = Fulfilled vs -> Forall2 (fun p v => p = Fulfilled v) ps vs.
Proof.
  unfold all. intros H.
  destruct (find isRejected ps) as [[a|e|]|] eqn:E;
    try discriminate; apply values_inv; exact H.
Qed.

Lemma all_map_fulfilled {A B : Type} (f : A -> Promise B) (xs : list A) (vs : list B) :
  Forall2 (fun x v => f x = Fulfilled v) xs vs -> all (map f xs) = Fulfilled vs.
Proof.
  intros H. apply all_fulfilled.
  induction H; simpl; constructor; assumption.
Qed.

Lemma all_map_inv {A B : Type} (f : A -> Promise B) (xs : list A) (vs : list B) :
  all (map f xs) = Fulfilled vs -> Forall2 (fun x v => f x = Fulfilled v) xs vs.
Proof.
  intros H. apply all_inv in H. revert vs H.
  induction xs as [|x xs IH]; simpl; intros vs H; inversion H; subst; constructor.
  - assumption.
  - apply IH. assumption.
Qed.

Lemma all2_inv {A B : Type} (p : Promise A) (q : Promise B) (r : A * B) :
  all2 p q = Fulfilled r -> p = Fulfilled (fst r) /\ q = Fulfilled (snd r).
Proof.
  destruct p, q; simpl; intros H; try discriminate.
  injection H as <-. split; reflexivity.
Qed.

End AsyncFacts.

(** ** utils/array.ts *)
Module ArrayUtilsFacts.
Import ArrayUtils.

(** [length array] iterations are enough for the loop of [chunkedArray]
    when [chunkSize >= 1]: further iterations change nothing. *)
Lemma chunkLoop_steps {T : Type} (array : list T) (chunkSize : nat) inverse :
  (1 <= chunkSize)%nat ->
  forall steps extra i chunks,
    (List.length array <= i + steps)%nat ->
    chunkLoop (steps + extra) array chunkSize inverse i chunks =
    chunkLoop steps array chunkSize inverse i chunks.
Proof.
  intros Hsize. induction steps as [|steps IH]; intros extra i chunks Hlen.
  - simpl. destruct extra as [|extra]; simpl; [reflexivity|].
    destruct (Nat.ltb_spec i (List.length array)); [lia | reflexivity].
  - simpl. destruct (Nat.ltb_spec i (List.length array)); [|reflexivity].
    apply IH. lia.
Qed.

Example chunkedArray_by_three :
  chunkedArray [1; 2; 3; 4; 5; 6; 7] 3 = Fulfilled [Some [1; 2; 3]; Some [4; 5; 6]; Some [7]]
  /\ flattenArray [Some [1; 2; 3]; Some [4; 5; 6]; Some [7]] = [1; 2; 3; 4; 5; 6; 7].
Proof. split; vm_compute; reflexivity. Qed.

(** The number the loop computes for the second chunk of size 49:
    [49 * (1 / 49)] is [1 - 2^-53], whose floor is 0. *)
Example forty_nine_times_its_inverse :
  Number.mul (Number.ofZ 49) (Number.div (Number.ofZ 1) (Number.ofZ 49))
  = SpecFloat.S754_finite false 9007199254740991 (-53)
  /\ Number.floor (Number.mul (Number.ofZ 49) (Number.div (Number.ofZ 1) (Number.ofZ 49)))
     = Some 0.
Proof. split; vm_compute; reflexivity. Qed.

(** C8. Splitting an array into chunks and flattening the chunks should
    give the array back for every chunk size of at least 1. It does not:
    for the 50 elements 0..49 and chunk size 49 the second chunk is written
    over the first one, the second slot stays a hole, and flattening yields
    the single element 49. *)
Theorem chunkedArray_flatten_loses_elements :
  let array := map Z.of_nat (seq 0 50) in
  chunkedArray array 49 = Fulfilled [Some [49]; None]
  /\ then_ (chunkedArray array 49) flattenArray = Fulfilled [49]
  /\ [49] <> array.
Proof.
  cbv zeta. split; [|split].
  - vm_compute. reflexivity.
  - vm_compute. reflexivity.
  - vm_compute. discriminate.
Qed.

End ArrayUtilsFacts.

(** ** Balances *)
Module BalanceFacts.
Import NodeApi SubstrateAccountController Samples.

(** C2. When the account info is obtainable (and the existential deposit
    too, when it is requested), the transferable balance is
    free - reserved - locked - (existentialDeposit if it is excluded),
    where locked is miscFrozen when fees are ignored and feeFrozen
    otherwise; the difference is returned as it is, negative or not. *)
Theorem getTransferableBalance_formula :
  forall (nodeClient : NodeApi.t) (accountId : SubstrateAddress)
         (excludeExistentialDeposit ignoreFees : bool)
         (info : AccountInfo.t) (existentialDeposit : Z),
    getAccountInfo nodeClient accountId = Fulfilled (Some info) ->
    (excludeExistentialDeposit = true ->
     getExistentialDeposit nodeClient = Fulfilled existentialDeposit) ->
    getTransferableBalance nodeClient accountId excludeExistentialDeposit ignoreFees
    = Fulfilled (AccountInfo.free info - AccountInfo.reserved info
                 - (if ignoreFees then AccountInfo.miscFrozen info
                    else AccountInfo.feeFrozen info)
                 - (if excludeExistentialDeposit then existentialDeposit else 0)).
Proof.
  intros nodeClient accountId exclude ignoreFees info ed Hinfo Hed.
  unfold getTransferableBalance. rewrite Hinfo.
  destruct exclude.
  - rewrite (Hed eq_refl). reflexivity.
  - reflexivity.
Qed.

(** The example of the specification: 1000 free, nothing reserved or
    frozen, existential deposit 1, excluded: 999. *)
Lemma getTransferableBalance_formula_witness :
  getTransferableBalance
    (nodeWith (Some {| AccountInfo.free := 1000; AccountInfo.reserved := 0;
                       AccountInfo.miscFrozen := 0; AccountInfo.feeFrozen := 0 |})
              (Fulfilled 1))
    "5ABC" true true
  = Fulfilled 999.
Proof.
  exact (getTransferableBalance_formula
           (nodeWith (Some {| AccountInfo.free := 1000; AccountInfo.reserved := 0;
                              AccountInfo.miscFrozen := 0; AccountInfo.feeFrozen := 0 |})
                     (Fulfilled 1))
           "5ABC" true true _ 1 eq_refl (fun _ => eq_refl)).
Defined.

(** An overdrawn account: the negative difference is passed through. *)
Example getTransferableBalance_negative :
  getTransferableBalance
    (nodeWith (Some {| AccountInfo.free := 10; AccountInfo.reserved := 4;
                       AccountInfo.miscFrozen := 3; AccountInfo.feeFrozen := 9 |})
              (Fulfilled 5))
    "5ABC" true false
  = Fulfilled (-8).
Proof. reflexivity. Qed.

(** C9. For an account without account info the transferable balance is 0
    whatever the two flags are: the call yields 0 as soon as the queries it
    awaits are answered, and it never yields another amount. *)
Theorem getTransferableBalance_absent_account :
  forall (nodeClient : NodeApi.t) (accountId : SubstrateAddress)
         (excludeExistentialDeposit ignoreFees : bool),
    getAccountInfo nodeClient accountId = Fulfilled None ->
    ((excludeExistentialDeposit = false
      \/ exists existentialDeposit,
           getExistentialDeposit nodeClient = Fulfilled existentialDeposit) ->
     getTransferableBalance nodeClient accountId excludeExistentialDeposit ignoreFees
     = Fulfilled 0)
    /\ (forall amount,
          getTransferableBalance nodeClient accountId excludeExistentialDeposit ignoreFees
          = Fulfilled amount -> amount = 0).
Proof.
  intros nodeClient accountId exclude ignoreFees Hinfo.
  unfold getTransferableBalance. rewrite Hinfo. split.
  - intros [-> | [ed Hed]].
    + reflexivity.
    + destruct exclude; [rewrite Hed|]; reflexivity.
  - intros amount. destruct exclude.
    + destruct (getExistentialDeposit nodeClient); simpl; intros H;
        try discriminate. injection H as <-. reflexivity.
    + simpl. intros H. injection H as <-. reflexivity.
Qed.

Lemma getTransferableBalance_absent_account_witness :
  getTransferableBalance (nodeWith None (Fulfilled 1)) "5ABC" true true = Fulfilled 0
  /\ getTransferableBalance (nodeWith None (Fulfilled 1)) "5ABC" true false = Fulfilled 0
  /\ getTransferableBalance (nodeWith None (Fulfilled 1)) "5ABC" false true = Fulfilled 0
  /\ getTransferableBalance (nodeWith None (Fulfilled 1)) "5ABC" false false = Fulfilled 0.
Proof.
  pose proof (fun exclude ignoreFees =>
                proj1 (getTransferableBalance_absent_account
                         (nodeWith None (Fulfilled 1)) "5ABC" exclude ignoreFees eq_refl))
    as H.
  split; [|split; [|split]].
  - apply H. right. exists 1. reflexivity.
  - apply H. right. exists 1. reflexivity.
  - apply H. left. reflexivity.
  - apply H. left. reflexivity.
Defined.

End BalanceFacts.

(** ** Balance of a list of addresses *)
Module ProtocolFacts.
Import NodeApi AsyncFacts Spec Samples.

Lemma fold_left_add (balances : list Z) (start : Z) :
  fold_left Z.add balances start = start + total balances.
Proof.
  revert start. induction balances as [|b balances IH]; intros start; simpl.
  - lia.
  - rewrite IH. unfold total. simpl. lia.
Qed.

(** [reduce] without an initial value sums a non-empty array. *)
Lemma reduce1_sum (balances : list Z) :
  balances <> [] -> JsArray.reduce1 Z.add balances = Fulfilled (total balances).
Proof.
  destruct balances as [|b balances]; [congruence|].
  intros _. simpl. rewrite fold_left_add. reflexivity.
Qed.

Lemma Forall2_nonempty {A B : Type} (R : A -> B -> Prop) (xs : list A) (ys : list B) :
  Forall2 R xs ys -> xs <> [] -> ys <> [].
Proof. destruct 1; congruence. Qed.

(** C10. [getBalanceOfAddresses] needs a non-empty list. For the empty
    list the call fails with the error of a [reduce] without initial value
    instead of returning "0"; for a non-empty list whose balances are all
    obtainable it returns the decimal text of their sum. This holds for
    the Substrate protocol and for the older Polkadot protocol. *)
Theorem getBalanceOfAddresses_needs_addresses :
  forall (nodeClient : NodeApi.t),
    SubstrateProtocol.getBalanceOfAddresses nodeClient []
    = Rejected (TypeError "Reduce of empty array with no initial value")
    /\ PolkadotProtocol.getBalanceOfAddresses (getAccountInfo nodeClient) []
       = Rejected (TypeError "Reduce of empty array with no initial value")
    /\ forall (addresses : list string) (balances : list Z),
         addresses <> [] ->
         Forall2 (fun address balance =>
                    SubstrateAccountController.getBalance nodeClient address
                    = Fulfilled balance) addresses balances ->
         SubstrateProtocol.getBalanceOfAddresses nodeClient addresses
         = Fulfilled (BigNumber.digits (total balances))
         /\ PolkadotProtocol.getBalanceOfAddresses (getAccountInfo nodeClient) addresses
            = Fulfilled (BigNumber.digits (total balances)).
Proof.
  intros nodeClient. split; [reflexivity | split; [reflexivity|]].
  intros addresses balances Hne Hall.
  unfold SubstrateProtocol.getBalanceOfAddresses, PolkadotProtocol.getBalanceOfAddresses.
  change (fun address => PolkadotProtocol.getBalance (getAccountInfo nodeClient) address)
    with (SubstrateAccountController.getBalance nodeClient).
  rewrite (all_map_fulfilled _ _ _ Hall). simpl.
  rewrite (reduce1_sum balances (Forall2_nonempty _ _ _ Hall Hne)).
  split; reflexivity.
Qed.

Lemma getBalanceOfAddresses_needs_addresses_witness :
  SubstrateProtocol.getBalanceOfAddresses twoAccounts ["alice"; "bob"; "carol"]
  = Fulfilled "1234"
  /\ PolkadotProtocol.getBalanceOfAddresses (getAccountInfo twoAccounts)
       ["alice"; "bob"; "carol"]
     = Fulfilled "1234".
Proof.
  apply (proj2 (proj2 (getBalanceOfAddresses_needs_addresses twoAccounts))
           ["alice"; "bob"; "carol"] [1200; 34; 0]).
  - discriminate.
  - repeat constructor.
Defined.

End ProtocolFacts.

(** ** Eligibility of delegation actions *)
Module EligibilityFacts.
Import NodeApi SubstrateAccountController Samples.

Lemma when_false (actions : list DelegatorAction) : when false actions = [].
Proof. reflexivity. Qed.

(** The list the rules build is empty when the election is not closed. *)
Lemma rules_with_open_election (a b c d e f g : bool)
  (l1 l2 l3 l4 l5 l6 l7 : list DelegatorAction) :
  when (a && false) l1 ++ when (b && false) l2 ++ when (c && false) l3
  ++ when (d && false) l4 ++ when (e && false) l5 ++ when (f && false) l6
  ++ when (g && false) l7 = [].
Proof. rewrite !andb_false_r. reflexivity. Qed.

(** C5. While the election of the era is open no delegation action is
    offered, whatever the bonded, nominating, unbonding, withdrawable and
    balance state is: the list is empty as soon as the existential deposit
    is obtained, and no other list is ever returned. *)
Theorem no_action_while_election_open :
  forall (ordinal : SubstrateStakingActionType -> Z) (nodeClient : NodeApi.t)
         (stakingDetails : option SubstrateStakingDetails)
         (nominations : option Nominations.t)
         (validatorIds : list SubstrateAddress) (maxDelegationValue : Z),
    getElectionStatus nodeClient = Fulfilled (Some OPEN) ->
    (forall existentialDeposit,
       getExistentialDeposit nodeClient = Fulfilled existentialDeposit ->
       getAvailableStakingActions ordinal nodeClient stakingDetails nominations
         validatorIds maxDelegationValue = Fulfilled [])
    /\ (forall actions,
          getAvailableStakingActions ordinal nodeClient stakingDetails nominations
            validatorIds maxDelegationValue = Fulfilled actions ->
          actions = []).
Proof.
  intros ordinal nodeClient stakingDetails nominations validatorIds maxValue Hopen.
  assert (Hgen : forall existentialDeposit,
             getExistentialDeposit nodeClient = Fulfilled existentialDeposit ->
             getAvailableStakingActions ordinal nodeClient stakingDetails nominations
               validatorIds maxValue = Fulfilled []).
  { intros ed Hed. unfold getAvailableStakingActions.
    rewrite Hed. simpl. rewrite Hopen. simpl.
    rewrite rules_with_open_election. reflexivity. }
  split; [exact Hgen|].
  intros actions Hactions.
  destruct (getExistentialDeposit nodeClient) as [ed| |] eqn:Hed.
  - rewrite (Hgen ed eq_refl) in Hactions. injection Hactions as <-. reflexivity.
  - unfold getAvailableStakingActions in Hactions. rewrite Hed in Hactions. discriminate.
  - unfold getAvailableStakingActions in Hactions. rewrite Hed in Hactions. discriminate.
Qed.

Lemma no_action_while_election_open_witness :
  getAvailableStakingActions declarationOrder (electionNode (Some OPEN))
    (Some busyDetails) (Some busyNominations) ["v3"] 1000 = Fulfilled [].
Proof.
  exact (proj1 (no_action_while_election_open declarationOrder (electionNode (Some OPEN))
                  (Some busyDetails) (Some busyNominations) ["v3"] 1000 eq_refl)
               1 eq_refl).
Defined.

(** The same account is offered actions once the election is closed. *)
Example actions_while_election_closed :
  getAvailableStakingActions declarationOrder (electionNode (Some CLOSED))
    (Some busyDetails) (Some busyNominations) ["v3"] 1000
  = Fulfilled [ {| type := CHANGE_NOMINATION; args := ["targets"] |};
                {| type := REBOND_EXTRA; args := ["value"] |};
                {| type := WITHDRAW_UNBONDED; args := [] |} ].
Proof. reflexivity. Qed.

End EligibilityFacts.

(** ** Reward arithmetic *)
Module RewardFacts.
Import BigNumber SubstrateAccountController Spec.
Local Open Scope Q_scope.

Lemma eqv_refl (x : t) : eqv x x.
Proof. destruct x; simpl; [apply Qeq_refl | reflexivity | exact I]. Qed.

Lemma eqv_trans (x y z : t) : eqv x y -> eqv y z -> eqv x z.
Proof.
  destruct x, y, z; simpl; try tauto; try congruence.
  apply Qeq_trans.
Qed.

Lemma scale_pos : (0 < scale)%Z.
Proof. reflexivity. Qed.

(** Rounding leaves an integer alone. *)
Lemma roundHalfUp_integer (x : Q) (n : Z) : x == inject_Z n -> roundHalfUp x = n.
Proof.
  destruct x as [a d]. unfold Qeq, roundHalfUp. cbn [Qnum Qden inject_Z]. intros H.
  assert (Ha : a = (n * Zpos d)%Z) by lia. clear H.
  assert (Hd : (0 < Zpos d)%Z) by lia.
  destruct (Z.leb_spec 0 a).
  - replace (2 * a + Zpos d)%Z with (n * (2 * Zpos d) + Zpos d)%Z by lia.
    rewrite Z.div_add_l by lia. rewrite Z.div_small by lia. lia.
  - replace (2 * - a + Zpos d)%Z with (- n * (2 * Zpos d) + Zpos d)%Z by lia.
    rewrite Z.div_add_l by lia. rewrite Z.div_small by lia. lia.
Qed.

(** Rounding moves a number by at most half a unit. *)
Lemma roundHalfUp_error (x : Q) : Qabs (inject_Z (roundHalfUp x) - x) <= 1 # 2.
Proof.
  destruct x as [a d]. apply Qabs_Qle_condition.
  unfold roundHalfUp, Qle, Qminus, Qplus, Qopp, inject_Z. cbn [Qnum Qden].
  assert (Hd : (0 < Zpos d)%Z) by lia.
  destruct (Z.leb_spec 0 a).
  - pose proof (Z.div_mod (2 * a + Zpos d) (2 * Zpos d) ltac:(lia)) as E.
    pose proof (Z.mod_pos_bound (2 * a + Zpos d) (2 * Zpos d) ltac:(lia)) as B.
    set (q := ((2 * a + Zpos d) / (2 * Zpos d))%Z) in *.
    set (r := ((2 * a + Zpos d) mod (2 * Zpos d))%Z) in *.
    split; nia.
  - pose proof (Z.div_mod (2 * - a + Zpos d) (2 * Zpos d) ltac:(lia)) as E.
    pose proof (Z.mod_pos_bound (2 * - a + Zpos d) (2 * Zpos d) ltac:(lia)) as B.
    set (q := ((2 * - a + Zpos d) / (2 * Zpos d))%Z) in *.
    set (r := ((2 * - a + Zpos d) mod (2 * Zpos d))%Z) in *.
    split; nia.
Qed.

Lemma roundDP_unfold (x : Q) :
  roundDP x == inject_Z (roundHalfUp (x * inject_Z scale)) / inject_Z scale.
Proof.
  unfold roundDP. fold scale. rewrite Qred_correct, Qmake_Qdiv.
  rewrite Z2Pos.id by exact scale_pos. reflexivity.
Qed.

(** A number with at most [DECIMAL_PLACES] decimals is not changed. *)
Lemma roundDP_exact (x : Q) (n : Z) : x * inject_Z scale == inject_Z n -> roundDP x == x.
Proof.
  intros H. rewrite roundDP_unfold, (roundHalfUp_integer _ n H), <- H.
  field. intros E. unfold Qeq in E. cbn [Qnum Qden inject_Z] in E.
  pose proof scale_pos. lia.
Qed.

(** A quotient of integers that terminates within [DECIMAL_PLACES]
    decimals is computed exactly. *)
Lemma roundDP_quotient (a b : Z) :
  b <> 0%Z -> (b | a * scale)%Z -> roundDP (inject_Z a / inject_Z b) == inject_Z a / inject_Z b.
Proof.
  intros Hb [n Hn]. apply (roundDP_exact _ n).
  assert (Hb' : ~ inject_Z b == 0).
  { intros E. unfold Qeq in E. simpl in E. lia. }
  apply (Qmult_inj_r _ _ (inject_Z b) Hb').
  transitivity (inject_Z (a * scale)).
  - rewrite inject_Z_mult. field. exact Hb'.
  - rewrite Hn, inject_Z_mult. reflexivity.
Qed.

(** The commission is a number of parts per billion: dividing it by 10^9
    is always exact. *)
Lemma commission_exact (c : Z) :
  roundDP (inject_Z c / inject_Z 1000000000) == inject_Z c / inject_Z 1000000000.
Proof.
  apply roundDP_quotient; [discriminate|].
  exists (c * 100000000000)%Z. unfold scale. simpl. lia.
Qed.

Lemma dividedBy_integers (a b : Z) :
  b <> 0%Z -> dividedBy (ofZ a) b = Fin (roundDP (inject_Z a / inject_Z b)).
Proof.
  intros Hb. unfold dividedBy, ofZ.
  destruct (Z.eqb_spec b 0); [contradiction | reflexivity].
Qed.

(** What [calculateValidatorReward] computes: the quotient of the points
    is rounded before it is multiplied by the payout. *)
Lemma calculateValidatorReward_value (R P p : Z) :
  P <> 0%Z ->
  eqv (calculateValidatorReward R P p)
      (Fin (roundDP (inject_Z p / inject_Z P) * inject_Z R)).
Proof.
  intros HP. unfold calculateValidatorReward.
  rewrite (dividedBy_integers p P HP).
  unfold multipliedBy, ofZ, eqv. apply Qred_correct.
Qed.

(** What [calculateNominatorReward] computes for a finite validator reward. *)
Lemma calculateNominatorReward_value (v : Q) (c S s : Z) :
  S <> 0%Z ->
  eqv (calculateNominatorReward (Fin v) c S s)
      (Fin ((1 - inject_Z c / inject_Z 1000000000) * v
            * roundDP (inject_Z s / inject_Z S))).
Proof.
  intros HS. unfold calculateNominatorReward.
  rewrite (dividedBy_integers s S HS).
  rewrite (dividedBy_integers c 1000000000) by discriminate.
  unfold minus, negated, plus, multipliedBy, ofZ, eqv.
  rewrite !Qred_correct, commission_exact.
  unfold Qminus. reflexivity.
Qed.

(** A division is off by at most half a unit of the last decimal kept. *)
Lemma roundDP_error (x : Q) : Qabs (roundDP x - x) <= (1 # 2) / inject_Z scale.
Proof.
  assert (Hs : 0 < inject_Z scale).
  { unfold Qlt. cbn [Qnum Qden inject_Z]. pose proof scale_pos. lia. }
  assert (Hs' : ~ inject_Z scale == 0).
  { intros E. rewrite E in Hs. discriminate. }
  setoid_replace (roundDP x - x)
    with ((inject_Z (roundHalfUp (x * inject_Z scale)) - x * inject_Z scale)
          / inject_Z scale).
  - unfold Qdiv. rewrite Qabs_Qmult.
    rewrite (Qabs_pos (/ inject_Z scale)).
    + apply Qmult_le_compat_r; [apply roundHalfUp_error|].
      apply Qlt_le_weak, Qinv_lt_0_compat, Hs.
    + apply Qlt_le_weak, Qinv_lt_0_compat, Hs.
  - rewrite roundDP_unfold. field. exact Hs'.
Qed.

(** C6, as the code has it. The validator reward is (p / P) * R and the
    nominator reward (1 - c / 10^9) * validatorReward * (s / S), where the
    two quotients p / P and s / S are rounded to 20 decimals (half up),
    as every BigNumber division is; c / 10^9 is exact. When both quotients
    have at most 20 decimals the rewards are the exact values of the two
    formulas. *)
Theorem rewards_with_rounded_quotients :
  forall R P p c S s : Z,
    P <> 0%Z -> S <> 0%Z ->
    let validatorReward := calculateValidatorReward R P p in
    let nominatorReward := calculateNominatorReward validatorReward c S s in
    eqv validatorReward (Fin (roundDP (inject_Z p / inject_Z P) * inject_Z R))
    /\ eqv nominatorReward
         (Fin ((1 - inject_Z c / inject_Z 1000000000)
               * (roundDP (inject_Z p / inject_Z P) * inject_Z R)
               * roundDP (inject_Z s / inject_Z S)))
    /\ ((P | p * scale)%Z ->
        eqv validatorReward (Fin (inject_Z p / inject_Z P * inject_Z R)))
    /\ ((P | p * scale)%Z -> (S | s * scale)%Z ->
        eqv nominatorReward
          (Fin ((1 - inject_Z c / inject_Z 1000000000)
                * (inject_Z p / inject_Z P * inject_Z R)
                * (inject_Z s / inject_Z S)))).
Proof.
  intros R P p c S s HP HS validatorReward nominatorReward.
  assert (Hv : validatorReward
               = Fin (Qred (roundDP (inject_Z p / inject_Z P) * inject_Z R))).
  { unfold validatorReward, calculateValidatorReward.
    rewrite (dividedBy_integers p P HP). reflexivity. }
  assert (Hn : eqv nominatorReward
                 (Fin ((1 - inject_Z c / inject_Z 1000000000)
                       * (roundDP (inject_Z p / inject_Z P) * inject_Z R)
                       * roundDP (inject_Z s / inject_Z S)))).
  { unfold nominatorReward. rewrite Hv.
    eapply eqv_trans; [apply calculateNominatorReward_value; exact HS|].
    unfold eqv. rewrite Qred_correct. reflexivity. }
  split; [|split; [|split]].
  - apply calculateValidatorReward_value. exact HP.
  - exact Hn.
  - intros Hp. rewrite Hv. unfold eqv.
    rewrite Qred_correct, (roundDP_quotient p P HP Hp). reflexivity.
  - intros Hp Hs. eapply eqv_trans; [exact Hn|]. unfold eqv.
    rewrite (roundDP_quotient p P HP Hp), (roundDP_quotient s S HS Hs). reflexivity.
Qed.

(** The example of the specification: payout 100, 250 of 1000 points,
    10% commission, 500 of 5000 staked: 2.25. *)
Lemma rewards_with_rounded_quotients_witness :
  eqv (calculateNominatorReward (calculateValidatorReward 100 1000 250) 100000000 5000 500)
      (Fin (9 # 4)).
Proof.
  eapply eqv_trans.
  - apply (rewards_with_rounded_quotients 100 1000 250 100000000 5000 500).
    + discriminate.
    + discriminate.
    + exists 25000000000000000000%Z. reflexivity.
    + exists 10000000000000000000%Z. reflexivity.
  - reflexivity.
Defined.

(** The value itself, as the code computes it. *)
Example nominator_reward_of_the_example :
  calculateNominatorReward (calculateValidatorReward 100 1000 250) 100000000 5000 500
  = Fin (9 # 4).
Proof. vm_compute. reflexivity. Qed.

(** C6, as stated, fails: with payout 3 and 1 of 3 points the validator
    reward is 0.99999999999999999999 and not (1 / 3) * 3 = 1. *)
Lemma validator_reward_of_a_third :
  calculateValidatorReward 3 3 1
  = Fin (99999999999999999999 # 100000000000000000000)
  /\ ~ eqv (calculateValidatorReward 3 3 1)
         (Fin (inject_Z 1 / inject_Z 3 * inject_Z 3)).
Proof.
  split.
  - vm_compute. reflexivity.
  - vm_compute. discriminate.
Qed.

End RewardFacts.

(** ** The metadata decoder *)
Module MetadataFacts.
Import Metadata Samples.

Lemma byte_of_value (b x : byte) (n : N) :
  Byte.to_N b = n -> Byte.of_N n = Some x -> b = x.
Proof.
  intros Hb Hx. pose proof (Byte.of_to_N b) as H.
  rewrite Hb, Hx in H. injection H as ->. reflexivity.
Qed.

Lemma byte_bounds (b : byte) : 0 <= Z.of_N (Byte.to_N b) <= 255.
Proof. pose proof (Byte.to_N_bounded b). lia. Qed.

(** Only the text "meta" reads as the magic number. *)
Lemma littleEndian_magic (a b c d : byte) :
  Scale.littleEndian [a; b; c; d] = MAGIC_NUMBER <-> [a; b; c; d] = magic.
Proof.
  split.
  - unfold Scale.littleEndian, MAGIC_NUMBER. cbn [fold_right]. intros H.
    pose proof (byte_bounds a). pose proof (byte_bounds b).
    pose proof (byte_bounds c). pose proof (byte_bounds d).
    assert (Ha : Byte.to_N a = 109%N) by lia.
    assert (Hb : Byte.to_N b = 101%N) by lia.
    assert (Hc : Byte.to_N c = 116%N) by lia.
    assert (Hd : Byte.to_N d = 97%N) by lia.
    rewrite (byte_of_value a x6d _ Ha eq_refl), (byte_of_value b x65 _ Hb eq_refl),
            (byte_of_value c x74 _ Hc eq_refl), (byte_of_value d x61 _ Hd eq_refl).
    reflexivity.
  - intros H. injection H as -> -> -> ->. reflexivity.
Qed.

Lemma version_value (v x : byte) (n : Z) :
  0 <= n -> Byte.of_N (Z.to_N n) = Some x -> v <> x ->
  (Scale.littleEndian [v] =? n) = false.
Proof.
  intros Hn Hx Hv. apply Z.eqb_neq. unfold Scale.littleEndian. cbn [fold_right].
  intros H. apply Hv. apply (byte_of_value v x (Z.to_N n)); [lia | exact Hx].
Qed.

Section Decode.
Variable SubstrateNetwork : Type.
Variable MetadataVersioned : Type.
Variable MetadataV11_decode MetadataV12_decode :
  SubstrateNetwork -> option Z -> list byte -> Promise MetadataVersioned.
Variable network : SubstrateNetwork.
Variable runtimeVersion : option Z.

Local Abbreviation decode' :=
  (decode SubstrateNetwork MetadataVersioned MetadataV11_decode MetadataV12_decode
     network runtimeVersion).

Lemma decode_short (raw : list byte) :
  (List.length raw < 4)%nat ->
  decode' raw = Rejected (DecodeError "unexpected end of input").
Proof.
  intros H. unfold decode, Scale.decodeNextInt.
  change (32 / 8)%nat with 4%nat.
  destruct (Nat.ltb_spec (List.length raw) 4); [reflexivity | lia].
Qed.

Lemma decode_wrong_magic (raw : list byte) :
  (4 <= List.length raw)%nat -> firstn 4 raw <> magic ->
  decode' raw
  = Rejected (InvalidValueError "Error while parsing metadata, invalid magic number").
Proof.
  intros Hlen Hmagic. unfold decode, Scale.decodeNextInt.
  change (32 / 8)%nat with 4%nat.
  destruct (Nat.ltb_spec (List.length raw) 4); [lia|].
  cbn [bind fst snd]. unfold assertMagicNumber.
  destruct raw as [|a [|b [|c [|d rest]]]]; simpl in Hlen; try lia.
  cbn [firstn] in *.
  destruct (Z.eqb_spec (Scale.littleEndian [a; b; c; d]) MAGIC_NUMBER) as [E|E].
  - apply littleEndian_magic in E. contradiction.
  - reflexivity.
Qed.

Lemma decode_no_version (raw : list byte) :
  firstn 4 raw = magic -> nth_error raw 4 = None ->
  decode' raw = Rejected (DecodeError "unexpected end of input").
Proof.
  intros Hmagic Hversion.
  destruct raw as [|a [|b [|c [|d rest]]]]; try discriminate.
  cbn [firstn] in Hmagic. injection Hmagic as -> -> -> ->.
  destruct rest as [|v rest]; [|discriminate].
  reflexivity.
Qed.

Lemma decode_unsupported_version (raw : list byte) (v : byte) :
  firstn 4 raw = magic -> nth_error raw 4 = Some v -> v <> x0b -> v <> x0c ->
  decode' raw
  = Rejected (UnsupportedError
      "Error while parsing metadata, metadata version [object Object] is not supported").
Proof.
  intros Hmagic Hversion H11 H12.
  destruct raw as [|a [|b [|c [|d rest]]]]; try discriminate.
  cbn [firstn] in Hmagic. injection Hmagic as -> -> -> ->.
  destruct rest as [|v' rest]; [discriminate|].
  cbn [nth_error] in Hversion. injection Hversion as ->.
  unfold decode, Scale.decodeNextInt.
  change (32 / 8)%nat with 4%nat. change (8 / 8)%nat with 1%nat.
  cbn [List.length Nat.ltb Nat.leb firstn skipn bind fst snd].
  change (assertMagicNumber (Scale.littleEndian [x6d; x65; x74; x61]))
    with (@Fulfilled unit tt).
  cbn [bind].
  rewrite (version_value v x0c 12 ltac:(lia) eq_refl H12),
          (version_value v x0b 11 ltac:(lia) eq_refl H11).
  reflexivity.
Qed.

End Decode.



(** Blobs of the two implemented versions reach their parser. *)
Example decode_supported_versions :
  decode unit (list byte) acceptAll acceptAll tt None [x6d; x65; x74; x61; x0b; x00]
  = Fulfilled {| versioned := [x6d; x65; x74; x61; x0b; x00] |}
  /\ decode unit (list byte) acceptAll acceptAll tt None [x6d; x65; x74; x61; x0c]
     = Fulfilled {| versioned := [x6d; x65; x74; x61; x0c] |}.
Proof. split; reflexivity. Qed.

End MetadataFacts.

(** ** Sorting *)
Module SortFacts.
Import JsArray Spec.

Section Sort.
Context {A : Type}.
Variable compare : A -> A -> Z.

Lemma insert_perm (x : A) (sorted : list A) :
  Permutation (insert compare x sorted) (x :: sorted).
Proof.
  induction sorted as [|y rest IH]; simpl.
  - apply Permutation_refl.
  - destruct (compare x y <=? 0).
    + apply Permutation_refl.
    + eapply perm_trans; [apply perm_skip, IH | apply perm_swap].
Qed.

(** [sort] rearranges the array. *)
Lemma sort_perm (array : list A) : Permutation (sort compare array) array.
Proof.
  induction array as [|x array IH]; simpl.
  - apply perm_nil.
  - eapply perm_trans; [apply insert_perm | apply perm_skip, IH].
Qed.

End Sort.

Section Sorted.
Context {A : Type}.
Variable compare : A -> A -> Z.
Hypothesis compare_total : forall x y, 0 < compare x y -> compare y x <= 0.
Hypothesis compare_trans :
  forall x y z, compare x y <= 0 -> compare y z <= 0 -> compare x z <= 0.

Lemma insert_sorted (x : A) (sorted : list A) :
  StronglySorted (notBehind compare) sorted ->
  StronglySorted (notBehind compare) (insert compare x sorted).
Proof.
  induction 1 as [|y rest Hrest IH Hy]; simpl.
  - constructor; constructor.
  - destruct (Z.leb_spec (compare x y) 0) as [Hxy|Hxy].
    + constructor; [constructor; assumption|].
      constructor; [exact Hxy|].
      rewrite Forall_forall in *. intros z Hz.
      apply (compare_trans x y z Hxy (Hy z Hz)).
    + constructor; [exact IH|].
      rewrite Forall_forall in *. intros z Hz.
      apply (Permutation_in _ (insert_perm compare x rest)) in Hz.
      destruct Hz as [<- | Hz].
      * apply compare_total. exact Hxy.
      * apply Hy. exact Hz.
Qed.

(** For a total and transitive comparison the result of [sort] is sorted. *)
Lemma sort_sorted (array : list A) :
  StronglySorted (notBehind compare) (sort compare array).
Proof.
  induction array as [|x array IH]; simpl.
  - constructor.
  - apply insert_sorted. exact IH.
Qed.

End Sorted.

End SortFacts.

(** ** Nomination status *)
Module NominationFacts.
Import NodeApi JsArray SortFacts SubstrateAccountController Spec Samples.

Lemma byStakeDescending_total (x y : SubstrateAddress * Z) :
  0 < byStakeDescending x y -> byStakeDescending y x <= 0.
Proof. unfold byStakeDescending. lia. Qed.

Lemma byStakeDescending_trans (x y z : SubstrateAddress * Z) :
  byStakeDescending x y <= 0 -> byStakeDescending y z <= 0 -> byStakeDescending x z <= 0.
Proof. unfold byStakeDescending. lia. Qed.

Lemma greaterStakes_perm (stake : Z) (l l' : list (SubstrateAddress * Z)) :
  Permutation l l' -> greaterStakes stake l = greaterStakes stake l'.
Proof.
  intros H. unfold greaterStakes. apply Permutation_length.
  induction H; simpl.
  - constructor.
  - destruct (stake <? snd x); [apply perm_skip|]; assumption.
  - destruct (stake <? snd x), (stake <? snd y);
      try apply perm_swap; apply Permutation_refl.
  - eapply perm_trans; eassumption.
Qed.

Lemma greaterStakes_none (stake : Z) (l : list (SubstrateAddress * Z)) :
  Forall (fun element => snd element <= stake) l -> greaterStakes stake l = 0%nat.
Proof.
  unfold greaterStakes. induction 1 as [|x l Hx _ IH]; simpl.
  - reflexivity.
  - destruct (Z.ltb_spec stake (snd x)); [lia | exact IH].
Qed.

(** In an exposure sorted by stake, with distinct accounts and distinct
    stakes, the index of an account is the number of greater stakes. *)
Lemma index_in_sorted (nominator : SubstrateAddress) (stake : Z) :
  forall (sorted : list (SubstrateAddress * Z)) (i : Z),
    StronglySorted (notBehind byStakeDescending) sorted ->
    NoDup (map fst sorted) -> NoDup (map snd sorted) ->
    In (nominator, stake) sorted ->
    findIndexFrom (String.eqb nominator) (map fst sorted) i
    = i + Z.of_nat (greaterStakes stake sorted).
Proof.
  induction sorted as [|[account value] rest IH]; intros i Hsorted Haccounts Hstakes Hin.
  - contradiction.
  - inversion Hsorted as [|? ? Hrest Hhead]; subst.
    inversion Haccounts as [|? ? Hfresh Haccounts']; subst.
    inversion Hstakes as [|? ? Hfresh' Hstakes']; subst.
    cbn [map fst findIndexFrom].
    destruct (String.eqb_spec nominator account) as [->|Hother].
    + assert (value = stake) as ->.
      { destruct Hin as [H|H]; [congruence|].
        exfalso. apply Hfresh. apply (in_map fst) in H. exact H. }
      unfold greaterStakes. cbn [filter snd]. rewrite Z.ltb_irrefl.
      fold (greaterStakes stake rest). rewrite greaterStakes_none; [lia|].
      rewrite Forall_forall in *. intros z Hz. specialize (Hhead z Hz).
      unfold notBehind, byStakeDescending in Hhead. simpl in Hhead. lia.
    + destruct Hin as [H|Hin]; [congruence|].
      rewrite (IH (i + 1) Hrest Haccounts' Hstakes' Hin).
      assert (Hle : stake <= value).
      { rewrite Forall_forall in Hhead. specialize (Hhead _ Hin).
        unfold notBehind, byStakeDescending in Hhead. simpl in Hhead. lia. }
      assert (Hne : stake <> value).
      { intros <-. apply Hfresh'. apply (in_map snd) in Hin. exact Hin. }
      unfold greaterStakes. cbn [filter snd].
      destruct (Z.ltb_spec stake value); [|lia].
      cbn [List.length]. lia.
Qed.

(** The position [getNominationStatus] computes for a nominator. *)
Lemma position_is_greaterStakes (nominator : SubstrateAddress) (stake : Z)
  (elements : list (SubstrateAddress * Z)) :
  NoDup (map fst elements) -> NoDup (map snd elements) ->
  In (nominator, stake) elements ->
  indexOf (map fst (sort byStakeDescending elements)) nominator
  = Z.of_nat (greaterStakes stake elements).
Proof.
  intros Haccounts Hstakes Hin.
  pose proof (sort_perm byStakeDescending elements) as Hperm.
  unfold indexOf, findIndex.
  rewrite (index_in_sorted nominator stake).
  - rewrite (greaterStakes_perm stake _ _ Hperm). lia.
  - apply sort_sorted.
    + exact byStakeDescending_total.
    + exact byStakeDescending_trans.
  - apply (Permutation_NoDup (l := map fst elements)); [|exact Haccounts].
    apply Permutation_map, Permutation_sym, Hperm.
  - apply (Permutation_NoDup (l := map snd elements)); [|exact Hstakes].
    apply Permutation_map, Permutation_sym, Hperm.
  - apply (Permutation_in _ (Permutation_sym Hperm)). exact Hin.
Qed.

Lemma existsb_In_string (s : string) (l : list string) :
  In s l -> existsb (fun x => String.eqb x s) l = true.
Proof.
  intros H. apply existsb_exists. exists s. split; [exact H | apply String.eqb_refl].
Qed.

(** What the code answers for a nominator that is listed in the exposure
    of a validator it nominates: OVERSUBSCRIBED exactly when the exposure
    has more than 256 entries and more than 256 of them have a greater
    stake, that is from rank 258 on. *)
Lemma status_of_listed_nominator :
  forall (nodeClient : NodeApi.t) (nominator validator : SubstrateAddress) (era : Z)
         (nominations : Nominations.t) (exposure : Exposure.t) (stake : Z),
    getNominations nodeClient nominator = Fulfilled (Some nominations) ->
    In validator (Nominations.targets nominations) ->
    getValidatorExposure nodeClient era validator = Fulfilled (Some exposure) ->
    NoDup (map fst (Exposure.others exposure)) ->
    NoDup (map snd (Exposure.others exposure)) ->
    In (nominator, stake) (Exposure.others exposure) ->
    getNominationStatus nodeClient nominator validator (Some era)
    = Fulfilled (Some
        (if (256 <? Z.of_nat (List.length (Exposure.others exposure)))
            && (256 <? Z.of_nat (greaterStakes stake (Exposure.others exposure)))
         then OVERSUBSCRIBED else ACTIVE)).
Proof.
  intros nodeClient nominator validator era nominations exposure stake
         Hnom Htarget Hexposure Haccounts Hstakes Hin.
  unfold getNominationStatus. cbn [bind]. rewrite Hnom. cbn [bind].
  rewrite (existsb_In_string validator _ Htarget). cbn [negb].
  rewrite Hexposure. cbn [bind].
  assert (Hactive : existsb (fun element : string * Z =>
                               String.eqb (fst element) nominator)
                      (Exposure.others exposure) = true).
  { apply existsb_exists. exists (nominator, stake).
    split; [exact Hin | apply String.eqb_refl]. }
  cbv zeta. rewrite Hactive. cbn [negb].
  rewrite (position_is_greaterStakes nominator stake _ Haccounts Hstakes Hin).
  rewrite !Z.gtb_ltb.
  destruct (256 <? Z.of_nat (List.length (Exposure.others exposure)));
    [destruct (256 <? Z.of_nat (greaterStakes stake (Exposure.others exposure)))|];
    reflexivity.
Qed.

(** C1. A nominator ranked 257th by stake in an exposure of more than 256
    entries should be reported OVERSUBSCRIBED. The code reports ACTIVE for
    it: in every exposure with distinct accounts and stakes, the listed
    nominator with exactly 256 greater stakes gets ACTIVE. *)
Theorem rank_257_is_reported_active :
  forall (nodeClient : NodeApi.t) (nominator validator : SubstrateAddress) (era : Z)
         (nominations : Nominations.t) (exposure : Exposure.t) (stake : Z),
    getNominations nodeClient nominator = Fulfilled (Some nominations) ->
    In validator (Nominations.targets nominations) ->
    getValidatorExposure nodeClient era validator = Fulfilled (Some exposure) ->
    NoDup (map fst (Exposure.others exposure)) ->
    NoDup (map snd (Exposure.others exposure)) ->
    In (nominator, stake) (Exposure.others exposure) ->
    (256 < List.length (Exposure.others exposure))%nat ->
    greaterStakes stake (Exposure.others exposure) = 256%nat ->
    getNominationStatus nodeClient nominator validator (Some era)
    = Fulfilled (Some ACTIVE).
Proof.
  intros nodeClient nominator validator era nominations exposure stake
         Hnom Htarget Hexposure Haccounts Hstakes Hin Hlen Hrank.
  rewrite (status_of_listed_nominator nodeClient nominator validator era nominations
             exposure stake Hnom Htarget Hexposure Haccounts Hstakes Hin).
  rewrite Hrank. rewrite andb_false_r. reflexivity.
Qed.

Lemma distinct_NoDup {A : Type} (eqb : A -> A -> bool) :
  (forall x y, x = y -> eqb x y = true) ->
  forall l, distinct eqb l = true -> NoDup l.
Proof.
  intros Heqb. induction l as [|x rest IH]; simpl; intros H.
  - constructor.
  - apply andb_prop in H. destruct H as [Hx Hrest].
    constructor; [|apply IH; exact Hrest].
    intros Hin. apply negb_true_iff in Hx.
    assert (existsb (eqb x) rest = true).
    { apply existsb_exists. exists x. split; [exact Hin | apply Heqb; reflexivity]. }
    congruence.
Qed.

(** The nominator ranked 257th of 300 is reported ACTIVE. *)
Lemma rank_257_is_reported_active_witness :
  List.length (Exposure.others exposure300) = 300%nat
  /\ greaterStakes 44 (Exposure.others exposure300) = 256%nat
  /\ getNominationStatus node300 "n49" "validator" (Some 7) = Fulfilled (Some ACTIVE).
Proof.
  split; [vm_compute; reflexivity|].
  split; [vm_compute; reflexivity|].
  apply (rank_257_is_reported_active node300 "n49" "validator" 7
           {| Nominations.targets := ["validator"]; Nominations.submittedIn := 3 |}
           exposure300 44).
  - reflexivity.
  - left. reflexivity.
  - reflexivity.
  - apply (distinct_NoDup String.eqb).
    + intros x y ->. apply String.eqb_refl.
    + vm_compute. reflexivity.
  - apply (distinct_NoDup Z.eqb).
    + intros x y ->. apply Z.eqb_refl.
    + vm_compute. reflexivity.
  - apply (nth_error_In _ 49). vm_compute. reflexivity.
  - vm_compute. lia.
  - vm_compute. reflexivity.
Defined.

(** The other cases of the specification's example, and the first rank
    that the code does report as oversubscribed. *)
Example status_of_rank_100 :
  greaterStakes 201 (Exposure.others exposure300) = 99%nat
  /\ getNominationStatus node300 "n200" "validator" (Some 7) = Fulfilled (Some ACTIVE).
Proof. split; vm_compute; reflexivity. Qed.

Example status_of_absent_nominator :
  getNominationStatus node300 "n300" "validator" None = Fulfilled (Some INACTIVE).
Proof. vm_compute. reflexivity. Qed.

Example status_of_rank_258 :
  greaterStakes 43 (Exposure.others exposure300) = 257%nat
  /\ getNominationStatus node300 "n6" "validator" (Some 7)
     = Fulfilled (Some OVERSUBSCRIBED).
Proof. split; vm_compute; reflexivity. Qed.

End NominationFacts.

(** ** Initialisation of the node client *)
Module NodeClientFacts.
Import SubstrateNodeClient Samples.

Section Client.
Variable SubstrateNetwork : Type.
Variable MetadataVersioned : Type.
Variable MetadataV11_decode MetadataV12_decode :
  SubstrateNetwork -> option Z -> list byte -> Promise MetadataVersioned.
Variable MetadataDecorator : Type.
Variable decorate : MetadataVersioned -> MetadataDecorator.
Variable constant : MetadataDecorator -> string -> string -> option (list byte).

Local Abbreviation Client := (Client SubstrateNetwork MetadataDecorator).
Local Abbreviation initApiAt :=
  (initApiAt MetadataV11_decode MetadataV12_decode decorate constant).
Local Abbreviation initApi :=
  (initApi MetadataV11_decode MetadataV12_decode decorate constant).
Local Abbreviation getConstant :=
  (getConstant MetadataV11_decode MetadataV12_decode decorate constant).

(** Once [initApiPromise] is set, [initApi] hands it out and does nothing
    else. *)
Lemma initApiAt_stored (depth : nat) (node : Node) (c : Client) (p : Promise unit) :
  initApiPromise c = Some p -> initApiAt depth node c = (c, p).
Proof. intros H. destruct depth; simpl; rewrite H; reflexivity. Qed.

Lemma initCacheWith_stored (depth : nat) (node : Node) (c : Client) :
  initApiPromise c = Some (Fulfilled tt) ->
  initApiPromise (fst (initCacheWith constant (initApiAt depth node) c))
  = Some (Fulfilled tt)
  /\ requests (fst (initCacheWith constant (initApiAt depth node) c)) = requests c.
Proof.
  intros H. unfold initCacheWith, getConstantWith.
  rewrite (initApiAt_stored depth node c _ H). cbn [bind].
  destruct (metadata c) as [m|]; [destruct (constant m _ _)|]; simpl; auto.
Qed.

(** Every call of [initApi] leaves [initApiPromise] set. *)
Lemma initApiAt_sets_promise (depth : nat) (node : Node) (c : Client) :
  exists p, initApiPromise (fst (initApiAt (S depth) node c)) = Some p.
Proof.
  simpl.
  destruct (initApiPromise c) as [p|] eqn:Hc.
  - exists p. exact Hc.
  - destruct (all2 _ _) as [[metadataEncoded version]| |];
      [|eexists; reflexivity | eexists; reflexivity].
    destruct (Metadata.decode _ _ _ _ _ _ _) as [m| |];
      destruct version as [version|]; try (eexists; reflexivity).
    match goal with
    | |- context [initCacheWith constant _ ?c2] =>
        pose proof (initCacheWith_stored depth node c2 eq_refl) as [Hp _];
        destruct (initCacheWith constant (initApiAt depth node) c2) as [c3 [[]| |]]
    end; simpl in *; eexists; try reflexivity; exact Hp.
Qed.

Lemma initApi_sets_promise (node : Node) (c : Client) :
  exists p, initApiPromise (fst (initApi node c)) = Some p.
Proof. apply initApiAt_sets_promise. Qed.

(** C3. A failed initialisation should not be kept: the next call should
    fetch the metadata and the runtime version again. The code keeps it.
    After any call of [initApi] the promise is stored for good, and a later
    call returns the stored promise and leaves the client as it is, so no
    request is sent, whatever the node would answer by then. When the
    initialisation was rejected with [e], every later [getConstant] is
    rejected with [e]. *)
Theorem failed_initialisation_is_kept :
  forall (node later : Node) (c : Client),
    let c1 := fst (initApi node c) in
    (exists p, initApiPromise c1 = Some p /\ initApi later c1 = (c1, p))
    /\ (forall e, initApiPromise c1 = Some (Rejected e) ->
          forall moduleName constantName,
            getConstant later c1 moduleName constantName = (c1, Rejected e)).
Proof.
  intros node later c c1. split.
  - destruct (initApi_sets_promise node c) as [p Hp].
    exists p. split; [exact Hp|].
    apply initApiAt_stored. exact Hp.
  - intros e He moduleName constantName.
    unfold SubstrateNodeClient.getConstant, getConstantWith.
    unfold SubstrateNodeClient.initApi.
    rewrite (initApiAt_stored 2 later c1 _ He). reflexivity.
Qed.

End Client.

(** The runtime version could not be fetched at the first attempt. On the
    next call the node would answer, but it is not asked: the two requests
    of the first attempt remain the only ones and the call is rejected
    with the error of the first attempt. *)
Lemma failed_initialisation_is_kept_witness :
  initApiPromise afterFailure = Some (Rejected noRuntimeVersion)
  /\ requests afterFailure = ["state_getRuntimeVersion"; "state_getMetadata"]
  /\ getConstant acceptAll acceptAll id constants healthy afterFailure
       "Balances" "ExistentialDeposit"
     = (afterFailure, Rejected noRuntimeVersion).
Proof.
  split; [reflexivity|]. split; [reflexivity|].
  apply (proj2 (failed_initialisation_is_kept unit (list byte) acceptAll acceptAll
                  (list byte) id constants flaky healthy (create (list byte) tt))).
  reflexivity.
Defined.

(** Against a node that answers, the initialisation succeeds, and the same
    query is answered. *)
Example initialisation_succeeds :
  initApi acceptAll acceptAll id constants healthy (create (list byte) tt)
  = ({| network := tt; metadata := Some blob; runtimeVersion := Some 9000;
        initApiPromise := Some (Fulfilled tt); expirationTime := Some 2000;
        requests := ["state_getRuntimeVersion"; "state_getMetadata"] |},
     Fulfilled tt)
  /\ snd (getExistentialDeposit acceptAll acceptAll id constants healthy (create (list byte) tt))
     = Fulfilled 500.
Proof. split; vm_compute; reflexivity. Qed.

(** When the metadata request fails, the promise of the initialisation is
    never settled: this call and every later one wait for ever, and no
    request is sent again. *)
Example initialisation_never_settles :
  let c1 := fst (initApi acceptAll acceptAll id constants offline (create (list byte) tt)) in
  initApi acceptAll acceptAll id constants offline (create (list byte) tt) = (c1, Pending)
  /\ initApiPromise c1 = Some Pending
  /\ initApi acceptAll acceptAll id constants healthy c1 = (c1, Pending).
Proof. cbv zeta. repeat split. Qed.

End NodeClientFacts.

(** ** Nominator rewards *)
Module NominatorRewardFacts.
Import NodeApi AsyncFacts SubstrateAccountController Spec Samples.

Lemma in_present {A : Type} (a : A) (array : list (option A)) :
  In a (present array) <-> In (Some a) array.
Proof.
  unfold present. rewrite in_flat_map. split.
  - intros [[x|] [Hin Hx]]; simpl in Hx; [|contradiction].
    destruct Hx as [<-|[]]. exact Hin.
  - intros H. exists (Some a). split; [exact H | left; reflexivity].
Qed.

Lemma every_falsy (rewards : list BigNumber.t) :
  forallb (fun _ : BigNumber.t => false) rewards = true <-> rewards = [].
Proof. destruct rewards; simpl; split; congruence. Qed.

Lemma Forall2_In_l {A B : Type} (R : A -> B -> Prop) (xs : list A) (ys : list B) (x : A) :
  Forall2 R xs ys -> In x xs -> exists y, In y ys /\ R x y.
Proof.
  induction 1 as [|x' y' xs ys HR _ IH]; intros Hin; [contradiction|].
  destruct Hin as [->|Hin].
  - exists y'. split; [left; reflexivity | exact HR].
  - destruct (IH Hin) as [y [Hy HRy]]. exists y. split; [right|]; assumption.
Qed.

Lemma Forall2_In_r {A B : Type} (R : A -> B -> Prop) (xs : list A) (ys : list B) (y : B) :
  Forall2 R xs ys -> In y ys -> exists x, In x xs /\ R x y.
Proof.
  induction 1 as [|x' y' xs ys HR _ IH]; intros Hin; [contradiction|].
  destruct Hin as [->|Hin].
  - exists x'. split; [left; reflexivity | exact HR].
  - destruct (IH Hin) as [x [Hx HRx]]. exists x. split; [right|]; assumption.
Qed.

(** When one validator's entry yields a reward. *)
Lemma partialReward_some (accountId : SubstrateAddress) (reward : Z)
  (points : EraRewardPoints.t) (validator : SubstrateAddress)
  (commission : option Z) (exposure : option Exposure.t) :
  (exists r, partialReward accountId reward points (validator, commission, exposure) = Some r)
  <-> exists c e validatorPoints nominatorStake,
        commission = Some c /\ exposure = Some e
        /\ findValue validator (EraRewardPoints.individual points) = Some validatorPoints
        /\ findValue accountId (Exposure.others e) = Some nominatorStake.
Proof.
  unfold partialReward. split.
  - intros [r H].
    destruct commission as [c|]; [|discriminate].
    destruct exposure as [e|]; [|discriminate].
    destruct (findValue validator _) as [vp|] eqn:Hvp; [|discriminate].
    destruct (findValue accountId _) as [ns|] eqn:Hns; [|discriminate].
    exists c, e, vp, ns. repeat split; assumption.
  - intros (c & e & vp & ns & -> & -> & Hvp & Hns).
    rewrite Hvp, Hns. eexists. reflexivity.
Qed.

(** What the three queries of one validator yield. *)
Lemma validator_entry (nodeClient : NodeApi.t) (era : Z) (validator : SubstrateAddress)
  (entry : SubstrateAddress * option Z * option Exposure.t) :
  (prefs <- getValidatorPrefs nodeClient era validator ;;
   exposure <- getStakersClipped nodeClient era validator ;;
   Fulfilled (validator, option_map ValidatorPrefs.commission prefs, exposure))
  = Fulfilled entry ->
  exists prefs exposure,
    getValidatorPrefs nodeClient era validator = Fulfilled prefs
    /\ getStakersClipped nodeClient era validator = Fulfilled exposure
    /\ entry = (validator, option_map ValidatorPrefs.commission prefs, exposure).
Proof.
  destruct (getValidatorPrefs nodeClient era validator) as [prefs| |]; simpl;
    try discriminate.
  destruct (getStakersClipped nodeClient era validator) as [exposure| |]; simpl;
    try discriminate.
  intros H. injection H as <-. exists prefs, exposure. repeat split; reflexivity.
Qed.

(** [calculateEraNominatorReward] yields a reward for an era exactly when
    the data of the era is complete, and the reward is labelled with the
    era. *)
Lemma calculateEraNominatorReward_some (nodeClient : NodeApi.t)
  (accountId : SubstrateAddress) (validators : list SubstrateAddress) (era : Z)
  (result : option PartialRewardDetails) :
  calculateEraNominatorReward nodeClient accountId validators era = Fulfilled result ->
  ((exists partial, result = Some partial)
   <-> eraComplete nodeClient accountId validators era)
  /\ (forall partial, result = Some partial -> partialEraIndex partial = era).
Proof.
  unfold calculateEraNominatorReward.
  destruct (all2 _ _) as [results| |] eqn:Hall; cbn [bind]; try discriminate.
  apply all2_inv in Hall. destruct Hall as [Hreward Hrest].
  apply all2_inv in Hrest. destruct Hrest as [Hpoints Hentries].
  apply all_map_inv in Hentries.
  destruct results as [reward [points entries]]. cbn [fst snd] in *.
  assert (Hentry : forall points',
             (exists r, In (Some r) (map (partialReward accountId
                                            (match reward with Some x => x | None => 0 end)
                                            points') entries))
             <-> exists validator,
                   In validator validators
                   /\ validatorComplete nodeClient accountId era points' validator).
  { intros points'. split.
    - intros [r Hr]. apply in_map_iff in Hr. destruct Hr as [entry [Hr Hin]].
      destruct (Forall2_In_r _ _ _ _ Hentries Hin) as [validator [Hv Hq]].
      apply validator_entry in Hq. destruct Hq as (prefs & exposure & Hp & He & ->).
      destruct (proj1 (partialReward_some _ _ _ _ _ _) (ex_intro _ r Hr))
        as (c & e & vp & ns & Hc & -> & Hvp & Hns).
      destruct prefs as [prefs|]; [|discriminate].
      exists validator. split; [exact Hv|].
      exists prefs, e, vp, ns. repeat split; assumption.
    - intros (validator & Hv & prefs & e & vp & ns & Hp & He & Hvp & Hns).
      destruct (Forall2_In_l _ _ _ _ Hentries Hv) as [entry [Hin Hq]].
      apply validator_entry in Hq. destruct Hq as (prefs' & exposure' & Hp' & He' & ->).
      rewrite Hp in Hp'. injection Hp' as <-. rewrite He in He'. injection He' as <-.
      destruct (proj2 (partialReward_some accountId
                         (match reward with Some x => x | None => 0 end) points'
                         validator (Some (ValidatorPrefs.commission prefs)) (Some e)))
        as [r Hr].
      { exists (ValidatorPrefs.commission prefs), e, vp, ns. repeat split; assumption. }
      exists r. apply in_map_iff. eexists. split; [exact Hr | exact Hin]. }
  destruct reward as [reward|]; [destruct points as [points|]|].
  - specialize (Hentry points).
    destruct (forallb _ _) eqn:Hevery; intros H; injection H as <-.
    + apply every_falsy in Hevery. split; [|discriminate].
      split; [intros [partial H]; discriminate|].
      intros (reward' & points' & Hr' & Hp' & Hv).
      rewrite Hpoints in Hp'. injection Hp' as <-.
      apply Hentry in Hv. destruct Hv as [r Hr]. apply in_present in Hr.
      rewrite Hevery in Hr. contradiction.
    + split.
      * split; [|intros _; eexists; reflexivity].
        intros _. exists reward, points. repeat split; try assumption.
        apply Hentry.
        destruct (present _) as [|r rest] eqn:Hpresent; [discriminate|].
        exists r. apply in_present. rewrite Hpresent. left. reflexivity.
      * intros partial H. injection H as <-. reflexivity.
  - intros H. injection H as <-. split; [|discriminate].
    split; [intros [partial H]; discriminate|].
    intros (reward' & points' & _ & Hp' & _). rewrite Hpoints in Hp'. discriminate.
  - intros H. assert (result = None) as ->.
    { destruct points; injection H as <-; reflexivity. }
    split; [|discriminate].
    split; [intros [partial H']; discriminate|].
    intros (reward' & points' & Hr' & _). rewrite Hreward in Hr'. discriminate.
Qed.

Lemma all_map_total {A B : Type} (f : A -> Promise B) (xs : list A) :
  (forall x, exists v, f x = Fulfilled v) -> exists vs, all (map f xs) = Fulfilled vs.
Proof.
  intros Hf.
  assert (H : exists vs, Forall2 (fun x v => f x = Fulfilled v) xs vs).
  { induction xs as [|x xs [vs IH]].
    - exists []. constructor.
    - destruct (Hf x) as [v Hv]. exists (v :: vs). constructor; assumption. }
  destruct H as [vs H]. exists vs. apply all_map_fulfilled. exact H.
Qed.

Lemma calculateEraNominatorReward_total (nodeClient : NodeApi.t)
  (accountId : SubstrateAddress) (validators : list SubstrateAddress) (era : Z) :
  answers nodeClient ->
  exists result,
    calculateEraNominatorReward nodeClient accountId validators era = Fulfilled result.
Proof.
  intros Hnode. unfold calculateEraNominatorReward.
  destruct (Hnode era "") as ([reward Hreward] & [points Hpoints] & _).
  rewrite Hreward, Hpoints.
  destruct (all_map_total
              (fun validator =>
                 prefs <- getValidatorPrefs nodeClient era validator ;;
                 exposure <- getStakersClipped nodeClient era validator ;;
                 Fulfilled (validator, option_map ValidatorPrefs.commission prefs, exposure))
              validators) as [entries Hentries].
  { intros validator.
    destruct (Hnode era validator) as (_ & _ & [prefs Hprefs] & [exposure Hexposure]).
    rewrite Hprefs, Hexposure. eexists. reflexivity. }
  rewrite Hentries. cbn [all2 bind fst snd].
  destruct reward; [destruct points|]; try (eexists; reflexivity).
  destruct (forallb _ _); eexists; reflexivity.
Qed.

(** C4, as the code has it. A reward query of the account controller is
    answered when the node answers and the era duration is known, and its
    list has an entry for an era exactly when the era is among those asked
    for and its data is complete: the reward pool and the reward points
    are stored, and for at least one validator the preferences, a clipped
    exposure listing the account and reward points are stored. Validators
    with incomplete data are skipped; an era without pool, points or any
    complete validator has no entry. *)
Theorem rewards_list_complete_eras :
  forall (nodeClient : NodeApi.t) (accountId : SubstrateAddress)
         (validators : list SubstrateAddress) (activeEra : ActiveEraInfo.t)
         (eras : nat + list Z),
    (answers nodeClient ->
     (exists duration, getExpectedEraDuration nodeClient = Fulfilled (Some duration)) ->
     exists rewards,
       getNominatorRewards nodeClient accountId validators activeEra eras
       = Fulfilled rewards)
    /\ (forall rewards,
          getNominatorRewards nodeClient accountId validators activeEra eras
          = Fulfilled rewards ->
          forall era,
            In era (map eraIndex rewards)
            <-> In era (eraIndicesOf activeEra eras)
                /\ eraComplete nodeClient accountId validators era).
Proof.
  intros nodeClient accountId validators activeEra eras. split.
  - intros Hnode [duration Hduration]. unfold getNominatorRewards.
    rewrite Hduration. cbn [bind].
    destruct (all_map_total
                (fun era =>
                   then_ (calculateEraNominatorReward nodeClient accountId validators era)
                         (option_map (withTimestamp activeEra duration)))
                (eraIndicesOf activeEra eras)) as [results Hresults].
    { intros era.
      destruct (calculateEraNominatorReward_total nodeClient accountId validators era Hnode)
        as [result Hresult].
      rewrite Hresult. eexists. reflexivity. }
    rewrite Hresults. eexists. reflexivity.
  - intros rewards. unfold getNominatorRewards.
    destruct (getExpectedEraDuration nodeClient) as [[duration|]| |]; cbn [bind];
      try discriminate.
    destruct (all _) as [results| |] eqn:Hall; cbn [bind]; try discriminate.
    intros H. injection H as <-. apply all_map_inv in Hall.
    intros era. rewrite in_map_iff. split.
    + intros (r & Hera & Hr). apply in_present in Hr.
      destruct (Forall2_In_r _ _ _ _ Hall Hr) as (era' & Hin & Hcalc).
      destruct (calculateEraNominatorReward nodeClient accountId validators era')
        as [result| |] eqn:Hresult; try discriminate.
      destruct (calculateEraNominatorReward_some _ _ _ _ _ Hresult) as [Hsome Hlabel].
      destruct result as [partial|]; [|discriminate].
      simpl in Hcalc. injection Hcalc as <-.
      cbn [eraIndex withTimestamp] in Hera.
      rewrite (Hlabel partial eq_refl) in Hera. subst era'.
      split; [exact Hin|]. apply Hsome. exists partial. reflexivity.
    + intros [Hin Hcomplete].
      destruct (Forall2_In_l _ _ _ _ Hall Hin) as (r & Hr & Hcalc).
      destruct (calculateEraNominatorReward nodeClient accountId validators era)
        as [result| |] eqn:Hresult; try discriminate.
      destruct (calculateEraNominatorReward_some _ _ _ _ _ Hresult) as [Hsome Hlabel].
      apply Hsome in Hcomplete. destruct Hcomplete as [partial ->].
      simpl in Hcalc. injection Hcalc as <-.
      exists (withTimestamp activeEra duration partial). split.
      * cbn [eraIndex withTimestamp]. apply Hlabel. reflexivity.
      * apply in_present. exact Hr.
Qed.

(** C4, as stated, fails: the exposure of v2 is missing for era 5, and the
    list still has an entry for era 5, with the reward earned through v1. *)
Lemma entry_despite_missing_exposure :
  getStakersClipped rewardNode 5 "v2" = Fulfilled None
  /\ In 5 (eraIndicesOf era6 (inl 3%nat))
  /\ getNominatorRewards rewardNode "acct" ["v1"; "v2"] era6 (inl 3%nat)
     = Fulfilled [entryOfEra5]
  /\ In 5 (map eraIndex [entryOfEra5]).
Proof.
  split; [reflexivity|]. split; [left; reflexivity|].
  split; [vm_compute; reflexivity | left; reflexivity].
Qed.

Lemma rewardNode_answers : answers rewardNode.
Proof.
  intros era validator. repeat split; eexists; reflexivity.
Qed.

Lemma rewards_list_complete_eras_witness :
  (exists rewards,
     getNominatorRewards rewardNode "acct" ["v1"; "v2"] era6 (inl 3%nat)
     = Fulfilled rewards)
  /\ (In 5 (map eraIndex [entryOfEra5])
      <-> In 5 (eraIndicesOf era6 (inl 3%nat))
          /\ eraComplete rewardNode "acct" ["v1"; "v2"] 5)
  /\ (In 4 (map eraIndex [entryOfEra5])
      <-> In 4 (eraIndicesOf era6 (inl 3%nat))
          /\ eraComplete rewardNode "acct" ["v1"; "v2"] 4).
Proof.
  pose proof (rewards_list_complete_eras rewardNode "acct" ["v1"; "v2"] era6 (inl 3%nat))
    as [Htotal Hentries].
  split; [|split].
  - apply Htotal.
    + exact rewardNode_answers.
    + exists 86400000. reflexivity.
  - apply (Hentries [entryOfEra5]). vm_compute. reflexivity.
  - apply (Hentries [entryOfEra5]). vm_compute. reflexivity.
Defined.

(** Eras 4 and 3, whose data is incomplete for every validator, have no
    entry, not even one with amount zero. *)
Example incomplete_eras_have_no_entry :
  getNominatorRewards rewardNode "acct" ["v1"; "v2"] era6 (inr [4; 3]) = Fulfilled [].
Proof. vm_compute. reflexivity. Qed.

(** The older [getRewards] of the Polkadot node client takes a validator
    whose exposure is missing for a reward of zero and pushes the entry. *)
Example getRewards_pushes_zero_entry :
  PolkadotNodeClient.getRewards oldNode "acct" ["v2"] 6 1
  = Fulfilled [ {| PolkadotNodeClient.eraIndex := 5;
                   PolkadotNodeClient.amount := BigNumber.Fin 0;
                   PolkadotNodeClient.exposures := [];
                   PolkadotNodeClient.timestamp := 0;
                   PolkadotNodeClient.collected := false |} ].
Proof. vm_compute. reflexivity. Qed.

End NominatorRewardFacts.

(* ================================================================== *)
(** * Part III: further properties of the code                          *)
(* ================================================================== *)

(** ** Integers as JavaScript numbers *)
Module NumberFacts.
Import SpecFloat Number NumberSpec.

Lemma iter_pos_nat {A : Type} (f : A -> A) (p : positive) :
  forall x, iter_pos f p x = Nat.iter (Pos.to_nat p) f x.
Proof.
  induction p as [p IH|p IH|]; intros x; cbn [iter_pos].
  - rewrite !IH, Pos2Nat.inj_xI.
    replace (S (2 * Pos.to_nat p)) with (Pos.to_nat p + (Pos.to_nat p + 1))%nat by lia.
    rewrite !Nat.iter_add. simpl. reflexivity.
  - rewrite !IH, Pos2Nat.inj_xO.
    replace (2 * Pos.to_nat p)%nat with (Pos.to_nat p + Pos.to_nat p)%nat by lia.
    rewrite Nat.iter_add. reflexivity.
  - reflexivity.
Qed.

Lemma shr_1_nonneg (m : Z) (r s : bool) :
  0 <= m ->
  shr_1 {| shr_m := m; shr_r := r; shr_s := s |}
  = {| shr_m := m / 2; shr_r := Z.odd m; shr_s := r || s |}.
Proof.
  intros Hm. destruct m as [|p|p]; [reflexivity| |lia].
  destruct p as [p|p|]; cbn [shr_1 Z.odd].
  - f_equal. rewrite Pos2Z.inj_xI.
    apply (Z.div_unique _ _ _ 1); lia.
  - f_equal. rewrite Pos2Z.inj_xO.
    apply (Z.div_unique _ _ _ 0); lia.
  - reflexivity.
Qed.

(** [j] steps of [shr_1]: the quotient by [2^j], the last bit shifted out
    and whether a bit was shifted out before it. *)
Lemma shr_steps (z : Z) (j : nat) :
  0 <= z ->
  Nat.iter (S j) shr_1 {| shr_m := z; shr_r := false; shr_s := false |}
  = {| shr_m := z / 2 ^ Z.of_nat (S j);
       shr_r := Z.odd (z / 2 ^ Z.of_nat j);
       shr_s := negb (z mod 2 ^ Z.of_nat j =? 0) |}.
Proof.
  intros Hz. induction j as [|j IH].
  - cbn [Nat.iter]. rewrite shr_1_nonneg by exact Hz.
    change (2 ^ Z.of_nat 1) with 2. change (2 ^ Z.of_nat 0) with 1.
    rewrite Z.div_1_r, Z.mod_1_r. reflexivity.
  - change (Nat.iter (S (S j)) shr_1 ?x) with (shr_1 (Nat.iter (S j) shr_1 x)).
    rewrite IH.
    assert (Hpow : 0 < 2 ^ Z.of_nat j) by (apply Z.pow_pos_nonneg; lia).
    assert (Hpow' : 2 ^ Z.of_nat (S j) = 2 * 2 ^ Z.of_nat j).
    { rewrite Nat2Z.inj_succ, Z.pow_succ_r by lia. reflexivity. }
    assert (Hpow'' : 2 ^ Z.of_nat (S (S j)) = 2 ^ Z.of_nat (S j) * 2).
    { rewrite (Nat2Z.inj_succ (S j)), Z.pow_succ_r by lia. lia. }
    rewrite shr_1_nonneg by (apply Z.div_pos; lia).
    rewrite Hpow'', <- Z.div_div by lia.
    f_equal.
    (* the sticky bit *)
    rewrite Hpow'.
    pose proof (Z.div_mod z (2 ^ Z.of_nat j) ltac:(lia)) as Hdm.
    pose proof (Z.mod_pos_bound z (2 ^ Z.of_nat j) ltac:(lia)) as Hm.
    pose proof (Z.div_mod (z / 2 ^ Z.of_nat j) 2 ltac:(lia)) as Hdm2.
    pose proof (Z.mod_pos_bound (z / 2 ^ Z.of_nat j) 2 ltac:(lia)) as Hm2.
    assert (Hmod : z mod (2 * 2 ^ Z.of_nat j)
                   = z mod 2 ^ Z.of_nat j + 2 ^ Z.of_nat j * ((z / 2 ^ Z.of_nat j) mod 2)).
    { symmetry. apply (Z.mod_unique_pos _ _ ((z / 2 ^ Z.of_nat j) / 2)); nia. }
    rewrite Hmod. rewrite Zodd_mod.
    destruct (Z.eqb_spec ((z / 2 ^ Z.of_nat j) mod 2) 1) as [E|E].
    + rewrite E. cbn [orb]. symmetry. apply negb_true_iff, Z.eqb_neq. lia.
    + assert (E0 : (z / 2 ^ Z.of_nat j) mod 2 = 0) by lia.
      rewrite E0, Z.mul_0_r, Z.add_0_r. reflexivity.
Qed.

Lemma digits2_size (p : positive) : digits2_pos p = Pos.size p.
Proof. induction p; simpl; congruence. Qed.

Lemma digits2_log2 (p : positive) : Zpos (digits2_pos p) = Z.log2 (Zpos p) + 1.
Proof. rewrite digits2_size. destruct p; simpl; try reflexivity; lia. Qed.

Lemma Zdigits2_log2 (z : Z) : 0 < z -> Zdigits2 z = Z.log2 z + 1.
Proof. destruct z as [|p|p]; try lia. intros _. apply digits2_log2. Qed.

(** The first step of a rounding: the bits beyond the 53rd are shifted
    out. *)
Lemma shr_fexp_spec (z e : Z) :
  0 < z -> -1021 <= Z.log2 z + 1 + e ->
  let k := Z.log2 z + 1 - 53 in
  shr_fexp prec emax z e loc_Exact
  = if k <=? 0 then ({| shr_m := z; shr_r := false; shr_s := false |}, e)
    else ({| shr_m := z / 2 ^ k;
             shr_r := Z.odd (z / 2 ^ (k - 1));
             shr_s := negb (z mod 2 ^ (k - 1) =? 0) |}, e + k).
Proof.
  intros Hz He k. unfold shr_fexp. rewrite Zdigits2_log2 by exact Hz.
  assert (Hfexp : fexp prec emax (Z.log2 z + 1 + e) - e = k).
  { unfold fexp, emin, prec, emax, k. lia. }
  rewrite Hfexp. cbn [shr_record_of_loc]. unfold shr.
  destruct (Z.leb_spec k 0) as [Hk|Hk].
  - destruct k; try reflexivity. lia.
  - destruct k as [|kp|kp] eqn:Ek; try lia.
    rewrite iter_pos_nat.
    destruct (Pos2Nat.is_succ kp) as [j Hj]. rewrite Hj.
    rewrite shr_steps by lia.
    assert (Z.of_nat (S j) = Zpos kp) as -> by lia.
    assert (Z.of_nat j = Zpos kp - 1) as -> by lia.
    reflexivity.
Qed.

(** Whether a rounding at [k] bits goes up. *)
Lemma round_nearest_even_spec (z k : Z) :
  0 <= z -> 0 < k ->
  round_nearest_even (z / 2 ^ k)
    (loc_of_shr_record {| shr_m := z / 2 ^ k;
                          shr_r := Z.odd (z / 2 ^ (k - 1));
                          shr_s := negb (z mod 2 ^ (k - 1) =? 0) |})
  = if (2 ^ k <? 2 * (z mod 2 ^ k)) || ((2 ^ k =? 2 * (z mod 2 ^ k)) && Z.odd (z / 2 ^ k))
    then z / 2 ^ k + 1 else z / 2 ^ k.
Proof.
  intros Hz Hk.
  assert (Hpow : 0 < 2 ^ (k - 1)) by (apply Z.pow_pos_nonneg; lia).
  assert (Hpow' : 2 ^ k = 2 * 2 ^ (k - 1)).
  { replace k with (Z.succ (k - 1)) at 1 by lia. rewrite Z.pow_succ_r by lia. reflexivity. }
  pose proof (Z.div_mod z (2 ^ (k - 1)) ltac:(lia)) as Hdm.
  pose proof (Z.mod_pos_bound z (2 ^ (k - 1)) ltac:(lia)) as Hm.
  pose proof (Z.div_mod (z / 2 ^ (k - 1)) 2 ltac:(lia)) as Hdm2.
  pose proof (Z.mod_pos_bound (z / 2 ^ (k - 1)) 2 ltac:(lia)) as Hm2.
  assert (Hmod : z mod 2 ^ k
                 = z mod 2 ^ (k - 1) + 2 ^ (k - 1) * ((z / 2 ^ (k - 1)) mod 2)).
  { rewrite Hpow'. symmetry.
    apply (Z.mod_unique_pos _ _ ((z / 2 ^ (k - 1)) / 2)); nia. }
  rewrite Hmod, Hpow'. rewrite (Zodd_mod (z / 2 ^ (k - 1))).
  cbn [loc_of_shr_record].
  destruct (Z.eqb_spec ((z / 2 ^ (k - 1)) mod 2) 1) as [E|E].
  - rewrite E.
    destruct (Z.eqb_spec (z mod 2 ^ (k - 1)) 0) as [E0|E0]; cbn [negb round_nearest_even].
    + rewrite E0.
      destruct (Z.ltb_spec (2 * 2 ^ (k - 1)) (2 * (0 + 2 ^ (k - 1) * 1))); [lia|].
      destruct (Z.eqb_spec (2 * 2 ^ (k - 1)) (2 * (0 + 2 ^ (k - 1) * 1))); [|lia].
      cbn [orb andb]. rewrite <- Z.negb_even.
      destruct (Z.even (z / (2 * 2 ^ (k - 1)))); reflexivity.
    + destruct (Z.ltb_spec (2 * 2 ^ (k - 1))
                  (2 * (z mod 2 ^ (k - 1) + 2 ^ (k - 1) * 1))); [reflexivity|lia].
  - assert (E0 : (z / 2 ^ (k - 1)) mod 2 = 0) by lia.
    rewrite E0.
    destruct (Z.ltb_spec (2 * 2 ^ (k - 1))
                (2 * (z mod 2 ^ (k - 1) + 2 ^ (k - 1) * 0))); [lia|].
    destruct (Z.eqb_spec (2 * 2 ^ (k - 1))
                (2 * (z mod 2 ^ (k - 1) + 2 ^ (k - 1) * 0))); [lia|].
    cbn [orb andb].
    destruct (negb (z mod 2 ^ (k - 1) =? 0)); reflexivity.
Qed.

Lemma log2_bounds (z : Z) : 0 < z -> 2 ^ Z.log2 z <= z < 2 * 2 ^ Z.log2 z.
Proof.
  intros Hz. pose proof (Z.log2_spec z Hz) as H.
  rewrite Z.pow_succ_r in H by apply Z.log2_nonneg. exact H.
Qed.

(** The mantissa that is left of a positive integer with at least 53 bits. *)
Lemma mantissa_bounds (z : Z) :
  0 < z -> 0 <= Z.log2 z + 1 - 53 ->
  let k := Z.log2 z + 1 - 53 in
  2 ^ 52 <= z / 2 ^ k < 2 ^ 53.
Proof.
  intros Hz Hk k. pose proof (log2_bounds z Hz) as Hlog.
  assert (Hsplit : Z.log2 z = 52 + k) by (unfold k; lia).
  rewrite Hsplit, Z.pow_add_r in Hlog by lia.
  assert (Hpow : 0 < 2 ^ k) by (apply Z.pow_pos_nonneg; lia).
  split.
  - apply Z.div_le_lower_bound; lia.
  - apply Z.div_lt_upper_bound; [lia|]. change (2 ^ 53) with (2 * 2 ^ 52). lia.
Qed.

Lemma nearest53_mantissa (z : Z) :
  0 < z -> 0 <= Z.log2 z + 1 - 53 ->
  let k := Z.log2 z + 1 - 53 in
  let R := nearest53 z / 2 ^ k in
  nearest53 z = R * 2 ^ k
  /\ 2 ^ 52 <= R <= 2 ^ 53
  /\ R = if k <=? 0 then z
         else if (2 ^ k <? 2 * (z mod 2 ^ k))
                 || ((2 ^ k =? 2 * (z mod 2 ^ k)) && Z.odd (z / 2 ^ k))
              then z / 2 ^ k + 1 else z / 2 ^ k.
Proof.
  intros Hz Hk k R. subst R. unfold nearest53. fold k.
  pose proof (mantissa_bounds z Hz Hk) as Hq. cbv zeta in Hq. fold k in Hq.
  assert (Hpow : 0 < 2 ^ k) by (apply Z.pow_pos_nonneg; lia).
  destruct (Z.leb_spec k 0) as [Hk0|Hk0].
  - assert (k = 0) as E by lia. rewrite E in *. change (2 ^ 0) with 1 in *.
    rewrite Z.div_1_r in *. lia.
  - rewrite Z.div_mul by lia.
    destruct (_ || _); lia.
Qed.

(** The rounding of a mantissa of at least 53 bits. *)
Lemma binary_round_aux_spec (sx : bool) (z e : Z) :
  0 < z -> 0 <= Z.log2 z + 1 - 53 -> -52 <= e ->
  let k := Z.log2 z + 1 - 53 in
  let R := nearest53 z / 2 ^ k in
  binary_round_aux prec emax sx z e loc_Exact
  = if R =? 2 ^ 53
    then (if e + k + 1 <=? emax - prec
          then S754_finite sx (Z.to_pos (2 ^ 52)) (e + k + 1) else S754_infinity sx)
    else (if e + k <=? emax - prec
          then S754_finite sx (Z.to_pos R) (e + k) else S754_infinity sx).
Proof.
  intros Hz Hk He k R.
  destruct (nearest53_mantissa z Hz Hk) as (_ & HR & HRcases).
  fold k in HR, HRcases. fold R in HR, HRcases.
  unfold binary_round_aux.
  rewrite shr_fexp_spec by lia. fold k.
  assert (Hfirst :
    (if k <=? 0 then ({| shr_m := z; shr_r := false; shr_s := false |}, e)
     else ({| shr_m := z / 2 ^ k;
              shr_r := Z.odd (z / 2 ^ (k - 1));
              shr_s := negb (z mod 2 ^ (k - 1) =? 0) |}, e + k))
    = (if k <=? 0 then {| shr_m := z; shr_r := false; shr_s := false |}
       else {| shr_m := z / 2 ^ k;
               shr_r := Z.odd (z / 2 ^ (k - 1));
               shr_s := negb (z mod 2 ^ (k - 1) =? 0) |}, e + k)).
  { destruct (Z.leb_spec k 0); [f_equal; lia | reflexivity]. }
  rewrite Hfirst. clear Hfirst.
  assert (Hround :
    round_nearest_even
      (shr_m (if k <=? 0 then {| shr_m := z; shr_r := false; shr_s := false |}
              else {| shr_m := z / 2 ^ k;
                      shr_r := Z.odd (z / 2 ^ (k - 1));
                      shr_s := negb (z mod 2 ^ (k - 1) =? 0) |}))
      (loc_of_shr_record
         (if k <=? 0 then {| shr_m := z; shr_r := false; shr_s := false |}
          else {| shr_m := z / 2 ^ k;
                  shr_r := Z.odd (z / 2 ^ (k - 1));
                  shr_s := negb (z mod 2 ^ (k - 1) =? 0) |})) = R).
  { destruct (Z.leb_spec k 0) as [Hk0|Hk0].
    - cbn [shr_m loc_of_shr_record round_nearest_even]. lia.
    - cbn [shr_m]. rewrite round_nearest_even_spec by lia.
      symmetry. exact HRcases. }
  rewrite Hround. clear Hround.
  assert (HR0 : 0 < R) by lia.
  destruct (Z.eqb_spec R (2 ^ 53)) as [E|E].
  - rewrite E.
    rewrite shr_fexp_spec; [|reflexivity | change (Z.log2 (2 ^ 53)) with 53; lia].
    change (Z.log2 (2 ^ 53) + 1 - 53) with 1. cbn [Z.leb Z.compare].
    change (shr_m {| shr_m := 2 ^ 53 / 2 ^ 1; shr_r := Z.odd (2 ^ 53 / 2 ^ (1 - 1));
                     shr_s := negb (2 ^ 53 mod 2 ^ (1 - 1) =? 0) |})
      with (Zpos (Z.to_pos (2 ^ 52))).
    cbv beta iota. reflexivity.
  - assert (Hlog : Z.log2 R = 52).
    { apply Z.log2_unique; [lia|]. change (2 ^ Z.succ 52) with (2 ^ 53). lia. }
    rewrite shr_fexp_spec by lia. rewrite Hlog.
    change (52 + 1 - 53 <=? 0) with true. cbv iota. cbn [shr_m].
    destruct R as [|r|r]; try lia. reflexivity.
Qed.

Lemma iter_xO_value (p d : positive) : Zpos (Pos.iter xO p d) = Zpos p * 2 ^ Zpos d.
Proof.
  induction d using Pos.peano_ind.
  - simpl. lia.
  - rewrite Pos.iter_succ, Pos2Z.inj_succ, Z.pow_succ_r by lia.
    rewrite Pos2Z.inj_xO, IHd. lia.
Qed.

(** [shl_align] moves a mantissa to a smaller exponent. *)
Lemma shl_align_spec (p : positive) (e e' : Z) :
  shl_align p e e'
  = if e' <? e then (Z.to_pos (Zpos p * 2 ^ (e - e')), e') else (p, e).
Proof.
  unfold shl_align.
  destruct (Z.ltb_spec e' e) as [H|H].
  - destruct (e' - e) as [|d|d] eqn:Hdiff; try lia.
    assert (e - e' = Zpos d) as -> by lia.
    rewrite <- iter_xO_value. reflexivity.
  - destruct (e' - e) as [|d|d] eqn:Hdiff; try lia; reflexivity.
Qed.

Lemma nearest53_small (z : Z) : Z.log2 z + 1 <= 53 -> nearest53 z = z.
Proof.
  intros H. unfold nearest53.
  destruct (Z.leb_spec (Z.log2 z + 1 - 53) 0); [reflexivity | lia].
Qed.

(** The number of a positive integer: its rounding to 53 bits, or an
    infinity when that lies beyond the finite numbers. *)
Lemma binary_round_repr (sx : bool) (p : positive) :
  (binary_round prec emax sx p 0 = S754_infinity sx
   /\ 2 ^ 1024 <= nearest53 (Zpos p))
  \/ exists m e,
       binary_round prec emax sx p 0 = S754_finite sx m e
       /\ 2 ^ 52 <= Zpos m < 2 ^ 53
       /\ -52 <= e <= 971
       /\ Zpos m * 2 ^ (e + 52) = nearest53 (Zpos p) * 2 ^ 52.
Proof.
  unfold binary_round. rewrite digits2_log2.
  pose proof (Z.log2_nonneg (Zpos p)) as Hlog0.
  pose proof (log2_bounds (Zpos p) ltac:(lia)) as Hlog.
  assert (Hfexp : fexp prec emax (Z.log2 (Zpos p) + 1 + 0) = Z.log2 (Zpos p) + 1 - 53).
  { unfold fexp, emin, prec, emax. lia. }
  rewrite Hfexp, shl_align_spec.
  destruct (Z.ltb_spec (Z.log2 (Zpos p) + 1 - 53) 0) as [Hn|Hn].
  - (* fewer than 53 bits: the integer itself *)
    right.
    set (d := 0 - (Z.log2 (Zpos p) + 1 - 53)).
    assert (Hd : 0 < d <= 52) by (unfold d; lia).
    assert (Hpowd : 0 < 2 ^ d) by (apply Z.pow_pos_nonneg; lia).
    set (mz := Zpos p * 2 ^ d).
    assert (Hmz : 0 < mz) by (unfold mz; lia).
    assert (Hlogmz : Z.log2 mz = 52).
    { unfold mz. rewrite Z.log2_mul_pow2 by lia. unfold d. lia. }
    rewrite Z2Pos.id by exact Hmz.
    rewrite binary_round_aux_spec by (try rewrite Hlogmz; lia).
    rewrite Hlogmz. change (52 + 1 - 53) with 0. change (2 ^ 0) with 1.
    rewrite Z.div_1_r, (nearest53_small mz) by lia.
    pose proof (log2_bounds mz Hmz) as Hb. rewrite Hlogmz in Hb.
    change (2 * 2 ^ 52) with (2 ^ 53) in Hb.
    destruct (Z.eqb_spec mz (2 ^ 53)) as [E|_]; [lia|].
    assert (Hexp : (Z.log2 (Zpos p) + 1 - 53 + 0 <=? emax - prec) = true).
    { apply Z.leb_le. unfold emax, prec. lia. }
    rewrite Hexp. exists (Z.to_pos mz), (Z.log2 (Zpos p) + 1 - 53 + 0).
    rewrite Z2Pos.id by exact Hmz.
    split; [reflexivity|]. split; [lia|]. split; [lia|].
    rewrite nearest53_small by lia. unfold mz.
    replace (Z.log2 (Zpos p) + 1 - 53 + 0 + 52) with (52 - d) by (unfold d; lia).
    rewrite <- Z.mul_assoc, <- Z.pow_add_r by lia.
    replace (d + (52 - d)) with 52 by lia. reflexivity.
  - (* at least 53 bits: the rounding *)
    set (k := Z.log2 (Zpos p) + 1 - 53) in *.
    rewrite binary_round_aux_spec by (fold k; lia). fold k.
    destruct (nearest53_mantissa (Zpos p) ltac:(lia) ltac:(fold k; lia))
      as (Hnearest & HR & _).
    fold k in Hnearest, HR.
    set (R := nearest53 (Zpos p) / 2 ^ k) in *.
    assert (Hpowk : 0 < 2 ^ k) by (apply Z.pow_pos_nonneg; lia).
    unfold emax, prec. change (1024 - 53) with 971.
    destruct (Z.eqb_spec R (2 ^ 53)) as [E|E].
    + destruct (Z.leb_spec (0 + k + 1) 971) as [Hfin|Hinf].
      * right. exists (Z.to_pos (2 ^ 52)), (0 + k + 1).
        split; [reflexivity|]. split; [change (Zpos (Z.to_pos (2 ^ 52))) with (2 ^ 52); lia|].
        split; [lia|].
        change (Zpos (Z.to_pos (2 ^ 52))) with (2 ^ 52).
        rewrite Hnearest, E.
        replace (0 + k + 1 + 52) with (1 + k + 52) by lia.
        rewrite !Z.pow_add_r by lia. change (2 ^ 53) with (2 ^ 52 * 2 ^ 1). ring.
      * left. split; [reflexivity|]. rewrite Hnearest, E.
        replace k with (971 + (k - 971)) by lia.
        rewrite Z.pow_add_r by lia.
        assert (0 < 2 ^ (k - 971)) by (apply Z.pow_pos_nonneg; lia).
        change (2 ^ 1024) with (2 ^ 53 * 2 ^ 971). nia.
    + destruct (Z.leb_spec (0 + k) 971) as [Hfin|Hinf].
      * right. exists (Z.to_pos R), (0 + k).
        rewrite Z2Pos.id by lia.
        split; [reflexivity|]. split; [lia|]. split; [lia|].
        rewrite Hnearest. replace (0 + k + 52) with (k + 52) by lia.
        rewrite Z.pow_add_r by lia. ring.
      * left. split; [reflexivity|]. rewrite Hnearest.
        replace k with (972 + (k - 972)) by lia.
        rewrite Z.pow_add_r by lia.
        assert (0 < 2 ^ (k - 972)) by (apply Z.pow_pos_nonneg; lia).
        assert (0 < 2 ^ 972) by (apply Z.pow_pos_nonneg; lia).
        change (2 ^ 1024) with (2 ^ 52 * 2 ^ 972). nia.
Qed.

(** A rounding to 53 bits keeps the number of bits, or yields the next
    power of two. *)
Lemma nearest53_bounds (z : Z) :
  0 < z -> 2 ^ Z.log2 z <= nearest53 z <= 2 * 2 ^ Z.log2 z.
Proof.
  intros Hz. pose proof (log2_bounds z Hz) as Hlog.
  destruct (Z.le_gt_cases (Z.log2 z + 1) 53) as [Hsmall|Hlarge].
  - rewrite nearest53_small by exact Hsmall. lia.
  - destruct (nearest53_mantissa z Hz ltac:(lia)) as (Hnearest & HR & _).
    set (k := Z.log2 z + 1 - 53) in *. set (R := nearest53 z / 2 ^ k) in *.
    assert (Hpowk : 0 < 2 ^ k) by (apply Z.pow_pos_nonneg; lia).
    assert (Hsplit : Z.log2 z = 52 + k) by (unfold k; lia).
    rewrite Hnearest, Hsplit, Z.pow_add_r by lia.
    change (2 ^ 53) with (2 * 2 ^ 52) in HR. nia.
Qed.

(** Rounding to 53 bits is monotone. *)
Lemma nearest53_mono (a b : Z) : 0 <= a -> a <= b -> nearest53 a <= nearest53 b.
Proof.
  intros Ha Hab.
  destruct (Z.eq_dec a 0) as [->|Ha0].
  { change (nearest53 0) with 0.
    destruct (Z.eq_dec b 0) as [->|Hb0]; [reflexivity|].
    pose proof (nearest53_bounds b ltac:(lia)) as Hb.
    assert (0 < 2 ^ Z.log2 b) by (apply Z.pow_pos_nonneg, Z.log2_nonneg; lia).
    lia. }
  assert (Ha' : 0 < a) by lia. assert (Hb' : 0 < b) by lia.
  pose proof (Z.log2_le_mono a b Hab) as Hlog.
  pose proof (Z.log2_nonneg a) as Hloga.
  destruct (Z.eq_dec (Z.log2 a) (Z.log2 b)) as [E|E].
  - (* as many bits: the same place is rounded *)
    destruct (Z.le_gt_cases (Z.log2 a + 1) 53) as [Hsmall|Hlarge].
    + rewrite !nearest53_small by lia. exact Hab.
    + destruct (nearest53_mantissa a Ha' ltac:(lia)) as (Hna & _ & HRa).
      destruct (nearest53_mantissa b Hb' ltac:(lia)) as (Hnb & _ & HRb).
      rewrite <- E in Hnb, HRb.
      set (k := Z.log2 a + 1 - 53) in *.
      assert (Hk : 0 < k) by (unfold k; lia).
      assert (Hpowk : 0 < 2 ^ k) by (apply Z.pow_pos_nonneg; lia).
      destruct (Z.leb_spec k 0) as [Hk0|_]; [lia|].
      rewrite Hna, Hnb. apply Z.mul_le_mono_nonneg_r; [lia|].
      rewrite HRa, HRb.
      pose proof (Z.div_mod a (2 ^ k) ltac:(lia)) as Hda.
      pose proof (Z.div_mod b (2 ^ k) ltac:(lia)) as Hdb.
      pose proof (Z.mod_pos_bound a (2 ^ k) ltac:(lia)) as Hma.
      pose proof (Z.mod_pos_bound b (2 ^ k) ltac:(lia)) as Hmb.
      assert (Hq : a / 2 ^ k <= b / 2 ^ k) by (apply Z.div_le_mono; lia).
      destruct (Z.eq_dec (a / 2 ^ k) (b / 2 ^ k)) as [Eq|Eq].
      * rewrite <- Eq in *.
        assert (Hr : a mod 2 ^ k <= b mod 2 ^ k) by nia.
        destruct (Z.ltb_spec (2 ^ k) (2 * (a mod 2 ^ k)));
          destruct (Z.ltb_spec (2 ^ k) (2 * (b mod 2 ^ k)));
          destruct (Z.eqb_spec (2 ^ k) (2 * (a mod 2 ^ k)));
          destruct (Z.eqb_spec (2 ^ k) (2 * (b mod 2 ^ k)));
          destruct (Z.odd (a / 2 ^ k)); cbn [orb andb]; lia.
      * destruct (_ || _); destruct (_ || _); lia.
  - (* fewer bits: a power of two lies in between *)
    pose proof (nearest53_bounds a Ha') as Hba.
    pose proof (nearest53_bounds b Hb') as Hbb.
    assert (Hpow : 2 * 2 ^ Z.log2 a <= 2 ^ Z.log2 b).
    { rewrite <- Z.pow_succ_r by lia. apply Z.pow_le_mono_r; lia. }
    lia.
Qed.

(** Two finite numbers with full mantissas are ordered as their values. *)
Lemma finite_leb (m1 m2 : positive) (e1 e2 : Z) :
  2 ^ 52 <= Zpos m1 < 2 ^ 53 -> 2 ^ 52 <= Zpos m2 < 2 ^ 53 ->
  -52 <= e1 -> -52 <= e2 ->
  Zpos m1 * 2 ^ (e1 + 52) <= Zpos m2 * 2 ^ (e2 + 52) ->
  SFleb (S754_finite false m1 e1) (S754_finite false m2 e2) = true.
Proof.
  intros H1 H2 He1 He2 Hle. unfold SFleb, SFcompare.
  destruct (Z.compare_spec e1 e2) as [E|E|E]; [|reflexivity|].
  - subst e2. rewrite Pos.compare_cont_spec. cbn [Pos.switch_Eq].
    assert (0 < 2 ^ (e1 + 52)) by (apply Z.pow_pos_nonneg; lia).
    destruct (Pos.compare_spec m1 m2); try reflexivity. nia.
  - exfalso.
    replace (e1 + 52) with ((e2 + 52) + (e1 - e2)) in Hle by lia.
    rewrite Z.pow_add_r in Hle by lia.
    assert (0 < 2 ^ (e2 + 52)) by (apply Z.pow_pos_nonneg; lia).
    assert (HB : 2 <= 2 ^ (e1 - e2)).
    { change 2 with (2 ^ 1) at 1. apply Z.pow_le_mono_r; lia. }
    assert (Hcancel : Zpos m1 * 2 ^ (e1 - e2) <= Zpos m2).
    { apply (Z.mul_le_mono_pos_r _ _ (2 ^ (e2 + 52))); [lia|].
      rewrite <- Z.mul_assoc, (Z.mul_comm (2 ^ (e1 - e2))). exact Hle. }
    assert (Zpos m1 * 2 <= Zpos m1 * 2 ^ (e1 - e2)).
    { apply Z.mul_le_mono_nonneg_l; lia. }
    change (2 ^ 53) with (2 * 2 ^ 52) in *. lia.
Qed.

(** The numbers of two non-negative integers are ordered as the integers
    are, however large these are. *)
Lemma ofZ_leb_nonneg (a b : Z) : 0 <= a -> a <= b -> leb (ofZ a) (ofZ b) = true.
Proof.
  intros Ha Hab. pose proof (nearest53_mono a b Ha Hab) as Hmono.
  destruct a as [|p|p]; [| |lia].
  - destruct b as [|q|q]; [reflexivity| |lia].
    unfold ofZ, binary_normalize.
    destruct (binary_round_repr false q) as [[-> _] | (m & e & -> & _)]; reflexivity.
  - destruct b as [|q|q]; try lia.
    unfold ofZ, binary_normalize.
    destruct (binary_round_repr false p) as [[-> Hp] | (m1 & e1 & -> & Hm1 & He1 & Hv1)];
      destruct (binary_round_repr false q) as [[-> Hq] | (m2 & e2 & -> & Hm2 & He2 & Hv2)];
      try reflexivity.
    + exfalso.
      assert (Zpos m2 * 2 ^ (e2 + 52) < 2 ^ 1024 * 2 ^ 52); [|lia].
      assert (2 ^ (e2 + 52) <= 2 ^ 1023) by (apply Z.pow_le_mono_r; lia).
      assert (0 < 2 ^ (e2 + 52)) by (apply Z.pow_pos_nonneg; lia).
      change (2 ^ 1024 * 2 ^ 52) with (2 ^ 53 * 2 ^ 1023). nia.
    + apply finite_leb; try lia.
Qed.

(** Two negative finite numbers with full mantissas are ordered against
    their absolute values. *)
Lemma finite_leb_negative (m1 m2 : positive) (e1 e2 : Z) :
  2 ^ 52 <= Zpos m1 < 2 ^ 53 -> 2 ^ 52 <= Zpos m2 < 2 ^ 53 ->
  -52 <= e1 -> -52 <= e2 ->
  Zpos m2 * 2 ^ (e2 + 52) <= Zpos m1 * 2 ^ (e1 + 52) ->
  SFleb (S754_finite true m1 e1) (S754_finite true m2 e2) = true.
Proof.
  intros H1 H2 He1 He2 Hle.
  pose proof (finite_leb m2 m1 e2 e1 H2 H1 He2 He1 Hle) as H.
  unfold SFleb, SFcompare in *.
  rewrite (Z.compare_antisym e1 e2) in H.
  destruct (e1 ?= e2); cbn [CompOpp] in *; try reflexivity; try discriminate.
  rewrite Pos.compare_cont_spec in *. cbn [Pos.switch_Eq] in *.
  rewrite (Pos.compare_antisym m1 m2) in H.
  destruct (m1 ?= m2)%positive; cbn [CompOpp] in *; try reflexivity; discriminate.
Qed.

(** A finite number is the number of an integer below 2^1024. *)
Lemma finite_value_bound (m : positive) (e : Z) :
  Zpos m < 2 ^ 53 -> -52 <= e <= 971 -> Zpos m * 2 ^ (e + 52) < 2 ^ 1024 * 2 ^ 52.
Proof.
  intros Hm He.
  assert (2 ^ (e + 52) <= 2 ^ 1023) by (apply Z.pow_le_mono_r; lia).
  assert (0 < 2 ^ (e + 52)) by (apply Z.pow_pos_nonneg; lia).
  change (2 ^ 1024 * 2 ^ 52) with (2 ^ 53 * 2 ^ 1023). nia.
Qed.

(** [toNumber] is monotone: the numbers of two integers are ordered as the
    integers are, however large these are. *)
Lemma ofZ_leb (a b : Z) : a <= b -> leb (ofZ a) (ofZ b) = true.
Proof.
  intros Hab.
  destruct (Z.le_gt_cases 0 a) as [Ha|Ha]; [apply ofZ_leb_nonneg; assumption|].
  destruct a as [|p|p]; try lia.
  unfold ofZ at 1. unfold binary_normalize.
  destruct b as [|q|q].
  - destruct (binary_round_repr true p) as [[-> _] | (m & e & -> & _)]; reflexivity.
  - unfold ofZ, binary_normalize.
    destruct (binary_round_repr true p) as [[-> _] | (m1 & e1 & -> & _)];
      destruct (binary_round_repr false q) as [[-> _] | (m2 & e2 & -> & _)];
      reflexivity.
  - unfold ofZ, binary_normalize.
    pose proof (nearest53_mono (Zpos q) (Zpos p) ltac:(lia) ltac:(lia)) as Hmono.
    destruct (binary_round_repr true p) as [[-> Hp] | (m1 & e1 & -> & Hm1 & He1 & Hv1)];
      destruct (binary_round_repr true q) as [[-> Hq] | (m2 & e2 & -> & Hm2 & He2 & Hv2)];
      try reflexivity.
    + exfalso. pose proof (finite_value_bound m1 e1 ltac:(lia) He1). lia.
    + apply finite_leb_negative; lia.
Qed.

(** A number of an integer is not NaN, and it is a zero for 0 only:
    [|| 0] leaves it as it is. *)
Lemma orZero_ofZ (z : Z) : orZero (ofZ z) = ofZ z.
Proof.
  destruct z as [|p|p]; [reflexivity| |]; unfold ofZ, binary_normalize.
  - destruct (binary_round_repr false p) as [[-> _] | (m & e & -> & _)]; reflexivity.
  - destruct (binary_round_repr true p) as [[-> _] | (m & e & -> & _)]; reflexivity.
Qed.

(** The first integer that is not a number: it is rounded to its even
    neighbour. *)
Example toNumber_rounds :
  BigNumber.toNumber (2 ^ 53 + 1) = BigNumber.toNumber 9007199254740992
  /\ BigNumber.toNumber (2 ^ 53 + 3) = BigNumber.toNumber 9007199254740996
  /\ nearest53 (2 ^ 53 + 1) = 9007199254740992
  /\ BigNumber.toNumber (2 ^ 1024) = S754_infinity false.
Proof. repeat split; vm_compute; reflexivity. Qed.

End NumberFacts.

(** ** Splitting and the unlocking chunks *)
Module UnlockingFacts.
Import NodeApi StakingApi SubstrateAccountController SubstrateStaking StakingSamples.

Lemma partitionArray_from {T : Type} (predicate : T -> bool) (array : list T) :
  forall yes no : list T,
    fold_left (fun partitioned item =>
                 if predicate item
                 then (fst partitioned ++ [item], snd partitioned)
                 else (fst partitioned, snd partitioned ++ [item]))
              array (yes, no)
    = (yes ++ filter predicate array, no ++ filter (fun x => negb (predicate x)) array).
Proof.
  induction array as [|x array IH]; intros yes no; simpl.
  - rewrite !app_nil_r. reflexivity.
  - destruct (predicate x); simpl; rewrite IH; simpl; rewrite <- app_assoc; reflexivity.
Qed.

(** X1. [partitionArray] splits an array in two without reordering: the
    first part holds the items that satisfy the predicate, the second the
    others, each in the order of the array. *)
Theorem partitionArray_filters {T : Type} (array : list T) (predicate : T -> bool) :
  partitionArray array predicate
  = (filter predicate array, filter (fun x => negb (predicate x)) array).
Proof. unfold partitionArray. rewrite partitionArray_from. reflexivity. Qed.

Lemma fold_left_values (entries : list (Z * Z)) (start : Z) :
  fold_left (fun total entry => total + fst entry) entries start
  = start + Spec.total (map fst entries).
Proof.
  revert start. induction entries as [|e entries IH]; intros start; simpl.
  - unfold Spec.total. simpl. lia.
  - rewrite IH. unfold Spec.total. simpl. lia.
Qed.

Lemma fold_left_sum (values : list Z) (start : Z) :
  fold_left (fun sum next => sum + next) values start = start + Spec.total values.
Proof.
  revert start. induction values as [|v values IH]; intros start; simpl.
  - unfold Spec.total. simpl. lia.
  - rewrite IH. unfold Spec.total. simpl. lia.
Qed.

(** The values of a list are those of the selected entries and those of
    the others together. *)
Lemma total_split (keep : Z * Z -> bool) (entries : list (Z * Z)) :
  Spec.total (map fst entries)
  = Spec.total (map fst (filter keep entries))
    + Spec.total (map fst (filter (fun x => negb (keep x)) entries)).
Proof.
  induction entries as [|e entries IH]; simpl.
  - reflexivity.
  - unfold Spec.total in *. destruct (keep e); simpl; lia.
Qed.

(** X2. The unlocking balance of an account is accounted for in its
    staking details: it is the sum of the values of the chunks listed as
    locked plus the amount reported as unlocked, whatever the active era
    and the era duration are. *)
Theorem unlocking_balance_is_locked_plus_unlocked :
  forall (api : StakingApi.t) (accountId : SubstrateAddress) (ledger : StakingLedger.t)
         (activeEra : ActiveEraInfo.t) (expectedEraDuration : Z),
    getStakingLedger api accountId = Fulfilled (Some ledger) ->
    let details :=
      getUnlockingDetails (StakingLedger.unlocking ledger) activeEra expectedEraDuration in
    map value (fst details)
    = map BigNumber.digits (lockedValues (StakingLedger.unlocking ledger) activeEra)
    /\ getUnlockingBalance api accountId
       = Fulfilled (Spec.total (lockedValues (StakingLedger.unlocking ledger) activeEra)
                    + snd details).
Proof.
  intros api accountId ledger activeEra duration Hledger details.
  subst details. unfold getUnlockingDetails, getUnlockingBalance, lockedValues.
  unfold partitionArray. rewrite Hledger, partitionArray_from.
  cbn [bind fst snd app]. split.
  - rewrite !map_map. reflexivity.
  - rewrite fold_left_sum, fold_left_values.
    rewrite (total_split (fun entry => ActiveEraInfo.index activeEra <? snd entry)).
    reflexivity.
Qed.

(** Of the 600 that are unlocking, 450 are still locked in era 6 and 150
    can be withdrawn. *)
Lemma unlocking_balance_is_locked_plus_unlocked_witness :
  map value (fst (getUnlockingDetails (StakingLedger.unlocking sampleLedger)
                    sampleEra 86400000)) = ["200"; "250"]
  /\ snd (getUnlockingDetails (StakingLedger.unlocking sampleLedger) sampleEra 86400000)
     = 150
  /\ getUnlockingBalance (stakingApi None) "acct" = Fulfilled (450 + 150).
Proof.
  pose proof (unlocking_balance_is_locked_plus_unlocked (stakingApi None) "acct"
                sampleLedger sampleEra 86400000 eq_refl) as [Hlocked Hbalance].
  split; [exact Hlocked|]. split; [reflexivity | exact Hbalance].
Defined.


(** X3. In the staking details of an account no locked chunk is expected
    to unlock before the next era. The unlock times and [nextEra] are
    JavaScript numbers: the unlock time of a locked chunk is the number
    nearest to the instant computed from the start of the active era and
    the era duration. The rounding keeps the order, so for a non-negative
    era duration [nextEra <= expectedUnlock] holds for every locked chunk,
    however large the instants are. And there is one locked chunk for every
    unlocking entry whose era lies after the active era. *)
Theorem locked_chunks_unlock_from_next_era :
  forall (nodeClient : NodeApi.t) (accountId : SubstrateAddress)
         (ledger : StakingLedger.t) (nominations : option Nominations.t)
         (activeEra : ActiveEraInfo.t) (expectedEraDuration : Z)
         (details : StakingDetails.t),
    0 <= expectedEraDuration ->
    getStakingDetails nodeClient accountId (Some ledger) nominations activeEra
      expectedEraDuration = Fulfilled (Some details) ->
    Forall (fun chunk =>
              Number.leb (StakingDetails.nextEra details) (expectedUnlock chunk) = true)
           (StakingDetails.locked details)
    /\ map expectedUnlock (StakingDetails.locked details)
       = map (fun entry =>
                BigNumber.toNumber
                  (unlockInstant activeEra expectedEraDuration (snd entry)))
             (filter (fun entry => ActiveEraInfo.index activeEra <? snd entry)
                     (StakingLedger.unlocking ledger))
    /\ List.length (StakingDetails.locked details)
       = List.length (lockedValues (StakingLedger.unlocking ledger) activeEra).
Proof.
  intros nodeClient accountId ledger nominations activeEra duration details Hduration.
  unfold getStakingDetails.
  destruct (all2 _ _) as [results| |]; cbn [bind]; try discriminate.
  intros H. injection H as <-.
  cbn [StakingDetails.nextEra StakingDetails.locked].
  unfold getUnlockingDetails, lockedValues, partitionArray.
  rewrite partitionArray_from. cbn [fst snd app].
  split; [|split].
  - apply Forall_forall. intros chunk Hchunk.
    apply in_map_iff in Hchunk. destruct Hchunk as [entry [<- Hentry]].
    apply filter_In in Hentry. destruct Hentry as [_ Hera].
    apply Z.ltb_lt in Hera. cbn [expectedUnlock].
    unfold BigNumber.toNumber.
    destruct (ActiveEraInfo.start activeEra) as [start|].
    + rewrite NumberFacts.orZero_ofZ. apply NumberFacts.ofZ_leb. nia.
    + apply (NumberFacts.ofZ_leb 0). nia.
  - rewrite map_map. apply map_ext. intros entry. reflexivity.
  - rewrite !length_map. reflexivity.
Qed.

(** Seen from era 6, which started at 1600000000000 and lasts a day, the
    chunks of the eras 7 and 9 unlock one and three days later. *)
Lemma locked_chunks_unlock_from_next_era_witness :
  exists details,
    getStakingDetails (stakingNode None) "acct" (Some sampleLedger)
      (Some sampleNominations) sampleEra 86400000 = Fulfilled (Some details)
    /\ StakingDetails.nextEra details = Number.ofZ 1600086400000
    /\ map expectedUnlock (StakingDetails.locked details)
       = [Number.ofZ 1600086400000; Number.ofZ 1600259200000]
    /\ Forall (fun chunk =>
                 Number.leb (StakingDetails.nextEra details) (expectedUnlock chunk) = true)
              (StakingDetails.locked details).
Proof.
  eexists. split; [vm_compute; reflexivity|].
  split; [vm_compute; reflexivity|].
  split; [vm_compute; reflexivity|].
  eapply (locked_chunks_unlock_from_next_era (stakingNode None) "acct" sampleLedger
            (Some sampleNominations) sampleEra 86400000).
  - lia.
  - vm_compute. reflexivity.
Defined.

End UnlockingFacts.

(** ** Staking status *)
Module StakingStatusFacts.
Import NodeApi StakingApi AsyncFacts SubstrateAccountController SubstrateStaking
       StakingSamples.

(** A nomination is reported ACTIVE only for a validator whose exposure in
    that era lists the nominator. *)
Lemma active_nomination_is_exposed (nodeClient : NodeApi.t)
  (nominator validator : SubstrateAddress) (era : Z) :
  getNominationStatus nodeClient nominator validator (Some era) = Fulfilled (Some ACTIVE) ->
  exists exposure,
    getValidatorExposure nodeClient era validator = Fulfilled (Some exposure)
    /\ In nominator (map fst (Exposure.others exposure)).
Proof.
  unfold getNominationStatus. cbn [bind].
  destruct (getNominations nodeClient nominator) as [nominations| |]; cbn [bind];
    try discriminate.
  destruct (match nominations with Some _ => _ | None => _ end); [discriminate|].
  destruct (getValidatorExposure nodeClient era validator) as [[exposure|]| |];
    cbn [bind]; try discriminate.
  match goal with
  | |- context [negb (existsb ?p (Exposure.others exposure))] =>
      destruct (existsb p (Exposure.others exposure)) eqn:Hlisted
  end; cbn [negb]; [|discriminate].
  intros _. exists exposure. split; [reflexivity|].
  apply existsb_exists in Hlisted. destruct Hlisted as [element [Hin Heq]].
  apply String.eqb_eq in Heq. subst nominator. apply in_map. exact Hin.
Qed.

Lemma existsb_Forall2 {A B : Type} (R : A -> B -> Prop) (p : B -> bool)
  (xs : list A) (ys : list B) :
  Forall2 R xs ys -> existsb p ys = true -> exists x y, In x xs /\ R x y /\ p y = true.
Proof.
  induction 1 as [|x y xs ys HR _ IH]; simpl; [discriminate|].
  destruct (p y) eqn:Hp; simpl.
  - intros _. exists x, y. repeat split; [left; reflexivity | exact HR | exact Hp].
  - intros H. destruct (IH H) as (x' & y' & Hin & HR' & Hp').
    exists x', y'. repeat split; [right; exact Hin | exact HR' | exact Hp'].
Qed.

(** X4. The staking status of an account: it is "bonded" exactly when the
    account has no nominations, "nominating_waiting" exactly when the
    nominations were submitted in the given era or later, and it is
    "nominating" only if one of the nominated validators has an exposure
    in that era that lists the account. Without nominations, or while
    waiting, the status is settled without any query to the node. *)
Theorem staking_status_cases :
  forall (nodeClient : NodeApi.t) (nominator : SubstrateAddress)
         (nominations : option Nominations.t) (eraIndex : Z),
    (nominations = None ->
     getStakingStatus nodeClient nominator nominations eraIndex = Fulfilled bonded)
    /\ (forall n, nominations = Some n -> eraIndex <= Nominations.submittedIn n ->
        getStakingStatus nodeClient nominator nominations eraIndex
        = Fulfilled nominating_waiting)
    /\ (forall status,
          getStakingStatus nodeClient nominator nominations eraIndex = Fulfilled status ->
          (status = bonded <-> nominations = None)
          /\ (status = nominating_waiting
              <-> exists n, nominations = Some n /\ eraIndex <= Nominations.submittedIn n)
          /\ (status = nominating ->
              exists n target exposure,
                nominations = Some n
                /\ In target (Nominations.targets n)
                /\ getValidatorExposure nodeClient eraIndex target
                   = Fulfilled (Some exposure)
                /\ In nominator (map fst (Exposure.others exposure)))).
Proof.
  intros nodeClient nominator nominations eraIndex.
  split; [|split].
  - intros ->. reflexivity.
  - intros n -> Hera. unfold getStakingStatus.
    destruct (Z.geb_spec (Nominations.submittedIn n) eraIndex); [reflexivity | lia].
  - intros status. unfold getStakingStatus.
    destruct nominations as [n|]; cbn [bind].
    + destruct (Z.geb_spec (Nominations.submittedIn n) eraIndex) as [Hwait|Hwait];
        cbn [negb bind andb].
      * intros H. injection H as <-.
        split; [split; discriminate|]. split; [|discriminate].
        split; [|reflexivity]. intros _. exists n. split; [reflexivity | lia].
      * unfold then_.
        destruct (all _) as [statuses| |] eqn:Hall; cbn [bind]; try discriminate.
        apply all_map_inv in Hall.
        destruct (existsb _ statuses) eqn:Hactive; cbn [negb andb];
          intros H; injection H as <-.
        -- split; [split; discriminate|].
           split; [split; [discriminate | intros (n' & Hn' & Hle); injection Hn' as <-; lia]|].
           intros _.
           destruct (existsb_Forall2 _ _ _ _ Hall Hactive) as (target & st & Hin & Hst & Hp).
           destruct st as [[| |]|]; try discriminate.
           destruct (active_nomination_is_exposed _ _ _ _ Hst) as (exposure & He & Hl).
           exists n, target, exposure. repeat split; assumption.
        -- split; [split; discriminate|].
           split; [|discriminate].
           split; [discriminate | intros (n' & Hn' & Hle); injection Hn' as <-; lia].
    + intros H. injection H as <-.
      split; [split; reflexivity|]. split; [|discriminate].
      split; [discriminate | intros (n' & Hn' & _); discriminate].
Qed.

(** The account "acct" nominates v1 and v2 since era 3 and is listed in the
    exposure of v1: in era 6 it is nominating; had it nominated in era 6,
    it would be waiting. *)
Lemma staking_status_cases_witness :
  getStakingStatus (stakingNode None) "acct" None 6 = Fulfilled bonded
  /\ getStakingStatus (stakingNode None) "acct" (Some sampleNominations) 3
     = Fulfilled nominating_waiting
  /\ getStakingStatus (stakingNode None) "acct" (Some sampleNominations) 6
     = Fulfilled nominating
  /\ exists n target exposure,
       Some sampleNominations = Some n
       /\ In target (Nominations.targets n)
       /\ getValidatorExposure (stakingNode None) 6 target = Fulfilled (Some exposure)
       /\ In "acct" (map fst (Exposure.others exposure)).
Proof.
  split; [|split; [|split]].
  - apply (proj1 (staking_status_cases (stakingNode None) "acct" None 6)). reflexivity.
  - apply (proj1 (proj2 (staking_status_cases (stakingNode None) "acct"
                           (Some sampleNominations) 3)) sampleNominations eq_refl).
    simpl. lia.
  - vm_compute. reflexivity.
  - apply (proj2 (proj2 (proj2 (staking_status_cases (stakingNode None) "acct"
                                  (Some sampleNominations) 6))
                          nominating eq_refl)).
    reflexivity.
Defined.

End StakingStatusFacts.

(** ** The status of a nomination *)
Module NominationStatusFacts.
Import NodeApi AsyncFacts SubstrateAccountController NominationSpec StakingSamples.

Lemma existsb_target (validator : SubstrateAddress) (targets : list SubstrateAddress) :
  existsb (fun target => String.eqb target validator) targets = true
  <-> In validator targets.
Proof.
  rewrite existsb_exists. split.
  - intros [target [Hin Heq]]. apply String.eqb_eq in Heq. subst target. exact Hin.
  - intros Hin. exists validator. split; [exact Hin | apply String.eqb_refl].
Qed.

Lemma existsb_listed (nominator : SubstrateAddress)
  (elements : list (SubstrateAddress * Z)) :
  existsb (fun element => String.eqb (fst element) nominator) elements = true
  <-> In nominator (map fst elements).
Proof.
  rewrite existsb_exists, in_map_iff. split.
  - intros [element [Hin Heq]]. apply String.eqb_eq in Heq.
    exists element. split; assumption.
  - intros [element [Heq Hin]]. exists element.
    split; [exact Hin | apply String.eqb_eq; exact Heq].
Qed.

(** X5. The cases of [getNominationStatus] for a given era. The answer is
    undefined exactly when the account does not nominate the validator,
    and then the exposure is not asked for. For a nominated validator the
    answer is INACTIVE exactly when no exposure of the validator is stored
    for the era or the exposure does not list the account, and it is
    OVERSUBSCRIBED only if the exposure has more than 256 entries. Without
    a given era and without an active era the call is rejected. *)
Theorem nomination_status_cases :
  forall (nodeClient : NodeApi.t) (nominator validator : SubstrateAddress),
    (getActiveEraInfo nodeClient = Fulfilled None ->
     getNominationStatus nodeClient nominator validator None
     = Rejected (Reason "Could not fetch active era"))
    /\ forall (era : Z) (status : option SubstrateNominationStatus),
         getNominationStatus nodeClient nominator validator (Some era) = Fulfilled status ->
         exists nominations,
           getNominations nodeClient nominator = Fulfilled nominations
           /\ (status = None <-> ~ nominates nominations validator)
           /\ (nominates nominations validator ->
               exists exposure,
                 getValidatorExposure nodeClient era validator = Fulfilled exposure
                 /\ (status = Some INACTIVE <-> ~ lists exposure nominator)
                 /\ (status = Some OVERSUBSCRIBED ->
                     exists e, exposure = Some e
                               /\ (256 < List.length (Exposure.others e))%nat)).
Proof.
  intros nodeClient nominator validator. split.
  - intros Hera. unfold getNominationStatus. rewrite Hera. reflexivity.
  - intros era status. unfold getNominationStatus. cbn [bind].
    destruct (getNominations nodeClient nominator) as [nominations| |]; cbn [bind];
      try discriminate.
    intros H. exists nominations. split; [reflexivity|]. revert H.
    destruct nominations as [n|].
    + match goal with
      | |- context [existsb ?p (Nominations.targets n)] =>
          destruct (existsb p (Nominations.targets n)) eqn:Htarget
      end; cbn [negb].
      * apply existsb_target in Htarget.
        assert (Hnominates : nominates (Some n) validator).
        { exists n. split; [reflexivity | exact Htarget]. }
        destruct (getValidatorExposure nodeClient era validator) as [exposure| |];
          cbn [bind]; try discriminate.
        intros H.
        assert (Hdefined : status <> None).
        { revert H. destruct exposure as [e|]; [|congruence].
          destruct (negb _); [congruence|].
          destruct (_ >? 256); [destruct (_ >? 256)|]; congruence. }
        split; [split; [contradiction | intros Hnot; contradiction]|].
        intros _. exists exposure. split; [reflexivity|]. revert H.
        destruct exposure as [e|].
        -- match goal with
           | |- context [existsb ?p (Exposure.others e)] =>
               destruct (existsb p (Exposure.others e)) eqn:Hlisted
           end; cbn [negb].
           ++ apply existsb_listed in Hlisted.
              assert (Hlists : lists (Some e) nominator).
              { exists e. split; [reflexivity | exact Hlisted]. }
              destruct (Z.gtb_spec (Z.of_nat (List.length (Exposure.others e))) 256)
                as [Hmany|Hfew].
              ** destruct (_ >? 256); intros H; injection H as <-.
                 --- split; [split; [discriminate | contradiction]|].
                     intros _. exists e. split; [reflexivity | lia].
                 --- split; [split; [discriminate | contradiction] | discriminate].
              ** intros H. injection H as <-.
                 split; [split; [discriminate | contradiction] | discriminate].
           ++ intros H. injection H as <-. split; [|discriminate].
              split; [|reflexivity]. intros _ (e' & He' & Hin).
              injection He' as <-. apply existsb_listed in Hin. congruence.
        -- intros H. injection H as <-. split; [|discriminate].
           split; [|reflexivity]. intros _ (e' & He' & _). discriminate.
      * intros H. injection H as <-.
        split; [|intros (n' & Hn' & Hin); injection Hn' as <-;
                 apply existsb_target in Hin; congruence].
        split; [|reflexivity]. intros _ (n' & Hn' & Hin). injection Hn' as <-.
        apply existsb_target in Hin. congruence.
    + intros H. injection H as <-.
      split; [|intros (n' & Hn' & _); discriminate].
      split; [|reflexivity]. intros _ (n' & Hn' & _). discriminate.
Qed.

(** The account "acct" nominates v1 and v2 and is exposed with v1 only: its
    nomination of v2 is inactive, and it has no nomination of v3. *)
Lemma nomination_status_cases_witness :
  getNominationStatus (stakingNode None) "acct" "v1" (Some 6) = Fulfilled (Some ACTIVE)
  /\ getNominationStatus (stakingNode None) "acct" "v2" (Some 6) = Fulfilled (Some INACTIVE)
  /\ getNominationStatus (stakingNode None) "acct" "v3" (Some 6) = Fulfilled None
  /\ exists nominations,
       getNominations (stakingNode None) "acct" = Fulfilled nominations
       /\ (@None SubstrateNominationStatus = None <-> ~ nominates nominations "v3").
Proof.
  split; [reflexivity|]. split; [reflexivity|]. split; [reflexivity|].
  destruct (proj2 (nomination_status_cases (stakingNode None) "acct" "v3") 6 None eq_refl)
    as (nominations & Hnominations & Hnone & _).
  exists nominations. split; [exact Hnominations | exact Hnone].
Defined.

End NominationStatusFacts.

(** ** Nominator details *)
Module NominatorDetailsFacts.
Import NodeApi StakingApi AsyncFacts SubstrateAccountController SubstrateStaking
       StakingSamples.

Lemma available_actions_open_election (ordinal : SubstrateStakingActionType -> Z)
  (nodeClient : NodeApi.t) (stakingDetails : option SubstrateStakingDetails)
  (nominations : option Nominations.t) (validatorIds : list SubstrateAddress)
  (maxDelegationValue : Z) (actions : list DelegatorAction) :
  getElectionStatus nodeClient = Fulfilled (Some OPEN) ->
  getAvailableStakingActions ordinal nodeClient stakingDetails nominations validatorIds
    maxDelegationValue = Fulfilled actions ->
  actions = [].
Proof.
  intros Hopen. unfold getAvailableStakingActions.
  destruct (getExistentialDeposit nodeClient) as [ed| |]; cbn [bind]; try discriminate.
  rewrite Hopen. cbn [bind].
  rewrite EligibilityFacts.rules_with_open_election.
  intros H. injection H as <-. reflexivity.
Qed.

(** X6. The details of a nominator offer no action while the election of
    the era is open: whatever the account's balance, ledger and nominations
    are, every answer of [getNominatorDetails] then has an empty list of
    available actions. *)
Theorem nominator_details_while_election_open :
  forall (ordinal : SubstrateStakingActionType -> Z) (api : StakingApi.t)
         (accountId : SubstrateAddress) (validatorIds : option (list SubstrateAddress))
         (details : NominatorDetails.t),
    getElectionStatus (node api) = Fulfilled (Some OPEN) ->
    getNominatorDetails ordinal api accountId validatorIds = Fulfilled details ->
    NominatorDetails.availableActions details = [].
Proof.
  intros ordinal api accountId validatorIds details Hopen.
  unfold getNominatorDetails.
  destruct (all2 _ _) as [results| |]; cbn [bind]; try discriminate.
  destruct (fst (snd (snd (snd (snd results))))) as [activeEra|]; [|discriminate].
  destruct (fst (snd (snd (snd (snd (snd results)))))) as [duration|]; [|discriminate].
  destruct (getStakingDetails _ _ _ _ _ _) as [stakingDetails| |]; cbn [bind];
    try discriminate.
  destruct (getAvailableStakingActions _ _ _ _ _ _) as [actions| |] eqn:Hactions;
    cbn [bind]; try discriminate.
  intros H. injection H as <-. cbn [NominatorDetails.availableActions].
  exact (available_actions_open_election _ _ _ _ _ _ _ Hopen Hactions).
Qed.

Lemma nominator_details_while_election_open_witness :
  exists details,
    getNominatorDetails Samples.declarationOrder (stakingApi (Some OPEN)) "acct" None
    = Fulfilled details
    /\ NominatorDetails.balance details = 5000
    /\ NominatorDetails.availableActions details = [].
Proof.
  eexists. split; [vm_compute; reflexivity|]. split; [reflexivity|].
  eapply (nominator_details_while_election_open Samples.declarationOrder
            (stakingApi (Some OPEN)) "acct" None).
  - reflexivity.
  - vm_compute. reflexivity.
Defined.

(** The same account once the election is closed. *)
Example nominator_details_while_election_closed :
  then_ (getNominatorDetails Samples.declarationOrder (stakingApi (Some CLOSED)) "acct" None)
        (fun details => map type (NominatorDetails.availableActions details))
  = Fulfilled [CANCEL_NOMINATION; REBOND_EXTRA; WITHDRAW_UNBONDED].
Proof. vm_compute. reflexivity. Qed.

(** X7. An account that never staked (no staking ledger, no nominations):
    when the active era, the era duration and the existential deposit are
    known and the election is not open, its details carry no staking
    details and offer exactly one action, bonding and nominating, provided
    free - reserved - miscFrozen exceeds the existential deposit, and no
    action otherwise. An account unknown to the chain has balance 0. *)
Theorem nominator_details_of_fresh_account :
  forall (ordinal : SubstrateStakingActionType -> Z) (api : StakingApi.t)
         (accountId : SubstrateAddress) (validatorIds : option (list SubstrateAddress))
         (info : option AccountInfo.t) (activeEra : ActiveEraInfo.t)
         (duration existentialDeposit : Z) (election : option SubstrateElectionStatus),
    getAccountInfo (node api) accountId = Fulfilled info ->
    getStakingLedger api accountId = Fulfilled None ->
    getNominations (node api) accountId = Fulfilled None ->
    getActiveEraInfo (node api) = Fulfilled (Some activeEra) ->
    getExpectedEraDuration (node api) = Fulfilled (Some duration) ->
    getExistentialDeposit (node api) = Fulfilled existentialDeposit ->
    getElectionStatus (node api) = Fulfilled election ->
    election <> Some OPEN ->
    let transferable :=
      match info with
      | Some i => AccountInfo.free i - AccountInfo.reserved i - AccountInfo.miscFrozen i
      | None => 0
      end in
    getNominatorDetails ordinal api accountId validatorIds
    = Fulfilled
        {| NominatorDetails.address := accountId;
           NominatorDetails.balance :=
             match info with Some i => AccountInfo.free i | None => 0 end;
           NominatorDetails.delegatees := [];
           NominatorDetails.availableActions :=
             if existentialDeposit <? transferable
             then [ {| type := BOND_NOMINATE;
                       args := ["targets"; "controller"; "value"; "payee"] |} ]
             else [];
           NominatorDetails.stakingDetails := None |}.
Proof.
  intros ordinal api accountId validatorIds info activeEra duration ed election
         Hinfo Hledger Hnominations Hera Hduration Hed Helection Hclosed transferable.
  unfold getNominatorDetails, getBalance, getTransferableBalance.
  rewrite Hinfo, Hledger, Hnominations, Hera, Hduration, Hed.
  unfold getAvailableStakingActions, getStakingDetails.
  cbv beta iota zeta delta [bind all2 then_ fst snd option_map].
  rewrite Hed, Helection.
  cbv beta iota zeta delta [bind all2 then_ fst snd option_map].
  subst transferable.
  destruct election as [[|]|]; [| contradiction |];
    destruct info as [i|];
    rewrite ?Z.sub_0_r, ?Z.gtb_ltb;
    match goal with
    | |- context [ed <? ?b] => destruct (ed <? b); destruct (1 <? b)
    end; reflexivity.
Qed.

(** The account "fresh" can bond and nominate; an account the chain does
    not know has balance 0 and is offered nothing. *)
Lemma nominator_details_of_fresh_account_witness :
  getNominatorDetails Samples.declarationOrder freshApi "fresh" None
  = Fulfilled
      {| NominatorDetails.address := "fresh";
         NominatorDetails.balance := 50;
         NominatorDetails.delegatees := [];
         NominatorDetails.availableActions :=
           [ {| type := BOND_NOMINATE;
                args := ["targets"; "controller"; "value"; "payee"] |} ];
         NominatorDetails.stakingDetails := None |}
  /\ getNominatorDetails Samples.declarationOrder freshApi "nobody" None
     = Fulfilled
         {| NominatorDetails.address := "nobody";
            NominatorDetails.balance := 0;
            NominatorDetails.delegatees := [];
            NominatorDetails.availableActions := [];
            NominatorDetails.stakingDetails := None |}.
Proof.
  split.
  - exact (nominator_details_of_fresh_account Samples.declarationOrder freshApi "fresh" None
             (Some {| AccountInfo.free := 50; AccountInfo.reserved := 0;
                      AccountInfo.miscFrozen := 10; AccountInfo.feeFrozen := 10 |})
             sampleEra 86400000 1 (Some CLOSED)
             eq_refl eq_refl eq_refl eq_refl eq_refl eq_refl eq_refl
             ltac:(discriminate)).
  - exact (nominator_details_of_fresh_account Samples.declarationOrder freshApi "nobody" None
             None sampleEra 86400000 1 (Some CLOSED)
             eq_refl eq_refl eq_refl eq_refl eq_refl eq_refl eq_refl
             ltac:(discriminate)).
Defined.

(** An account is reported as bonded exactly when it has no nominations. *)
Lemma staking_status_bonded (nodeClient : NodeApi.t) (nominator : SubstrateAddress)
  (nominations : option Nominations.t) (eraIndex : Z) (status : SubstrateStakingStatus) :
  getStakingStatus nodeClient nominator nominations eraIndex = Fulfilled status ->
  (status = bonded <-> nominations = None).
Proof.
  unfold getStakingStatus. destruct nominations as [n|]; cbn [bind].
  - destruct (if negb _ then _ else _) as [active| |]; cbn [bind]; try discriminate.
    intros H. injection H as <-.
    destruct active; [split; discriminate|].
    destruct (negb _ && negb false); split; discriminate.
  - intros H. injection H as <-. split; reflexivity.
Qed.

(** X8. The details of a nominator agree with the single queries of the
    controller: the balance is that of [getBalance], the delegatees are
    those of [getCurrentValidators], staking details are present exactly
    when the account has a staking ledger, they repeat the total and the
    active amount of the ledger, and their status is "bonded" exactly when
    [isNominating] answers no. *)
Theorem nominator_details_agree_with_queries :
  forall (ordinal : SubstrateStakingActionType -> Z) (api : StakingApi.t)
         (accountId : SubstrateAddress) (validatorIds : option (list SubstrateAddress))
         (details : NominatorDetails.t),
    getNominatorDetails ordinal api accountId validatorIds = Fulfilled details ->
    NominatorDetails.address details = accountId
    /\ getBalance (node api) accountId = Fulfilled (NominatorDetails.balance details)
    /\ getCurrentValidators api accountId
       = Fulfilled (NominatorDetails.delegatees details)
    /\ exists ledger,
         getStakingLedger api accountId = Fulfilled ledger
         /\ match ledger, NominatorDetails.stakingDetails details with
            | None, None => True
            | Some ledger, Some staking =>
                StakingDetails.total staking = StakingLedger.total ledger
                /\ StakingDetails.active staking = StakingLedger.active ledger
                /\ (StakingDetails.status staking = bonded
                    <-> isNominating api accountId = Fulfilled false)
            | _, _ => False
            end.
Proof.
  intros ordinal api accountId validatorIds details.
  unfold getNominatorDetails.
  destruct (all2 _ _) as [results| |] eqn:Hall; cbn [bind]; try discriminate.
  apply all2_inv in Hall. destruct Hall as [Hbalance Hall].
  apply all2_inv in Hall. destruct Hall as [_ Hall].
  apply all2_inv in Hall. destruct Hall as [Hledger Hall].
  apply all2_inv in Hall. destruct Hall as [Hnominations _].
  destruct results as (balance & transferable & ledger & nominations & activeEra
                       & duration & deposit).
  cbn [fst snd] in *.
  destruct activeEra as [activeEra|]; [|discriminate].
  destruct duration as [duration|]; [|discriminate].
  destruct (getStakingDetails _ _ _ _ _ _) as [staking| |] eqn:Hstaking; cbn [bind];
    try discriminate.
  destruct (getAvailableStakingActions _ _ _ _ _ _) as [actions| |]; cbn [bind];
    try discriminate.
  intros H. injection H as <-.
  cbn [NominatorDetails.address NominatorDetails.balance NominatorDetails.delegatees
       NominatorDetails.stakingDetails].
  split; [reflexivity|]. split; [exact Hbalance|]. split.
  - unfold getCurrentValidators. rewrite Hnominations. reflexivity.
  - exists ledger. split; [exact Hledger|].
    unfold getStakingDetails in Hstaking. destruct ledger as [ledger|].
    + destruct (all2 _ _) as [[status rewards]| |] eqn:Hboth; cbn [bind] in Hstaking;
        try discriminate.
      injection Hstaking as <-. apply all2_inv in Hboth. destruct Hboth as [Hstatus _].
      cbn [fst snd] in *.
      cbn [StakingDetails.total StakingDetails.active StakingDetails.status].
      split; [reflexivity|]. split; [reflexivity|].
      rewrite (staking_status_bonded _ _ _ _ _ Hstatus).
      unfold isNominating. rewrite Hnominations. cbn [bind].
      destruct nominations; split; congruence.
    + injection Hstaking as <-. exact I.
Qed.

(** The details of "acct": 5000 free, nominating v1 and v2, 1000 bonded of
    which 400 are active. *)
Lemma nominator_details_agree_with_queries_witness :
  exists details,
    getNominatorDetails Samples.declarationOrder (stakingApi (Some CLOSED)) "acct" None
    = Fulfilled details
    /\ getBalance (node (stakingApi (Some CLOSED))) "acct"
       = Fulfilled (NominatorDetails.balance details)
    /\ getCurrentValidators (stakingApi (Some CLOSED)) "acct"
       = Fulfilled (NominatorDetails.delegatees details)
    /\ NominatorDetails.delegatees details = ["v1"; "v2"]
    /\ option_map StakingDetails.total (NominatorDetails.stakingDetails details)
       = Some 1000.
Proof.
  eexists. split; [vm_compute; reflexivity|].
  pose proof (nominator_details_agree_with_queries Samples.declarationOrder
                (stakingApi (Some CLOSED)) "acct" None _
                ltac:(vm_compute; reflexivity)) as (_ & Hbalance & Hvalidators & _).
  split; [exact Hbalance|]. split; [exact Hvalidators|].
  split; reflexivity.
Defined.

(** X9. The details of a nominator need every answer of the node. When
    [getNominatorDetails] is fulfilled, the account info, the staking
    ledger, the nominations, the active era, the era duration and the
    existential deposit were all obtained, and the active era and the era
    duration are known. When all of them are obtained but the chain has no
    active era, or no era duration, the call is rejected with "Could not
    fetch nominator details". *)
Theorem nominator_details_need_every_answer :
  forall (ordinal : SubstrateStakingActionType -> Z) (api : StakingApi.t)
         (accountId : SubstrateAddress) (validatorIds : option (list SubstrateAddress)),
    (forall details,
       getNominatorDetails ordinal api accountId validatorIds = Fulfilled details ->
       exists info ledger nominations activeEra duration deposit,
         getAccountInfo (node api) accountId = Fulfilled info
         /\ getStakingLedger api accountId = Fulfilled ledger
         /\ getNominations (node api) accountId = Fulfilled nominations
         /\ getActiveEraInfo (node api) = Fulfilled (Some activeEra)
         /\ getExpectedEraDuration (node api) = Fulfilled (Some duration)
         /\ getExistentialDeposit (node api) = Fulfilled deposit)
    /\ (forall info ledger nominations activeEra duration deposit,
          getAccountInfo (node api) accountId = Fulfilled info ->
          getStakingLedger api accountId = Fulfilled ledger ->
          getNominations (node api) accountId = Fulfilled nominations ->
          getActiveEraInfo (node api) = Fulfilled activeEra ->
          getExpectedEraDuration (node api) = Fulfilled duration ->
          getExistentialDeposit (node api) = Fulfilled deposit ->
          activeEra = None \/ duration = None ->
          getNominatorDetails ordinal api accountId validatorIds
          = Rejected (Reason "Could not fetch nominator details.")).
Proof.
  intros ordinal api accountId validatorIds. split.
  - intros details. unfold getNominatorDetails.
    destruct (all2 _ _) as [results| |] eqn:Hall; cbn [bind]; try discriminate.
    apply all2_inv in Hall. destruct Hall as [Hbalance Hall].
    apply all2_inv in Hall. destruct Hall as [_ Hall].
    apply all2_inv in Hall. destruct Hall as [Hledger Hall].
    apply all2_inv in Hall. destruct Hall as [Hnominations Hall].
    apply all2_inv in Hall. destruct Hall as [Hera Hall].
    apply all2_inv in Hall. destruct Hall as [Hduration Hdeposit].
    destruct results as (balance & transferable & ledger & nominations & activeEra
                         & duration & deposit).
    cbn [fst snd] in *.
    destruct activeEra as [activeEra|]; [|discriminate].
    destruct duration as [duration|]; [|discriminate].
    intros _. unfold getBalance in Hbalance.
    destruct (getAccountInfo (node api) accountId) as [info| |]; try discriminate.
    exists info, ledger, nominations, activeEra, duration, deposit.
    repeat split; assumption.
  - intros info ledger nominations activeEra duration deposit
           Hinfo Hledger Hnominations Hera Hduration Hdeposit Hmissing.
    unfold getNominatorDetails, getBalance, getTransferableBalance.
    rewrite Hinfo, Hledger, Hnominations, Hera, Hduration, Hdeposit.
    cbv beta iota zeta delta [bind all2 then_ fst snd].
    destruct info; destruct Hmissing as [-> | ->]; try reflexivity;
      destruct activeEra; reflexivity.
Qed.

(** A chain without an active era. *)
Lemma nominator_details_need_every_answer_witness :
  getNominatorDetails Samples.declarationOrder
    {| node := Samples.electionNode (Some CLOSED);
       getStakingLedger := fun _ => Fulfilled None;
       getBonded := fun _ => Fulfilled None |} "acct" None
  = Rejected (Reason "Could not fetch nominator details.").
Proof.
  apply (proj2 (nominator_details_need_every_answer Samples.declarationOrder
                  {| node := Samples.electionNode (Some CLOSED);
                     getStakingLedger := fun _ => Fulfilled None;
                     getBonded := fun _ => Fulfilled None |} "acct" None)
           None None None None None 1);
    try reflexivity.
  left. reflexivity.
Defined.

End NominatorDetailsFacts.

(** ** The list of nominator rewards *)
Module RewardListFacts.
Import NodeApi AsyncFacts SubstrateAccountController Spec Samples.

Lemma present_cons_some {A : Type} (a : A) (array : list (option A)) :
  present (Some a :: array) = a :: present array.
Proof. reflexivity. Qed.

Lemma present_cons_none {A : Type} (array : list (option A)) :
  present (None :: array) = present array.
Proof. reflexivity. Qed.

(** Filtering the answers of a list of queries keeps their order: when
    every answer carries the label of its query and the labels of the
    queries decrease, so do the labels of the answers that are kept. *)
Lemma present_descending {A : Type} (label : A -> Z) (P : A -> Prop)
  (queries : list Z) (answers : list (option A)) :
  Forall2 (fun query answer => forall a, answer = Some a -> label a = query /\ P a)
          queries answers ->
  StronglySorted (fun x y => y < x) queries ->
  StronglySorted (fun a b => label b < label a) (present answers)
  /\ Forall (fun a => In (label a) queries /\ P a) (present answers)
  /\ (List.length (present answers) <= List.length queries)%nat.
Proof.
  induction 1 as [|query answer queries answers Hlabel _ IH]; intros Hsorted.
  - repeat split; constructor.
  - apply StronglySorted_inv in Hsorted. destruct Hsorted as [Hrest Hquery].
    destruct (IH Hrest) as (IHsorted & IHin & IHlen).
    assert (Hin : Forall (fun a => In (label a) (query :: queries) /\ P a) (present answers)).
    { eapply Forall_impl; [|exact IHin]. intros a [Ha HP]. split; [right|]; assumption. }
    destruct answer as [a|].
    + rewrite present_cons_some. destruct (Hlabel a eq_refl) as [Ha HP].
      split; [|split].
      * constructor; [exact IHsorted|].
        rewrite Forall_forall in *. intros b Hb. rewrite Ha.
        apply Hquery. apply (IHin b Hb).
      * constructor; [|exact Hin]. split; [left; symmetry; exact Ha | exact HP].
      * simpl. lia.
    + rewrite present_cons_none. split; [exact IHsorted|]. split; [exact Hin|].
      simpl. lia.
Qed.

(** The eras that a count stands for: the [count] eras before the active
    one, the most recent first. *)
Lemma eraIndicesOf_count (activeEra : ActiveEraInfo.t) (count : nat) :
  StronglySorted (fun x y => y < x) (eraIndicesOf activeEra (inl count))
  /\ List.length (eraIndicesOf activeEra (inl count)) = count
  /\ forall era, In era (eraIndicesOf activeEra (inl count)) ->
       ActiveEraInfo.index activeEra - Z.of_nat count <= era < ActiveEraInfo.index activeEra.
Proof.
  unfold eraIndicesOf. split; [|split].
  - generalize 0%nat as first.
    induction count as [|count IH]; intros first; simpl; constructor.
    + apply IH.
    + apply Forall_forall. intros era Hera. apply in_map_iff in Hera.
      destruct Hera as (index & <- & Hindex). apply in_seq in Hindex. lia.
  - rewrite length_map, length_seq. reflexivity.
  - intros era Hera. apply in_map_iff in Hera.
    destruct Hera as (index & <- & Hindex). apply in_seq in Hindex. lia.
Qed.

(** What [findIndex] finds: nothing, or the place of an element that
    satisfies the test. *)
Lemma findIndexFrom_spec {A : Type} (p : A -> bool) (array : list A) :
  forall start : Z,
    0 <= start ->
    let index := JsArray.findIndexFrom p array start in
    (index = -1 /\ forall x, In x array -> p x = false)
    \/ (start <= index
        /\ exists x, nth_error array (Z.to_nat (index - start)) = Some x /\ p x = true).
Proof.
  induction array as [|x array IH]; intros start Hstart; simpl.
  - left. split; [reflexivity | intros x []].
  - destruct (p x) eqn:Hx.
    + right. split; [lia|]. exists x. rewrite Z.sub_diag. split; [reflexivity | exact Hx].
    + destruct (IH (start + 1) ltac:(lia)) as [[Hnone Hall] | [Hle (y & Hy & Hpy)]].
      * left. split; [exact Hnone|]. intros y [<-|Hin]; [exact Hx | apply Hall, Hin].
      * right. split; [lia|]. exists y. split; [|exact Hpy].
        replace (Z.to_nat (JsArray.findIndexFrom p array (start + 1) - start))
          with (S (Z.to_nat (JsArray.findIndexFrom p array (start + 1) - (start + 1))))
          by lia.
        exact Hy.
Qed.

(** X10. The exposures listed with the reward of an era. Every entry names
    one of the queried validators for which a clipped exposure is stored,
    and every such validator has an entry. The index of an entry is the
    place of the account among the nominators of that exposure, counted
    from 0, and it is -1 when the exposure does not list the account: a
    validator that exposed other nominators only is listed all the same. *)
Theorem reward_exposures_point_at_the_account :
  forall (nodeClient : NodeApi.t) (accountId : SubstrateAddress)
         (validators : list SubstrateAddress) (era : Z) (partial : PartialRewardDetails),
    calculateEraNominatorReward nodeClient accountId validators era
    = Fulfilled (Some partial) ->
    (forall validator index,
       In (validator, index) (partialExposures partial) ->
       In validator validators
       /\ exists exposure,
            getStakersClipped nodeClient era validator = Fulfilled (Some exposure)
            /\ (index = -1 /\ ~ In accountId (map fst (Exposure.others exposure))
                \/ 0 <= index
                   /\ exists stake,
                        nth_error (Exposure.others exposure) (Z.to_nat index)
                        = Some (accountId, stake)))
    /\ (forall validator exposure,
          In validator validators ->
          getStakersClipped nodeClient era validator = Fulfilled (Some exposure) ->
          exists index, In (validator, index) (partialExposures partial)).
Proof.
  intros nodeClient accountId validators era partial.
  unfold calculateEraNominatorReward.
  destruct (all2 _ _) as [results| |] eqn:Hall; cbn [bind]; try discriminate.
  apply all2_inv in Hall. destruct Hall as [_ Hall].
  apply all2_inv in Hall. destruct Hall as [_ Hentries].
  apply all_map_inv in Hentries.
  destruct results as [reward [points entries]]. cbn [fst snd] in *.
  destruct reward as [reward|]; [|discriminate].
  destruct points as [points|]; [|discriminate].
  destruct (forallb _ _); [discriminate|].
  intros H. injection H as <-. cbn [partialExposures]. split.
  - intros validator index Hin.
    apply NominatorRewardFacts.in_present in Hin. apply in_map_iff in Hin.
    destruct Hin as ([[validator' commission] exposure] & Hentry & Hin).
    destruct (NominatorRewardFacts.Forall2_In_r _ _ _ _ Hentries Hin)
      as (queried & Hqueried & Hanswer).
    apply NominatorRewardFacts.validator_entry in Hanswer.
    destruct Hanswer as (prefs & exposure' & _ & Hexposure & Heq).
    injection Heq as -> _ ->.
    destruct exposure' as [exposure|]; [|discriminate].
    cbn [option_map] in Hentry. injection Hentry as <- <-.
    split; [exact Hqueried|]. exists exposure. split; [exact Hexposure|].
    unfold JsArray.findIndex.
    destruct (findIndexFrom_spec
                (fun element : SubstrateAddress * Z => String.eqb (fst element) accountId)
                (Exposure.others exposure) 0 ltac:(lia))
      as [[Hnone Hall] | [Hle ([account stake] & Hnth & Heq)]].
    + left. split; [exact Hnone|]. intros Hlisted. apply in_map_iff in Hlisted.
      destruct Hlisted as (element & Hfst & Helement).
      specialize (Hall element Helement). rewrite Hfst, String.eqb_refl in Hall.
      discriminate.
    + right. split; [exact Hle|]. exists stake. rewrite Z.sub_0_r in Hnth.
      cbn [fst] in Heq. apply String.eqb_eq in Heq. subst account. exact Hnth.
  - intros validator exposure Hqueried Hexposure.
    destruct (NominatorRewardFacts.Forall2_In_l _ _ _ _ Hentries Hqueried)
      as (entry & Hin & Hanswer).
    apply NominatorRewardFacts.validator_entry in Hanswer.
    destruct Hanswer as (prefs & exposure' & _ & Hexposure' & ->).
    rewrite Hexposure in Hexposure'. injection Hexposure' as <-.
    eexists. apply NominatorRewardFacts.in_present. apply in_map_iff.
    eexists. split; [|exact Hin]. reflexivity.
Qed.

(** Era 5 of the sample node: the account is the first nominator in the
    exposure of v1, and v2 has no exposure stored. *)
Lemma reward_exposures_point_at_the_account_witness :
  calculateEraNominatorReward rewardNode "acct" ["v1"; "v2"] 5
  = Fulfilled (Some {| partialEraIndex := 5; partialAmount := "45";
                       partialExposures := [("v1", 0)] |})
  /\ exists exposure,
       getStakersClipped rewardNode 5 "v1" = Fulfilled (Some exposure)
       /\ (0 = -1 /\ ~ In "acct" (map fst (Exposure.others exposure))
           \/ 0 <= 0
              /\ exists stake,
                   nth_error (Exposure.others exposure) (Z.to_nat 0)
                   = Some ("acct", stake)).
Proof.
  assert (H : calculateEraNominatorReward rewardNode "acct" ["v1"; "v2"] 5
              = Fulfilled (Some {| partialEraIndex := 5; partialAmount := "45";
                                   partialExposures := [("v1", 0)] |}))
    by (vm_compute; reflexivity).
  split; [exact H|].
  apply (proj1 (reward_exposures_point_at_the_account rewardNode "acct" ["v1"; "v2"] 5
                  _ H) "v1" 0).
  left. reflexivity.
Defined.

(** X11. Asked for the last [count] eras, [getNominatorRewards] lists the
    rewards newest first: the era indices of the entries strictly decrease,
    each lies among the [count] eras before the active one, and there are at
    most [count] entries. When the start of the active era is known, the
    entry of an era other than era 0 is stamped with that start minus one
    era duration for every era that lies between it and the active era,
    turned into a JavaScript number: the timestamp is the number nearest
    to that instant, and the entry of the era before the active one carries
    the number of the start itself. *)
Theorem nominator_rewards_newest_first :
  forall (nodeClient : NodeApi.t) (accountId : SubstrateAddress)
         (validators : list SubstrateAddress) (activeEra : ActiveEraInfo.t)
         (count : nat) (rewards : list SubstrateNominatorRewardDetails),
    getNominatorRewards nodeClient accountId validators activeEra (inl count)
    = Fulfilled rewards ->
    StronglySorted (fun a b => eraIndex b < eraIndex a) rewards
    /\ Forall (fun reward =>
                 ActiveEraInfo.index activeEra - Z.of_nat count <= eraIndex reward
                 < ActiveEraInfo.index activeEra) rewards
    /\ (List.length rewards <= count)%nat
    /\ exists duration,
         getExpectedEraDuration nodeClient = Fulfilled (Some duration)
         /\ forall start, ActiveEraInfo.start activeEra = Some start ->
              Forall (fun reward =>
                        eraIndex reward <> 0 ->
                        timestamp reward
                        = BigNumber.toNumber
                            (start - duration
                                     * (ActiveEraInfo.index activeEra - eraIndex reward - 1)))
                     rewards.
Proof.
  intros nodeClient accountId validators activeEra count rewards.
  unfold getNominatorRewards.
  destruct (getExpectedEraDuration nodeClient) as [[duration|]| |]; cbn [bind];
    try discriminate.
  destruct (all _) as [results| |] eqn:Hall; cbn [bind]; try discriminate.
  intros H. injection H as <-. apply all_map_inv in Hall.
  destruct (eraIndicesOf_count activeEra count) as (Hsorted & Hlength & Hrange).
  destruct (present_descending eraIndex
              (fun reward =>
                 forall start, ActiveEraInfo.start activeEra = Some start ->
                   eraIndex reward <> 0 ->
                   timestamp reward
                   = BigNumber.toNumber
                       (start - duration
                                * (ActiveEraInfo.index activeEra - eraIndex reward - 1)))
              (eraIndicesOf activeEra (inl count)) results) as (Hdesc & Hin & Hlen).
  - eapply Forall2_impl; [|exact Hall].
    intros era result Hresult reward ->.
    destruct (calculateEraNominatorReward nodeClient accountId validators era)
      as [[partial|]| |] eqn:Hcalc; try discriminate.
    destruct (NominatorRewardFacts.calculateEraNominatorReward_some _ _ _ _ _ Hcalc)
      as [_ Hlabel].
    specialize (Hlabel partial eq_refl).
    cbn [then_ bind option_map] in Hresult. injection Hresult as <-.
    cbn [eraIndex timestamp withTimestamp]. split; [exact Hlabel|].
    intros start -> Hera.
    destruct (Z.eqb_spec (partialEraIndex partial) 0); [contradiction | reflexivity].
  - exact Hsorted.
  - split; [exact Hdesc|]. split; [|split].
    + eapply Forall_impl; [|exact Hin]. intros reward [Hera _]. apply Hrange, Hera.
    + rewrite Hlength in Hlen. exact Hlen.
    + exists duration. split; [reflexivity|]. intros start Hstart.
      eapply Forall_impl; [|exact Hin]. intros reward [_ Hstamp]. apply Hstamp, Hstart.
Qed.

(** Three eras back from era 6, on a node where every era pays alike. *)
Lemma nominator_rewards_newest_first_witness :
  getNominatorRewards StakingSamples.steadyNode "acct" ["v1"] StakingSamples.sampleEra
    (inl 3%nat) = Fulfilled StakingSamples.steadyRewards
  /\ StronglySorted (fun a b => eraIndex b < eraIndex a) StakingSamples.steadyRewards
  /\ (List.length StakingSamples.steadyRewards <= 3)%nat.
Proof.
  assert (H : getNominatorRewards StakingSamples.steadyNode "acct" ["v1"]
                StakingSamples.sampleEra (inl 3%nat)
              = Fulfilled StakingSamples.steadyRewards) by (vm_compute; reflexivity).
  pose proof (nominator_rewards_newest_first StakingSamples.steadyNode "acct" ["v1"]
                StakingSamples.sampleEra 3 StakingSamples.steadyRewards H)
    as (Hsorted & _ & Hlength & _).
  split; [exact H|]. split; [exact Hsorted | exact Hlength].
Defined.

End RewardListFacts.

(** ** Bounds of the rewards *)
Module RewardBoundFacts.
Import BigNumber SubstrateAccountController Spec RewardFacts.
Local Open Scope Q_scope.

Lemma inject_Z_scale_pos : 0 < inject_Z scale.
Proof. unfold Qlt. cbn [Qnum Qden inject_Z]. pose proof scale_pos. lia. Qed.

(** Rounding to an integer does not leave an interval with integer ends. *)
Lemma roundHalfUp_bounds (x : Q) (n : Z) :
  0 <= x -> x <= inject_Z n -> (0 <= roundHalfUp x <= n)%Z.
Proof.
  destruct x as [a d]. unfold Qle, roundHalfUp. cbn [Qnum Qden inject_Z].
  intros Ha Hn.
  assert (Hd : (0 < Zpos d)%Z) by lia.
  assert (Ha' : (0 <= a)%Z) by lia.
  destruct (Z.leb_spec 0 a); [|lia]. split.
  - apply Z.div_pos; lia.
  - assert (H' : ((2 * a + Zpos d) / (2 * Zpos d) < n + 1)%Z).
    { apply Z.div_lt_upper_bound; [lia | nia]. }
    lia.
Qed.

(** A division of a part by the whole yields a share between 0 and 1,
    also after rounding. *)
Lemma roundDP_share (part whole : Z) :
  (0 <= part <= whole)%Z -> (0 < whole)%Z ->
  0 <= roundDP (inject_Z part / inject_Z whole)
  /\ roundDP (inject_Z part / inject_Z whole) <= 1.
Proof.
  intros Hpart Hwhole.
  assert (Hw : 0 < inject_Z whole).
  { unfold Qlt. cbn [Qnum Qden inject_Z]. lia. }
  assert (Hq0 : 0 <= inject_Z part / inject_Z whole).
  { apply Qle_shift_div_l; [exact Hw|]. rewrite Qmult_0_l.
    unfold Qle. cbn [Qnum Qden inject_Z]. lia. }
  assert (Hq1 : inject_Z part / inject_Z whole <= 1).
  { apply Qle_shift_div_r; [exact Hw|]. rewrite Qmult_1_l.
    unfold Qle. cbn [Qnum Qden inject_Z]. lia. }
  pose proof inject_Z_scale_pos as Hs.
  destruct (roundHalfUp_bounds (inject_Z part / inject_Z whole * inject_Z scale) scale)
    as [Hlow Hhigh].
  - apply Qmult_le_0_compat; [exact Hq0 | apply Qlt_le_weak, Hs].
  - rewrite <- (Qmult_1_l (inject_Z scale)) at 2.
    apply Qmult_le_compat_r; [exact Hq1 | apply Qlt_le_weak, Hs].
  - rewrite roundDP_unfold. split.
    + apply Qle_shift_div_l; [exact Hs|]. rewrite Qmult_0_l.
      unfold Qle. cbn [Qnum Qden inject_Z]. lia.
    + apply Qle_shift_div_r; [exact Hs|]. rewrite Qmult_1_l.
      unfold Qle. cbn [Qnum Qden inject_Z]. lia.
Qed.

Lemma Qmult_share (share amount : Q) :
  0 <= share -> share <= 1 -> 0 <= amount ->
  0 <= share * amount /\ share * amount <= amount.
Proof.
  intros Hlow Hhigh Hamount. split.
  - apply Qmult_le_0_compat; assumption.
  - rewrite <- (Qmult_1_l amount) at 2. apply Qmult_le_compat_r; assumption.
Qed.

(** What is left after the commission is a share between 0 and 1. *)
Lemma commission_share (c : Z) :
  (0 <= c <= 1000000000)%Z ->
  0 <= 1 - inject_Z c / inject_Z 1000000000
  /\ 1 - inject_Z c / inject_Z 1000000000 <= 1.
Proof.
  intros Hc. unfold Qle, Qminus, Qplus, Qopp, Qdiv, Qmult, Qinv.
  cbn [Qnum Qden inject_Z]. split; lia.
Qed.

(** X12. Nobody is paid more than there is: for a non-negative payout, at
    most all of the points and of the stake, and a commission between 0
    and 100%, the validator reward lies between 0 and the payout of the era
    and the nominator reward between 0 and the validator reward. The
    rounding of the two quotients never lifts a reward over these bounds. *)
Theorem rewards_within_the_payout :
  forall R P p c S s : Z,
    (0 <= R)%Z -> (0 < P)%Z -> (0 <= p <= P)%Z ->
    (0 <= c <= 1000000000)%Z -> (0 < S)%Z -> (0 <= s <= S)%Z ->
    exists validatorReward nominatorReward : Q,
      calculateValidatorReward R P p = Fin validatorReward
      /\ calculateNominatorReward (Fin validatorReward) c S s = Fin nominatorReward
      /\ 0 <= nominatorReward
      /\ nominatorReward <= validatorReward
      /\ validatorReward <= inject_Z R.
Proof.
  intros R P p c S s HR HP Hp Hc HS Hs.
  assert (HR' : 0 <= inject_Z R).
  { unfold Qle. cbn [Qnum Qden inject_Z]. lia. }
  destruct (roundDP_share p P Hp HP) as [Hp0 Hp1].
  destruct (roundDP_share s S Hs HS) as [Hs0 Hs1].
  destruct (commission_share c Hc) as [Hc0 Hc1].
  exists (Qred (roundDP (inject_Z p / inject_Z P) * inject_Z R)).
  assert (Hv : calculateValidatorReward R P p
               = Fin (Qred (roundDP (inject_Z p / inject_Z P) * inject_Z R))).
  { unfold calculateValidatorReward.
    rewrite (dividedBy_integers p P) by lia. reflexivity. }
  pose proof (calculateNominatorReward_value
                (Qred (roundDP (inject_Z p / inject_Z P) * inject_Z R)) c S s
                ltac:(lia)) as Hn.
  destruct (calculateNominatorReward _ c S s) as [n| |]; cbn [eqv] in Hn;
    try contradiction.
  exists n. split; [exact Hv|]. split; [reflexivity|].
  destruct (Qmult_share _ _ Hp0 Hp1 HR') as [Hv0 Hv1].
  rewrite Hn, !Qred_correct.
  destruct (Qmult_share _ _ Hc0 Hc1 Hv0) as [Hk0 Hk1].
  split; [|split].
  - apply Qmult_le_0_compat; assumption.
  - rewrite Qmult_comm. destruct (Qmult_share _ _ Hs0 Hs1 Hk0) as [_ Hle].
    eapply Qle_trans; [exact Hle | exact Hk1].
  - exact Hv1.
Qed.

(** The example of the specification: of a payout of 100 the validator
    earns 25, of which the nominator gets 2.25. *)
Lemma rewards_within_the_payout_witness :
  exists validatorReward nominatorReward : Q,
    calculateValidatorReward 100 1000 250 = Fin validatorReward
    /\ calculateNominatorReward (Fin validatorReward) 100000000 5000 500
       = Fin nominatorReward
    /\ 0 <= nominatorReward
    /\ nominatorReward <= validatorReward
    /\ validatorReward <= inject_Z 100.
Proof.
  apply (rewards_within_the_payout 100 1000 250 100000000 5000 500); lia.
Defined.

(** X13. The validator reward is off the exact share of the payout by at
    most half a unit of the twentieth decimal for each unit paid out:
    |reward - (p / P) * R| <= R / (2 * 10^20) for a payout R >= 0. *)
Theorem validator_reward_error :
  forall R P p : Z,
    (0 <= R)%Z -> P <> 0%Z ->
    exists validatorReward : Q,
      calculateValidatorReward R P p = Fin validatorReward
      /\ Qabs (validatorReward - inject_Z p / inject_Z P * inject_Z R)
         <= (1 # 2) / inject_Z scale * inject_Z R.
Proof.
  intros R P p HR HP.
  assert (HR' : 0 <= inject_Z R).
  { unfold Qle. cbn [Qnum Qden inject_Z]. lia. }
  exists (Qred (roundDP (inject_Z p / inject_Z P) * inject_Z R)). split.
  - unfold calculateValidatorReward.
    rewrite (dividedBy_integers p P HP). reflexivity.
  - rewrite Qred_correct.
    setoid_replace (roundDP (inject_Z p / inject_Z P) * inject_Z R
                    - inject_Z p / inject_Z P * inject_Z R)
      with ((roundDP (inject_Z p / inject_Z P) - inject_Z p / inject_Z P) * inject_Z R)
      by ring.
    rewrite Qabs_Qmult, (Qabs_pos (inject_Z R)) by exact HR'.
    apply Qmult_le_compat_r; [apply roundDP_error | exact HR'].
Qed.

(** A third of a payout of 3: the reward is 10^-20 short of 1. *)
Lemma validator_reward_error_witness :
  exists validatorReward : Q,
    calculateValidatorReward 3 3 1 = Fin validatorReward
    /\ Qabs (validatorReward - inject_Z 1 / inject_Z 3 * inject_Z 3)
       <= (1 # 2) / inject_Z scale * inject_Z 3.
Proof.
  apply (validator_reward_error 3 3 1); [lia | discriminate].
Defined.

End RewardBoundFacts.

(** ** The lists of available actions *)
Module ActionFacts.
Import NodeApi SubstrateAccountController Spec ActionSpec.

Lemma sameType_eq (a b : SubstrateStakingActionType) : sameType a b = true <-> a = b.
Proof. destruct a, b; split; intros H; try reflexivity; discriminate. Qed.

Lemma offered_In (t : SubstrateStakingActionType) (actions : list DelegatorAction) :
  offered t actions = true <-> In t (map type actions).
Proof.
  unfold offered. rewrite existsb_exists, in_map_iff.
  split; intros [action [H1 H2]]; exists action.
  - apply sameType_eq in H2. split; assumption.
  - split; [assumption | apply sameType_eq; assumption].
Qed.

Lemma distinct_types_NoDup (types : list SubstrateStakingActionType) :
  distinct sameType types = true -> NoDup types.
Proof.
  induction types as [|t types IH]; simpl; intros H; constructor.
  - apply andb_prop in H. destruct H as [H _]. intros Hin.
    apply Bool.negb_true_iff in H.
    assert (Hex : existsb (sameType t) types = true).
    { apply existsb_exists. exists t. split; [exact Hin | apply sameType_eq; reflexivity]. }
    congruence.
  - apply IH. apply andb_prop in H. apply H.
Qed.

(** The rules of [getAvailableStakingActions], for every outcome of their
    tests. *)
Lemma rules_consistent (a c b u d e w f g : bool) :
  checkActions
    (when (a && negb b && negb u && e)
       [ {| type := BOND_NOMINATE; args := ["targets"; "controller"; "value"; "payee"] |} ]
     ++ when (c && b && negb u && e)
       [ {| type := BOND_EXTRA; args := ["value"] |} ]
     ++ when (b && negb d && negb u && e)
       [ {| type := NOMINATE; args := ["targets"] |};
         {| type := UNBOND; args := ["value"] |} ]
     ++ when (u && negb d && e)
       [ {| type := REBOND_NOMINATE; args := ["targets"; "value"] |} ]
     ++ when (u && d && e)
       [ {| type := REBOND_EXTRA; args := ["value"] |} ]
     ++ when (d && e)
       (if f then [ {| type := CANCEL_NOMINATION; args := ["value"] |} ]
        else if g then [ {| type := CHANGE_NOMINATION; args := ["targets"] |} ]
        else [])
     ++ when (w && e)
       [ {| type := WITHDRAW_UNBONDED; args := [] |} ]) = true.
Proof. destruct a, c, b, u, d, e, w, f, g; reflexivity. Qed.

Lemma checkActions_sound (actions : list DelegatorAction) :
  checkActions actions = true -> consistent (map type actions).
Proof.
  unfold checkActions, consistent. intros H.
  repeat (apply andb_prop in H; destruct H as [H ?]).
  split; [apply distinct_types_NoDup; exact H|]. clear H.
  pose proof (offered_In BOND_NOMINATE actions).
  pose proof (offered_In BOND_EXTRA actions).
  pose proof (offered_In NOMINATE actions).
  pose proof (offered_In UNBOND actions).
  pose proof (offered_In REBOND_NOMINATE actions).
  pose proof (offered_In REBOND_EXTRA actions).
  pose proof (offered_In CANCEL_NOMINATION actions).
  pose proof (offered_In CHANGE_NOMINATION actions).
  unfold exclusive.
  destruct (offered BOND_NOMINATE actions), (offered BOND_EXTRA actions),
    (offered NOMINATE actions), (offered UNBOND actions),
    (offered REBOND_NOMINATE actions), (offered REBOND_EXTRA actions),
    (offered CANCEL_NOMINATION actions), (offered CHANGE_NOMINATION actions);
    try discriminate;
    simpl; intuition (subst; intuition discriminate).
Qed.

Lemma consistent_perm (types types' : list SubstrateStakingActionType) :
  Permutation types types' -> consistent types -> consistent types'.
Proof.
  intros Hperm (Hdistinct & Hbond & Hrebond & Hpair & Hrebonds & Hchange).
  assert (Hin : forall t, In t types' -> In t types).
  { intros t. apply Permutation_in, Permutation_sym, Hperm. }
  assert (Hin' : forall t, In t types -> In t types').
  { intros t. apply Permutation_in, Hperm. }
  assert (Hexclusive : forall t u, exclusive t u types -> exclusive t u types').
  { intros t u H [Ht Hu]. apply H. split; apply Hin; assumption. }
  unfold consistent. repeat split.
  - apply (Permutation_NoDup Hperm Hdistinct).
  - intros t Ht. apply Hexclusive, Hbond, Ht.
  - intros t t' Ht Ht'. apply Hexclusive, Hrebond; assumption.
  - intros H. apply Hin', Hpair, Hin, H.
  - intros H. apply Hin', Hpair, Hin, H.
  - apply Hexclusive, Hrebonds.
  - apply Hexclusive, Hchange.
Qed.

Lemma StronglySorted_weaken {A : Type} (R R' : A -> A -> Prop) (l : list A) :
  (forall x y, R x y -> R' x y) -> StronglySorted R l -> StronglySorted R' l.
Proof.
  intros HR. induction 1 as [|x l _ IH Hx]; constructor; [exact IH|].
  eapply Forall_impl; [|exact Hx]. intros y. apply HR.
Qed.

(** X14. Every list of available actions is consistent. It is ordered by
    the number of the action type and offers no type twice; bonding for
    the first time is never offered together with an action on an existing
    bond; a rebond is never offered together with BOND_EXTRA, NOMINATE or
    UNBOND; NOMINATE and UNBOND are offered together or not at all; and at
    most one of the two rebonds and one of CANCEL_NOMINATION and
    CHANGE_NOMINATION is offered. *)
Theorem available_actions_are_consistent :
  forall (ordinal : SubstrateStakingActionType -> Z) (nodeClient : NodeApi.t)
         (stakingDetails : option SubstrateStakingDetails)
         (nominations : option Nominations.t) (validatorIds : list SubstrateAddress)
         (maxDelegationValue : Z) (actions : list DelegatorAction),
    getAvailableStakingActions ordinal nodeClient stakingDetails nominations validatorIds
      maxDelegationValue = Fulfilled actions ->
    let types := map type actions in
    StronglySorted (fun x y => ordinal (type x) <= ordinal (type y)) actions
    /\ NoDup types
    /\ (forall t, In t [BOND_EXTRA; NOMINATE; UNBOND; REBOND_NOMINATE; REBOND_EXTRA] ->
        exclusive BOND_NOMINATE t types)
    /\ (forall t t', In t [REBOND_NOMINATE; REBOND_EXTRA] ->
                     In t' [BOND_EXTRA; NOMINATE; UNBOND] -> exclusive t t' types)
    /\ (In NOMINATE types <-> In UNBOND types)
    /\ exclusive REBOND_NOMINATE REBOND_EXTRA types
    /\ exclusive CANCEL_NOMINATION CHANGE_NOMINATION types.
Proof.
  intros ordinal nodeClient stakingDetails nominations validatorIds maxDelegationValue
         actions.
  unfold getAvailableStakingActions.
  destruct (getExistentialDeposit nodeClient) as [minBondingValue| |]; cbn [bind];
    try discriminate.
  destruct (getElectionStatus nodeClient) as [electionStatus| |]; cbn [bind];
    try discriminate.
  intros H. injection H as <-. cbv zeta.
  match goal with
  | |- context [JsArray.sort (byType ordinal) ?l] => set (rules := l)
  end.
  split.
  - apply (StronglySorted_weaken (notBehind (byType ordinal))).
    + unfold notBehind, byType. intros x y Hxy. lia.
    + apply SortFacts.sort_sorted; unfold byType; intros; lia.
  - change (consistent (map type (JsArray.sort (byType ordinal) rules))).
    apply (consistent_perm (map type rules)).
    + apply Permutation_map, Permutation_sym, SortFacts.sort_perm.
    + apply checkActions_sound. subst rules. apply rules_consistent.
Qed.

(** The actions offered to an account with every precondition met, once
    the election is closed. *)
Lemma available_actions_are_consistent_witness :
  exists actions,
    getAvailableStakingActions Samples.declarationOrder (Samples.electionNode (Some CLOSED))
      (Some Samples.busyDetails) (Some Samples.busyNominations) ["v1"; "v3"] 1000
    = Fulfilled actions
    /\ map type actions = [CHANGE_NOMINATION; REBOND_EXTRA; WITHDRAW_UNBONDED]
    /\ NoDup (map type actions)
    /\ exclusive REBOND_NOMINATE REBOND_EXTRA (map type actions).
Proof.
  eexists. split; [vm_compute; reflexivity|]. split; [reflexivity|].
  pose proof (available_actions_are_consistent Samples.declarationOrder
                (Samples.electionNode (Some CLOSED)) (Some Samples.busyDetails)
                (Some Samples.busyNominations) ["v1"; "v3"] 1000 _
                ltac:(vm_compute; reflexivity)) as (_ & Hdistinct & _ & _ & _ & Hrebonds & _).
  split; [exact Hdistinct | exact Hrebonds].
Defined.

End ActionFacts.

(** ** utils/array.ts: chunks of every size *)
Module ChunkFacts.
Import ArrayUtils.

(** X15. A chunk size of 0 makes [chunkedArray] throw: the inverse of the
    chunk size is then infinite, the number of chunks is infinite or not a
    number, and [new Array] refuses it with a RangeError. The loop, which
    would never advance, is not reached, whatever the array is. *)
Theorem chunkedArray_of_size_zero :
  forall (T : Type) (array : list T),
    chunkedArray array 0 = Rejected (RangeError "Invalid array length").
Proof.
  intros T array. unfold chunkedArray.
  change (Number.div (Number.ofZ 1) (Number.ofZ (Z.of_nat 0)))
    with (SpecFloat.S754_infinity false).
  destruct (Number.ofZ (Z.of_nat (List.length array))) as [s|s| |s m e];
    try destruct s; reflexivity.
Qed.

Section RoundTrip.
Context {T : Type}.

Lemma flatten_holes (holes : @Sparse T) :
  Forall (fun slot => slot = None) holes ->
  forall flatten : list T,
    fold_left (fun flatten next =>
                 match next with
                 | Some next => flatten ++ next
                 | None => flatten
                 end) holes flatten = flatten.
Proof.
  induction 1 as [|slot holes -> _ IH]; intros flatten.
  - reflexivity.
  - exact (IH flatten).
Qed.

(** Holes behind the chunks do not show in the flattened array. *)
Lemma flattenArray_app (filled holes : @Sparse T) :
  Forall (fun slot => slot = None) holes ->
  flattenArray (filled ++ holes) = flattenArray filled.
Proof.
  intros H. unfold flattenArray. rewrite fold_left_app.
  apply (flatten_holes holes H).
Qed.

Lemma flattenArray_snoc (filled : @Sparse T) (chunk : list T) :
  flattenArray (filled ++ [Some chunk]) = flattenArray filled ++ chunk.
Proof. unfold flattenArray. rewrite fold_left_app. reflexivity. Qed.

(** Writing the slot just behind the filled ones. *)
Lemma assign_next (filled holes : @Sparse T) (chunk : list T) :
  assign (filled ++ holes) (List.length filled) chunk
  = (filled ++ [Some chunk]) ++ tl holes.
Proof.
  induction filled as [|slot filled IH]; simpl.
  - destruct holes; reflexivity.
  - rewrite IH. reflexivity.
Qed.

Lemma firstn_slice (array : list T) (i n : nat) :
  firstn i array ++ JsArray.slice array i (i + n) = firstn (i + n) array.
Proof.
  unfold JsArray.slice. replace (i + n - i)%nat with n by lia.
  revert array. induction i as [|i IH]; intros array; simpl.
  - reflexivity.
  - destruct array as [|x array]; simpl.
    + rewrite firstn_nil. reflexivity.
    + rewrite IH. reflexivity.
Qed.

(** The loop, started behind [k] chunks that are in place, puts the
    others in place, as long as it computes the slot of each chunk right. *)
Lemma chunkLoop_in_place (array : list T) (chunkSize : nat)
  (chunkSizeInverse : Number.t) :
  (1 <= chunkSize)%nat ->
  (forall k, (k * chunkSize < List.length array)%nat ->
     Number.floor (Number.mul (Number.ofZ (Z.of_nat (k * chunkSize))) chunkSizeInverse)
     = Some (Z.of_nat k)) ->
  forall (steps k : nat) (filled holes : @Sparse T),
    (List.length array <= k * chunkSize + steps)%nat ->
    List.length filled = k ->
    flattenArray filled = firstn (k * chunkSize) array ->
    Forall (fun slot => slot = None) holes ->
    flattenArray (chunkLoop steps array chunkSize chunkSizeInverse (k * chunkSize)
                    (filled ++ holes)) = array.
Proof.
  intros Hsize Hslot.
  induction steps as [|steps IH]; intros k filled holes Hsteps Hk Hfilled Hholes.
  - simpl. rewrite (flattenArray_app _ _ Hholes), Hfilled.
    apply firstn_all2. lia.
  - simpl. destruct (Nat.ltb_spec (k * chunkSize) (List.length array)) as [Hlt|Hge].
    + rewrite (Hslot k Hlt). unfold assignAt.
      destruct (Z.leb_spec 0 (Z.of_nat k)); [|lia].
      rewrite Nat2Z.id, <- Hk, assign_next, Hk.
      replace (k * chunkSize + chunkSize)%nat with (S k * chunkSize)%nat by lia.
      apply IH.
      * lia.
      * rewrite length_app. simpl. lia.
      * rewrite flattenArray_snoc, Hfilled.
        replace (S k * chunkSize)%nat with (k * chunkSize + chunkSize)%nat by lia.
        apply firstn_slice.
      * destruct Hholes; simpl; [constructor | assumption].
    + rewrite (flattenArray_app _ _ Hholes), Hfilled.
      apply firstn_all2. lia.
Qed.

End RoundTrip.

(** X16. Splitting an array into chunks and flattening them gives the
    array back whenever the slot of every chunk is computed right, that
    is, when for every chunk number k the floor of (k * chunkSize) times
    the inverse of the chunk size, in binary64 arithmetic, is k. Chunks are
    lost only through the rounding of that product. *)
Theorem chunkedArray_round_trip :
  forall (T : Type) (array : list T) (chunkSize : nat) (chunks : @Sparse T),
    (1 <= chunkSize)%nat ->
    (forall k, (k * chunkSize < List.length array)%nat ->
       Number.floor
         (Number.mul (Number.ofZ (Z.of_nat (k * chunkSize)))
            (Number.div (Number.ofZ 1) (Number.ofZ (Z.of_nat chunkSize))))
       = Some (Z.of_nat k)) ->
    chunkedArray array chunkSize = Fulfilled chunks ->
    flattenArray chunks = array.
Proof.
  intros T array chunkSize chunks Hsize Hslot. unfold chunkedArray.
  destruct (newArray _) as [holes| |] eqn:Hnew; cbn [bind]; try discriminate.
  intros H. injection H as <-.
  assert (Hholes : Forall (fun slot : option (list T) => slot = None) holes).
  { unfold newArray in Hnew.
    destruct (Number.ceil _) as [n|]; [|discriminate].
    destruct ((0 <=? n) && (n <? 2 ^ 32)); [|discriminate].
    injection Hnew as <-. apply Forall_forall. intros slot Hin.
    apply repeat_spec in Hin. exact Hin. }
  apply (chunkLoop_in_place array chunkSize _ Hsize Hslot (List.length array) 0 [] holes).
  - lia.
  - reflexivity.
  - reflexivity.
  - exact Hholes.
Qed.

(** Seven elements in chunks of three. *)
Lemma chunkedArray_round_trip_witness :
  chunkedArray [1; 2; 3; 4; 5; 6; 7] 3
  = Fulfilled [Some [1; 2; 3]; Some [4; 5; 6]; Some [7]]
  /\ flattenArray [Some [1; 2; 3]; Some [4; 5; 6]; Some [7]] = [1; 2; 3; 4; 5; 6; 7].
Proof.
  split; [vm_compute; reflexivity|].
  apply (chunkedArray_round_trip Z [1; 2; 3; 4; 5; 6; 7] 3).
  - lia.
  - intros k Hk. simpl in Hk.
    assert (Hcases : k = 0%nat \/ k = 1%nat \/ k = 2%nat) by lia.
    destruct Hcases as [-> | [-> | ->]]; vm_compute; reflexivity.
  - vm_compute. reflexivity.
Defined.

End ChunkFacts.

(** ** utils/array.ts: [shuffledArray] *)
Module ShuffleFacts.
Import ArrayShuffle.

Section Shuffle.
Context {T : Type}.

Lemma setAt_length (array : list (option T)) (k : nat) (v : option T) :
  (k < List.length array)%nat -> List.length (setAt array k v) = List.length array.
Proof.
  revert k. induction array as [|x array IH]; intros k Hk; simpl in Hk; [lia|].
  destruct k as [|k]; simpl; [reflexivity|]. rewrite IH by lia. reflexivity.
Qed.

Lemma setAt_same (array : list (option T)) (k : nat) (v : option T) :
  (k < List.length array)%nat -> nth_error (setAt array k v) k = Some v.
Proof.
  revert k. induction array as [|x array IH]; intros k Hk; simpl in Hk; [lia|].
  destruct k as [|k]; simpl; [reflexivity|]. apply IH. lia.
Qed.

Lemma setAt_other (array : list (option T)) (k m : nat) (v : option T) :
  (k < List.length array)%nat -> m <> k ->
  nth_error (setAt array k v) m = nth_error array m.
Proof.
  revert k m. induction array as [|x array IH]; intros k m Hk Hm; simpl in Hk; [lia|].
  destruct k as [|k], m as [|m]; simpl; try reflexivity; try lia.
  apply IH; lia.
Qed.

(** What the rounds [i], [i - 1], ..., 1 of the loop leave behind. *)
Lemma shuffleLoop_slots (random : nat -> nat) (array : list T) :
  (forall i, random i <= i)%nat ->
  forall (i : nat) (shuffled : list (option T)),
    List.length shuffled = List.length array ->
    (i < List.length array)%nat ->
    let result := shuffleLoop random array i shuffled in
    List.length result = List.length array
    /\ (forall m, (i < m)%nat -> nth_error result m = nth_error shuffled m)
    /\ (forall m, (1 <= m <= i)%nat ->
          nth_error result m = Some (nth_error array (random m)))
    /\ ((forall k, (1 <= k <= i)%nat -> random k <> 0%nat) ->
        nth_error result 0 = nth_error shuffled 0).
Proof.
  intros Hrandom. induction i as [|i IH]; intros shuffled Hlength Hi result.
  - subst result. simpl. split; [exact Hlength|]. split; [reflexivity|].
    split; [intros m Hm; lia | reflexivity].
  - subst result. cbn [shuffleLoop].
    pose proof (Hrandom (S i)) as Hj.
    set (j := random (S i)) in *.
    set (first := setAt shuffled (S i) (nth_error array j)).
    assert (Hfirst : List.length first = List.length array).
    { unfold first. rewrite setAt_length; [exact Hlength | lia]. }
    set (second := setAt first j (nth_error array (S i))).
    assert (Hsecond : List.length second = List.length array).
    { unfold second. rewrite setAt_length; [exact Hfirst | lia]. }
    destruct (IH second Hsecond ltac:(lia)) as (Hlen & Habove & Hbelow & Hzero).
    split; [exact Hlen|]. split; [|split].
    + intros m Hm. rewrite Habove by lia. unfold second.
      rewrite setAt_other by lia. unfold first. apply setAt_other; lia.
    + intros m Hm. destruct (Nat.eq_dec m (S i)) as [->|Hne].
      * rewrite Habove by lia. unfold second. fold j.
        destruct (Nat.eq_dec (S i) j) as [E|E].
        -- rewrite <- E. apply setAt_same. lia.
        -- rewrite setAt_other by lia. unfold first. apply setAt_same. lia.
      * apply Hbelow. lia.
    + intros Hnever. rewrite Hzero.
      * pose proof (Hnever (S i) ltac:(lia)) as Hj0. fold j in Hj0.
        unfold second. rewrite setAt_other by lia.
        unfold first. apply setAt_other; lia.
      * intros k Hk. apply Hnever. lia.
Qed.

End Shuffle.

(** X17. What [shuffledArray] returns, when every round draws an index
    [random i] between 0 and [i]: an array of the length of the input whose
    slot m, for every m >= 1, holds the element of the input at the index
    drawn in round m, whatever the other rounds draw. Slot 0 is written only
    by a round that draws 0: when no round does, it stays a hole, so the
    result of shuffling is then no rearrangement of the input. *)
Theorem shuffledArray_slots :
  forall (T : Type) (random : nat -> nat) (array : list T),
    (forall i, random i <= i)%nat ->
    List.length (shuffledArray random array) = List.length array
    /\ (forall m, (1 <= m < List.length array)%nat ->
          nth_error (shuffledArray random array) m = Some (nth_error array (random m)))
    /\ (array <> [] ->
        (forall i, (1 <= i < List.length array)%nat -> random i <> 0%nat) ->
        nth_error (shuffledArray random array) 0 = Some None).
Proof.
  intros T random array Hrandom. unfold shuffledArray.
  destruct array as [|x array].
  - simpl. split; [reflexivity|]. split; [intros m Hm; simpl in Hm; lia|].
    intros H. contradiction.
  - destruct (shuffleLoop_slots random (x :: array) Hrandom
                (List.length (x :: array) - 1)
                (repeat None (List.length (x :: array))))
      as (Hlen & _ & Hbelow & Hzero).
    + apply repeat_length.
    + simpl. lia.
    + split; [exact Hlen|]. split.
      * intros m Hm. apply Hbelow. simpl in *. lia.
      * intros _ Hnever. rewrite Hzero; [reflexivity|].
        intros k Hk. apply Hnever. simpl in *. lia.
Qed.

(** Three elements, when every round draws 0, and when round i draws i. *)
Lemma shuffledArray_slots_witness :
  shuffledArray (fun _ => 0%nat) [10; 20; 30] = [Some 20; Some 10; Some 10]
  /\ shuffledArray (fun i => i) [10; 20; 30] = [None; Some 20; Some 30]
  /\ nth_error (shuffledArray (fun i => i) [10; 20; 30]) 0 = Some None.
Proof.
  split; [reflexivity|]. split; [reflexivity|].
  apply (shuffledArray_slots Z (fun i => i) [10; 20; 30]).
  - intros i. lia.
  - discriminate.
  - intros i Hi. lia.
Defined.

End ShuffleFacts.

(** ** The last fees of the node client *)
Module LastFeesFacts.
Import LastFees.

Section Fees.
Variable SubstrateTransactionType : Type.
Variable eqb : SubstrateTransactionType -> SubstrateTransactionType -> bool.
Hypothesis eqb_eq : forall a b, eqb a b = true <-> a = b.

Local Abbreviation Fees := (Fees SubstrateTransactionType).
Local Abbreviation set := (set SubstrateTransactionType eqb).
Local Abbreviation get := (get SubstrateTransactionType eqb).

Lemma eqb_refl (a : SubstrateTransactionType) : eqb a a = true.
Proof. apply eqb_eq. reflexivity. Qed.

Lemma eqb_neq (a b : SubstrateTransactionType) : a <> b -> eqb a b = false.
Proof.
  intros H. destruct (eqb a b) eqn:E; [|reflexivity].
  apply eqb_eq in E. contradiction.
Qed.

Lemma get_set_same (fees : Fees) (type : SubstrateTransactionType) (fee : Z) :
  get (set fees type fee) type = Some fee.
Proof.
  induction fees as [|[k v] fees IH]; simpl.
  - rewrite eqb_refl. reflexivity.
  - destruct (eqb k type) eqn:E; simpl; rewrite E; [reflexivity | exact IH].
Qed.

Lemma get_set_other (fees : Fees) (type other : SubstrateTransactionType) (fee : Z) :
  other <> type -> get (set fees type fee) other = get fees other.
Proof.
  intros Hother. induction fees as [|[k v] fees IH]; simpl.
  - rewrite eqb_neq; [reflexivity | congruence].
  - destruct (eqb k type) eqn:E; simpl.
    + apply eqb_eq in E. subst k. rewrite eqb_neq; [reflexivity | congruence].
    + rewrite IH. reflexivity.
Qed.

(** The greatest of a non-empty list is one of its values and bounds them all. *)
Lemma maximum_spec (others : list Z) :
  forall first : Z,
    In (maximum first others) (first :: others)
    /\ Forall (fun v => v <= maximum first others) (first :: others).
Proof.
  unfold maximum. induction others as [|x others IH]; intros first; simpl.
  - split; [left; reflexivity|]. constructor; [lia | constructor].
  - destruct (IH (Z.max first x)) as [Hin Hall].
    apply Forall_cons_iff in Hall. destruct Hall as [Hmax Hall]. split.
    + destruct Hin as [Hin|Hin]; [|right; right; exact Hin].
      rewrite <- Hin. destruct (Z.max_spec first x) as [[_ ->]|[_ ->]]; auto.
    + constructor; [lia|]. constructor; [lia | exact Hall].
Qed.

(** X18. The fee saved for a transaction type is the one reported for it,
    under either default, and saving it leaves the fees of the other types
    alone. For a type without a saved fee the default 'largest' yields the
    greatest of the saved fees, which is one of them and not below any, and
    yields nothing exactly when no fee is saved at all; the default 'null'
    yields nothing. *)
Theorem saved_fees :
  forall (fees : Fees) (type : SubstrateTransactionType) (fee : Z),
    (forall largest,
       getSavedLastFee SubstrateTransactionType eqb
         (saveLastFee SubstrateTransactionType eqb fees type fee) type largest
       = Some fee)
    /\ (forall other, other <> type ->
          getSavedLastFee SubstrateTransactionType eqb
            (saveLastFee SubstrateTransactionType eqb fees type fee) other false
          = getSavedLastFee SubstrateTransactionType eqb fees other false)
    /\ (get fees type = None ->
        getSavedLastFee SubstrateTransactionType eqb fees type false = None
        /\ (getSavedLastFee SubstrateTransactionType eqb fees type true = None
            <-> fees = [])
        /\ forall greatest,
             getSavedLastFee SubstrateTransactionType eqb fees type true = Some greatest ->
             In greatest (map snd fees)
             /\ Forall (fun saved => saved <= greatest) (map snd fees)).
Proof.
  intros fees type fee. unfold getSavedLastFee, saveLastFee. split; [|split].
  - intros largest. rewrite get_set_same. reflexivity.
  - intros other Hother. rewrite (get_set_other fees type other fee Hother).
    destruct (get fees other); reflexivity.
  - intros ->. split; [reflexivity|]. split.
    + destruct fees as [|[k v] fees]; simpl; split; try reflexivity; discriminate.
    + intros greatest. destruct (map snd fees) as [|first others]; [discriminate|].
      intros H. injection H as <-. apply maximum_spec.
Qed.

End Fees.

(** Fees keyed by the name of the transaction type: once 120 is saved for
    "transfer" and 300 for "bond", an unbond is estimated at 300. *)
Lemma saved_fees_witness :
  getSavedLastFee string String.eqb
    (saveLastFee string String.eqb [("transfer", 120)] "bond" 300) "bond" true = Some 300
  /\ getSavedLastFee string String.eqb [("transfer", 120); ("bond", 300)] "unbond" true
     = Some 300
  /\ In 300 (map snd [("transfer", 120); ("bond", 300)])
  /\ Forall (fun saved => saved <= 300) (map snd [("transfer", 120); ("bond", 300)]).
Proof.
  split.
  - apply (proj1 (saved_fees string String.eqb String.eqb_eq
                    [("transfer", 120)] "bond" 300)).
  - split; [reflexivity|].
    apply (proj2 (proj2 (proj2 (saved_fees string String.eqb String.eqb_eq
                                  [("transfer", 120); ("bond", 300)] "unbond" 0)) eq_refl)).
    reflexivity.
Defined.

End LastFeesFacts.

(** ** The initialisation of the node client *)
Module InitialisationFacts.
Import SubstrateNodeClient Samples NodeClientFacts.

Section Client.
Variable SubstrateNetwork : Type.
Variable MetadataVersioned : Type.
Variable MetadataV11_decode MetadataV12_decode :
  SubstrateNetwork -> option Z -> list byte -> Promise MetadataVersioned.
Variable MetadataDecorator : Type.
Variable decorate : MetadataVersioned -> MetadataDecorator.
Variable constant : MetadataDecorator -> string -> string -> option (list byte).

Local Abbreviation Client := (Client SubstrateNetwork MetadataDecorator).
Local Abbreviation initApiAt :=
  (initApiAt MetadataV11_decode MetadataV12_decode decorate constant).
Local Abbreviation initApi :=
  (initApi MetadataV11_decode MetadataV12_decode decorate constant).
Local Abbreviation getConstant :=
  (getConstant MetadataV11_decode MetadataV12_decode decorate constant).
Local Abbreviation decode :=
  (Metadata.decode SubstrateNetwork MetadataVersioned MetadataV11_decode
     MetadataV12_decode).

Lemma initApiAt_requests (depth : nat) (node : Node) (c : Client) :
  requests (fst (initApiAt (S depth) node c))
  = match initApiPromise c with
    | Some _ => requests c
    | None => "state_getRuntimeVersion" :: "state_getMetadata" :: requests c
    end.
Proof.
  simpl.
  destruct (initApiPromise c) as [p|]; [reflexivity|].
  destruct (all2 _ _) as [[metadataEncoded version]| |]; try reflexivity.
  destruct (Metadata.decode _ _ _ _ _ _ _) as [m| |];
    destruct version as [version|]; try reflexivity.
  match goal with
  | |- context [initCacheWith constant _ ?c2] =>
      pose proof (initCacheWith_stored SubstrateNetwork MetadataVersioned
                    MetadataV11_decode MetadataV12_decode MetadataDecorator decorate
                    constant depth node c2 eq_refl) as [_ Hrequests];
      destruct (initCacheWith constant (initApiAt depth node) c2) as [c3 [[]| |]]
  end; cbn [fst snd] in *; exact Hrequests.
Qed.

(** X19. The initialisation asks the node at most once. A call of
    [initApi] on a client without a stored promise sends exactly two
    requests, for the metadata and for the runtime version, and a call on
    a client with a stored promise sends none; reading the block time for
    the cache sends none either. The same holds for [getConstant], which
    sends nothing of its own. *)
Theorem initApi_requests :
  forall (node : Node) (c : Client),
    requests (fst (initApi node c))
    = match initApiPromise c with
      | Some _ => requests c
      | None => "state_getRuntimeVersion" :: "state_getMetadata" :: requests c
      end
    /\ forall moduleName constantName,
         requests (fst (getConstant node c moduleName constantName))
         = requests (fst (initApi node c)).
Proof.
  intros node c. split.
  - apply initApiAt_requests.
  - intros moduleName constantName.
    unfold SubstrateNodeClient.getConstant, getConstantWith.
    destruct (initApi node c) as [c' ready]. reflexivity.
Qed.

Lemma initApiAt_outcome (depth : nat) (node : Node) (c : Client) (raw : list byte)
  (version : SubstrateRuntimeVersion) (m : Metadata.Metadata MetadataVersioned) :
  initApiPromise c = None ->
  state_getMetadata node (List.length (requests c)) = Fulfilled raw ->
  state_getRuntimeVersion node (S (List.length (requests c))) = Fulfilled (Some version) ->
  decode (network c) (Some (specVersion version)) raw = Fulfilled m ->
  let c1 :=
    withMetadata (decorate (Metadata.versioned m)) (Some (specVersion version))
      (withRequest "state_getRuntimeVersion" (withRequest "state_getMetadata" c)) in
  initApiAt (S depth) node c
  = match constant (decorate (Metadata.versioned m)) "Babe" "ExpectedBlockTime" with
    | Some blockTime =>
        (withExpirationTime
           (Number.floor (Number.div (Number.ofZ (Scale.decodeInt blockTime))
                            (Number.ofZ 3)))
           (withInitApiPromise (Fulfilled tt) c1),
         Fulfilled tt)
    | None =>
        (withInitApiPromise (Rejected (notFound "Babe" "ExpectedBlockTime"))
           (withInitApiPromise (Fulfilled tt) c1),
         Fulfilled tt)
    end.
Proof.
  intros Hfresh Hmetadata Hversion Hdecode c1. subst c1. simpl.
  rewrite Hfresh, Hmetadata. unfold getRuntimeVersion. rewrite Hversion.
  cbn [all2 option_map]. simpl in Hdecode |- *. rewrite Hdecode.
  unfold initCacheWith, getConstantWith.
  match goal with
  | |- context [SubstrateNodeClient.initApiAt _ _ _ _ depth node ?c2] =>
      rewrite (initApiAt_stored SubstrateNetwork MetadataVersioned MetadataV11_decode
                 MetadataV12_decode MetadataDecorator decorate constant depth node c2
                 (Fulfilled tt) eq_refl)
  end.
  cbn [bind metadata withInitApiPromise withMetadata].
  destruct (constant (decorate (Metadata.versioned m)) "Babe" "ExpectedBlockTime");
    reflexivity.
Qed.

(** X20. What a first call of [initApi] leaves behind when the node
    delivers a metadata blob that decodes and a runtime version. The
    decorated metadata and the version are stored and the call is
    fulfilled. When the metadata has the constant Babe.ExpectedBlockTime,
    the initialisation is stored as fulfilled and the expiration time of
    the cache becomes a third of the block time, rounded down. When the
    metadata lacks that constant, the initialisation is stored as rejected,
    the expiration time stays, and every later lookup of a constant, of
    any name, is rejected with the missing block time as its reason. *)
Theorem initialisation_outcome :
  forall (node : Node) (c : Client) (raw : list byte)
         (version : SubstrateRuntimeVersion) (m : Metadata.Metadata MetadataVersioned),
    initApiPromise c = None ->
    state_getMetadata node (List.length (requests c)) = Fulfilled raw ->
    state_getRuntimeVersion node (S (List.length (requests c)))
    = Fulfilled (Some version) ->
    decode (network c) (Some (specVersion version)) raw = Fulfilled m ->
    let c' := fst (initApi node c) in
    snd (initApi node c) = Fulfilled tt
    /\ metadata c' = Some (decorate (Metadata.versioned m))
    /\ runtimeVersion c' = Some (specVersion version)
    /\ match constant (decorate (Metadata.versioned m)) "Babe" "ExpectedBlockTime" with
       | Some blockTime =>
           initApiPromise c' = Some (Fulfilled tt)
           /\ expirationTime c'
              = Number.floor (Number.div (Number.ofZ (Scale.decodeInt blockTime))
                                (Number.ofZ 3))
       | None =>
           initApiPromise c' = Some (Rejected (notFound "Babe" "ExpectedBlockTime"))
           /\ expirationTime c' = expirationTime c
           /\ forall (later : Node) (moduleName constantName : string),
                getConstant later c' moduleName constantName
                = (c', Rejected (notFound "Babe" "ExpectedBlockTime"))
       end.
Proof.
  intros node c raw version m Hfresh Hmetadata Hversion Hdecode c'. subst c'.
  unfold SubstrateNodeClient.initApi.
  rewrite (initApiAt_outcome 1 node c raw version m Hfresh Hmetadata Hversion Hdecode).
  destruct (constant (decorate (Metadata.versioned m)) "Babe" "ExpectedBlockTime")
    as [blockTime|]; cbn [fst snd].
  - repeat split; reflexivity.
  - split; [reflexivity|]. split; [reflexivity|]. split; [reflexivity|].
    split; [reflexivity|]. split; [reflexivity|].
    intros later moduleName constantName.
    unfold SubstrateNodeClient.getConstant, getConstantWith, SubstrateNodeClient.initApi.
    match goal with
    | |- context [SubstrateNodeClient.initApiAt _ _ _ _ 2 later ?c2] =>
        rewrite (initApiAt_stored SubstrateNetwork MetadataVersioned MetadataV11_decode
                   MetadataV12_decode MetadataDecorator decorate constant 2 later c2
                   (Rejected (notFound "Babe" "ExpectedBlockTime")) eq_refl)
    end.
    reflexivity.
Qed.

End Client.

(** A node that answers, on a chain whose metadata has the block time: the
    cache expires after 2000 ms. On a chain without Babe the first call is
    fulfilled, and the existential deposit, which the metadata has, can no
    longer be read. *)
Lemma initialisation_outcome_witness :
  expirationTime
    (fst (initApi acceptAll acceptAll id constants healthy (create (list byte) tt)))
  = Some 2000
  /\ snd (initApi acceptAll acceptAll id ClientSamples.constantsWithoutBabe healthy
            (create (list byte) tt)) = Fulfilled tt
  /\ metadata ClientSamples.afterMissingBlockTime = Some blob
  /\ getConstant acceptAll acceptAll id ClientSamples.constantsWithoutBabe healthy
       ClientSamples.afterMissingBlockTime "Balances" "ExistentialDeposit"
     = (ClientSamples.afterMissingBlockTime,
        Rejected (notFound "Babe" "ExpectedBlockTime")).
Proof.
  pose proof (initialisation_outcome unit (list byte) acceptAll acceptAll (list byte) id
                constants healthy (create (list byte) tt) blob
                {| specVersion := 9000 |} {| Metadata.versioned := blob |}
                eq_refl eq_refl eq_refl eq_refl) as (_ & _ & _ & _ & Hexpiration).
  pose proof (initialisation_outcome unit (list byte) acceptAll acceptAll (list byte) id
                ClientSamples.constantsWithoutBabe healthy (create (list byte) tt) blob
                {| specVersion := 9000 |} {| Metadata.versioned := blob |}
                eq_refl eq_refl eq_refl eq_refl)
    as (Hcall & Hmetadata & _ & _ & _ & Hlater).
  split; [exact Hexpiration|]. split; [exact Hcall|]. split; [exact Hmetadata|].
  exact (Hlater healthy "Balances" "ExistentialDeposit").
Defined.

End InitialisationFacts.

(** ** Metadata blobs that decode *)
Module DecodeFacts.
Import Metadata MetadataFacts Samples.

Section Decode.
Variable SubstrateNetwork : Type.
Variable MetadataVersioned : Type.
Variable MetadataV11_decode MetadataV12_decode :
  SubstrateNetwork -> option Z -> list byte -> Promise MetadataVersioned.
Variable network : SubstrateNetwork.
Variable runtimeVersion : option Z.

Local Abbreviation decode' :=
  (decode SubstrateNetwork MetadataVersioned MetadataV11_decode MetadataV12_decode
     network runtimeVersion).

(** A blob of version 12 is handed to the parser of that version, whole. *)
Lemma decode_version_12 (rest : list byte) :
  let raw := magic ++ x0c :: rest in
  decode' raw
  = (versioned <- MetadataV12_decode network runtimeVersion raw ;;
     Fulfilled {| versioned := versioned |}).
Proof. reflexivity. Qed.

Lemma decode_version_11 (rest : list byte) :
  let raw := magic ++ x0b :: rest in
  decode' raw
  = (versioned <- MetadataV11_decode network runtimeVersion raw ;;
     Fulfilled {| versioned := versioned |}).
Proof. reflexivity. Qed.

Lemma magic_and_version (raw : list byte) (v : byte) :
  firstn 4 raw = magic -> nth_error raw 4 = Some v ->
  exists rest, raw = magic ++ v :: rest.
Proof.
  intros Hmagic Hversion.
  destruct raw as [|a [|b [|c [|d [|v' rest]]]]]; try discriminate.
  cbn [firstn] in Hmagic. cbn [nth_error] in Hversion.
  injection Hversion as ->. exists rest. rewrite <- Hmagic. reflexivity.
Qed.

(** X21. When [decode] yields a metadata: exactly when the blob starts
    with "meta", its fifth byte is 12 or 11, and the parser of that
    version, given the whole blob and the runtime version, yields the
    content of the metadata. The parser of the other version is not
    consulted. *)
Theorem decode_succeeds_iff :
  forall (raw : list byte) (metadata : Metadata MetadataVersioned),
    decode' raw = Fulfilled metadata
    <-> firstn 4 raw = magic
        /\ ((nth_error raw 4 = Some x0c
             /\ MetadataV12_decode network runtimeVersion raw
                = Fulfilled (versioned metadata))
            \/ (nth_error raw 4 = Some x0b
                /\ MetadataV11_decode network runtimeVersion raw
                   = Fulfilled (versioned metadata))).
Proof.
  intros raw metadata. split.
  - intros Hdecode.
    destruct (list_eq_dec Byte.byte_eq_dec (firstn 4 raw) magic) as [Hmagic|Hmagic].
    + split; [exact Hmagic|].
      destruct (nth_error raw 4) as [v|] eqn:Hversion.
      * destruct (Byte.byte_eq_dec v x0c) as [->|H12];
          [|destruct (Byte.byte_eq_dec v x0b) as [->|H11]].
        -- left. split; [reflexivity|].
           destruct (magic_and_version raw x0c Hmagic Hversion) as [rest ->].
           rewrite decode_version_12 in Hdecode.
           destruct (MetadataV12_decode _ _ _) as [versioned| |]; try discriminate.
           injection Hdecode as <-. reflexivity.
        -- right. split; [reflexivity|].
           destruct (magic_and_version raw x0b Hmagic Hversion) as [rest ->].
           rewrite decode_version_11 in Hdecode.
           destruct (MetadataV11_decode _ _ _) as [versioned| |]; try discriminate.
           injection Hdecode as <-. reflexivity.
        -- rewrite (decode_unsupported_version SubstrateNetwork MetadataVersioned
                      MetadataV11_decode MetadataV12_decode network runtimeVersion
                      raw v Hmagic Hversion H11 H12) in Hdecode.
           discriminate.
      * rewrite (decode_no_version SubstrateNetwork MetadataVersioned
                   MetadataV11_decode MetadataV12_decode network runtimeVersion
                   raw Hmagic Hversion) in Hdecode.
        discriminate.
    + destruct (Nat.lt_ge_cases (List.length raw) 4) as [Hlen|Hlen].
      * rewrite (decode_short SubstrateNetwork MetadataVersioned MetadataV11_decode
                   MetadataV12_decode network runtimeVersion raw Hlen) in Hdecode.
        discriminate.
      * rewrite (decode_wrong_magic SubstrateNetwork MetadataVersioned
                   MetadataV11_decode MetadataV12_decode network runtimeVersion
                   raw Hlen Hmagic) in Hdecode.
        discriminate.
  - intros [Hmagic [[Hversion Hparsed] | [Hversion Hparsed]]].
    + destruct (magic_and_version raw x0c Hmagic Hversion) as [rest ->].
      rewrite decode_version_12. cbv zeta. rewrite Hparsed.
      destruct metadata. reflexivity.
    + destruct (magic_and_version raw x0b Hmagic Hversion) as [rest ->].
      rewrite decode_version_11. cbv zeta. rewrite Hparsed.
      destruct metadata. reflexivity.
Qed.

End Decode.

End DecodeFacts.

(** ** The rewards of the older Polkadot node client *)
Module OldRewardFacts.
Import AsyncFacts PolkadotNodeClient Spec.

(** Sorting leaves an array alone whose elements are in order already. *)
Lemma sort_of_sorted {A : Type} (compare : A -> A -> Z) (array : list A) :
  StronglySorted (notBehind compare) array -> JsArray.sort compare array = array.
Proof.
  induction 1 as [|x array _ IH Hx]; simpl; [reflexivity|].
  rewrite IH. destruct array as [|y array]; [reflexivity|]. simpl.
  apply Forall_inv in Hx. unfold notBehind in Hx.
  destruct (Z.leb_spec (compare x y) 0); [reflexivity | lia].
Qed.

(** What one round of the loop pushes. *)
Lemma rewardOfEra_some (node : Storage) (address : SubstrateAddress)
  (validators : list SubstrateAddress) (era : Z) (pushed : option PolkadotReward) :
  rewardOfEra node address validators era = Fulfilled pushed ->
  ((exists reward, pushed = Some reward)
   <-> exists pool points ledger,
         getValidatorReward node era = Fulfilled (Some pool)
         /\ getRewardPoints node era = Fulfilled (Some points)
         /\ getLedger node address = Fulfilled (Some ledger))
  /\ forall reward, pushed = Some reward ->
       eraIndex reward = era /\ timestamp reward = 0.
Proof.
  unfold rewardOfEra.
  destruct (all2 _ _) as [results| |] eqn:Hall; cbn [bind]; try discriminate.
  apply all2_inv in Hall. destruct Hall as [Hpool Hall].
  apply all2_inv in Hall. destruct Hall as [Hpoints Hall].
  apply all2_inv in Hall. destruct Hall as [_ Hledger].
  destruct results as (pool & points & entries & ledger). cbn [fst snd] in *.
  destruct pool as [pool|]; [destruct points as [points|]; [destruct ledger as [ledger|]|]|];
    intros H; injection H as <-.
  - split.
    + split; [|intros _; eexists; reflexivity].
      intros _. exists pool, points, ledger. repeat split; assumption.
    + intros reward H. injection H as <-. split; reflexivity.
  - split; [|discriminate]. split; [intros [reward H]; discriminate|].
    intros (pool' & points' & ledger' & _ & _ & H). congruence.
  - split; [|discriminate]. split; [intros [reward H]; discriminate|].
    intros (pool' & points' & ledger' & _ & H & _). congruence.
  - split; [|discriminate]. split; [intros [reward H]; discriminate|].
    intros (pool' & points' & ledger' & H & _ & _). congruence.
Qed.

(** The loop pushes, era after era, what each round yields. *)
Lemma rewardsOfEras_pushed (node : Storage) (address : SubstrateAddress)
  (validators : list SubstrateAddress) (eras : list Z) :
  forall rewards result : list PolkadotReward,
    rewardsOfEras node address validators eras rewards = Fulfilled result ->
    exists pushed,
      Forall2 (fun era reward => rewardOfEra node address validators era = Fulfilled reward)
              eras pushed
      /\ result = rewards ++ SubstrateAccountController.present pushed.
Proof.
  induction eras as [|era eras IH]; intros rewards result; simpl.
  - intros H. injection H as <-. exists []. split; [constructor|].
    rewrite app_nil_r. reflexivity.
  - destruct (rewardOfEra node address validators era) as [reward| |] eqn:Hera;
      cbn [bind]; try discriminate.
    intros H. destruct (IH _ _ H) as (pushed & Hpushed & ->).
    exists (reward :: pushed). split; [constructor; assumption|].
    rewrite <- app_assoc. destruct reward; reflexivity.
Qed.

(** X22. The rewards that the older [getRewards] of the Polkadot node
    client lists for the last [limit] eras: newest first, with strictly
    decreasing era indices, and with an entry for an era exactly when the
    era is among the [limit] eras before the current one and the reward
    pool and the reward points of the era and the staking ledger of the
    account are stored. Whether any data of a validator is stored plays no
    part. Every entry has the timestamp 0. *)
Theorem getRewards_entries :
  forall (node : Storage) (address : SubstrateAddress)
         (validators : list SubstrateAddress) (currentEra : Z) (limit : nat)
         (rewards : list PolkadotReward),
    getRewards node address validators currentEra limit = Fulfilled rewards ->
    StronglySorted (fun a b => eraIndex b < eraIndex a) rewards
    /\ (forall era,
          In era (map eraIndex rewards)
          <-> currentEra - Z.of_nat limit <= era < currentEra
              /\ exists pool points ledger,
                   getValidatorReward node era = Fulfilled (Some pool)
                   /\ getRewardPoints node era = Fulfilled (Some points)
                   /\ getLedger node address = Fulfilled (Some ledger))
    /\ Forall (fun reward => timestamp reward = 0) rewards.
Proof.
  intros node address validators currentEra limit rewards. unfold getRewards.
  destruct (rewardsOfEras _ _ _ _ _) as [result| |] eqn:Hloop; cbn [bind];
    try discriminate.
  intros H. injection H as <-.
  apply rewardsOfEras_pushed in Hloop. destruct Hloop as (pushed & Hpushed & ->).
  rewrite app_nil_l.
  set (activeEra := {| ActiveEraInfo.index := currentEra; ActiveEraInfo.start := None |}).
  destruct (RewardListFacts.eraIndicesOf_count activeEra limit)
    as (Hsorted & _ & Hrange).
  change (SubstrateAccountController.eraIndicesOf activeEra (inl limit))
    with (map (fun index => currentEra - 1 - Z.of_nat index) (seq 0 limit)) in *.
  change (ActiveEraInfo.index activeEra) with currentEra in Hrange.
  destruct (RewardListFacts.present_descending eraIndex
              (fun reward => timestamp reward = 0)
              (map (fun index => currentEra - 1 - Z.of_nat index) (seq 0 limit))
              pushed) as (Hdesc & Hin & _).
  - eapply Forall2_impl; [|exact Hpushed].
    intros era reward Hera r ->. apply (rewardOfEra_some _ _ _ _ _ Hera). reflexivity.
  - exact Hsorted.
  - rewrite sort_of_sorted.
    + split; [exact Hdesc|]. split.
      * intros era. rewrite in_map_iff. split.
        -- intros (r & Hr & Hlisted).
           apply NominatorRewardFacts.in_present in Hlisted.
           destruct (NominatorRewardFacts.Forall2_In_r _ _ _ _ Hpushed Hlisted)
             as (era' & Hera' & Hround).
           destruct (rewardOfEra_some _ _ _ _ _ Hround) as [Hstored Hlabel].
           destruct (Hlabel r eq_refl) as [Hindex _].
           assert (era' = era) as -> by congruence.
           split; [apply Hrange, Hera'|]. apply Hstored. exists r. reflexivity.
        -- intros [Hera Hstored].
           assert (Hasked : In era (map (fun index => currentEra - 1 - Z.of_nat index)
                                       (seq 0 limit))).
           { apply in_map_iff. exists (Z.to_nat (currentEra - 1 - era)).
             split; [lia|]. apply in_seq. lia. }
           destruct (NominatorRewardFacts.Forall2_In_l _ _ _ _ Hpushed Hasked)
             as (reward & Hreward & Hround).
           destruct (rewardOfEra_some _ _ _ _ _ Hround) as [Hsome Hlabel].
           apply Hsome in Hstored. destruct Hstored as [r ->].
           exists r. split; [apply (Hlabel r eq_refl)|].
           apply NominatorRewardFacts.in_present. exact Hreward.
      * eapply Forall_impl; [|exact Hin]. intros reward [_ Hstamp]. exact Hstamp.
    + apply (ActionFacts.StronglySorted_weaken
               (fun a b : PolkadotReward => eraIndex b < eraIndex a)).
      * unfold notBehind. intros x y Hxy. lia.
      * exact Hdesc.
Qed.

(** The era before era 6 on the sample node: listed with amount 0, because
    no exposure is stored for v2. *)
Lemma getRewards_entries_witness :
  getRewards Samples.oldNode "acct" ["v2"] 6 1
  = Fulfilled [ {| eraIndex := 5; amount := BigNumber.Fin 0; exposures := [];
                   timestamp := 0; collected := false |} ]
  /\ (In 5 (map eraIndex [ {| eraIndex := 5; amount := BigNumber.Fin 0; exposures := [];
                              timestamp := 0; collected := false |} ])
      <-> 6 - Z.of_nat 1 <= 5 < 6
          /\ exists pool points ledger,
               getValidatorReward Samples.oldNode 5 = Fulfilled (Some pool)
               /\ getRewardPoints Samples.oldNode 5 = Fulfilled (Some points)
               /\ getLedger Samples.oldNode "acct" = Fulfilled (Some ledger)).
Proof.
  assert (H : getRewards Samples.oldNode "acct" ["v2"] 6 1
              = Fulfilled [ {| eraIndex := 5; amount := BigNumber.Fin 0; exposures := [];
                               timestamp := 0; collected := false |} ])
    by (vm_compute; reflexivity).
  split; [exact H|].
  apply (proj1 (proj2 (getRewards_entries Samples.oldNode "acct" ["v2"] 6 1 _ H))).
Defined.

End OldRewardFacts.

(** ** The available balance of a list of addresses *)
Module AvailableBalanceFacts.
Import NodeApi AsyncFacts Spec SubstrateAccountController BalanceSpec.

Lemma getBalance_of_info (nodeClient : NodeApi.t) (address : SubstrateAddress)
  (info : option AccountInfo.t) :
  getAccountInfo nodeClient address = Fulfilled info ->
  getBalance nodeClient address = Fulfilled (freeOf info).
Proof. intros H. unfold getBalance. rewrite H. reflexivity. Qed.

(** Without the existential deposit, the transferable balance needs the
    account info only. *)
Lemma getTransferableBalance_of_info (nodeClient : NodeApi.t)
  (address : SubstrateAddress) (info : option AccountInfo.t) :
  getAccountInfo nodeClient address = Fulfilled info ->
  getTransferableBalance nodeClient address false true = Fulfilled (availableOf info).
Proof.
  intros H. unfold getTransferableBalance. rewrite H. cbn [all2 bind fst snd].
  destruct info as [i|]; [|reflexivity].
  unfold availableOf. rewrite Z.sub_0_r. reflexivity.
Qed.

Lemma Forall2_map_r {A B C : Type} (R : A -> C -> Prop) (f : B -> C)
  (xs : list A) (ys : list B) :
  Forall2 (fun x y => R x (f y)) xs ys -> Forall2 R xs (map f ys).
Proof. induction 1; simpl; constructor; assumption. Qed.

Lemma total_le (f g : option AccountInfo.t -> Z) (infos : list (option AccountInfo.t)) :
  Forall (fun info => f info <= g info) infos ->
  total (map f infos) <= total (map g infos).
Proof.
  unfold total. induction 1 as [|info infos Hinfo _ IH]; simpl; lia.
Qed.

(** X23. The available balance of a list of addresses. For the empty list
    the call fails with the error of a [reduce] without initial value. For
    a non-empty list of addresses whose account infos can be read it is the
    decimal text of the sum of free - reserved - miscFrozen over the
    accounts; the existential deposit plays no part and need not be
    readable. When no reserved or frozen amount is negative, the sum is at
    most the one that [getBalanceOfAddresses] reports for the same list. *)
Theorem available_balance_of_addresses :
  forall (nodeClient : NodeApi.t),
    SubstrateDelegation.getAvailableBalanceOfAddresses nodeClient []
    = Rejected (TypeError "Reduce of empty array with no initial value")
    /\ forall (addresses : list string) (infos : list (option AccountInfo.t)),
         addresses <> [] ->
         Forall2 (fun address info => getAccountInfo nodeClient address = Fulfilled info)
                 addresses infos ->
         SubstrateDelegation.getAvailableBalanceOfAddresses nodeClient addresses
         = Fulfilled (BigNumber.digits (total (map availableOf infos)))
         /\ SubstrateProtocol.getBalanceOfAddresses nodeClient addresses
            = Fulfilled (BigNumber.digits (total (map freeOf infos)))
         /\ (Forall (fun info =>
                       forall i, info = Some i ->
                         0 <= AccountInfo.reserved i /\ 0 <= AccountInfo.miscFrozen i)
                    infos ->
             total (map availableOf infos) <= total (map freeOf infos)).
Proof.
  intros nodeClient. split; [reflexivity|].
  intros addresses infos Hne Hinfos.
  assert (Havailable :
            Forall2 (fun address balance =>
                       getTransferableBalance nodeClient address false true
                       = Fulfilled balance) addresses (map availableOf infos)).
  { apply Forall2_map_r. eapply Forall2_impl; [|exact Hinfos].
    intros address info. apply getTransferableBalance_of_info. }
  assert (Hfree :
            Forall2 (fun address balance =>
                       getBalance nodeClient address = Fulfilled balance)
                    addresses (map freeOf infos)).
  { apply Forall2_map_r. eapply Forall2_impl; [|exact Hinfos].
    intros address info. apply getBalance_of_info. }
  split; [|split].
  - unfold SubstrateDelegation.getAvailableBalanceOfAddresses.
    rewrite (all_map_fulfilled _ _ _ Havailable). cbn [bind].
    rewrite (ProtocolFacts.reduce1_sum _
               (ProtocolFacts.Forall2_nonempty _ _ _ Havailable Hne)).
    reflexivity.
  - unfold SubstrateProtocol.getBalanceOfAddresses.
    rewrite (all_map_fulfilled _ _ _ Hfree). cbn [bind].
    rewrite (ProtocolFacts.reduce1_sum _
               (ProtocolFacts.Forall2_nonempty _ _ _ Hfree Hne)).
    reflexivity.
  - intros Hsigns. apply total_le.
    eapply Forall_impl; [|exact Hsigns].
    intros [i|] Hi; simpl; [|lia].
    destruct (Hi i eq_refl). lia.
Qed.

(** Two accounts with reserved and frozen funds and one that the chain
    does not know: 1080 of 1234 are available. *)
Lemma available_balance_of_addresses_witness :
  SubstrateDelegation.getAvailableBalanceOfAddresses frozenAccounts
    ["alice"; "bob"; "carol"] = Fulfilled "1080"
  /\ SubstrateProtocol.getBalanceOfAddresses frozenAccounts ["alice"; "bob"; "carol"]
     = Fulfilled "1234".
Proof.
  destruct (proj2 (available_balance_of_addresses frozenAccounts)
              ["alice"; "bob"; "carol"]
              [ Some {| AccountInfo.free := 1200; AccountInfo.reserved := 100;
                        AccountInfo.miscFrozen := 50; AccountInfo.feeFrozen := 0 |};
                Some {| AccountInfo.free := 34; AccountInfo.reserved := 0;
                        AccountInfo.miscFrozen := 4; AccountInfo.feeFrozen := 0 |};
                None ])
    as (Havailable & Hbalance & _).
  - discriminate.
  - repeat constructor.
  - split; [exact Havailable | exact Hbalance].
Defined.

End AvailableBalanceFacts.

(** ** Preparing what was offered *)
Module DelegationFacts.
Import NodeApi StakingApi AsyncFacts SubstrateAccountController SubstrateStaking
       SubstrateDelegation StakingSamples.

Lemma Forall_when (P : DelegatorAction -> Prop) (condition : bool)
  (actions : list DelegatorAction) :
  Forall P actions -> Forall P (when condition actions).
Proof. destruct condition; [trivial | constructor]. Qed.

(** X24. An offered action names the arguments that preparing it asks for:
    for every action in a list of available actions, each field that
    [prepareDelegatorActionFromPublicKey] asserts for the type of the
    action is among the [args] listed with the action. *)
Theorem offered_actions_name_asserted_fields :
  forall (ordinal : SubstrateStakingActionType -> Z) (nodeClient : NodeApi.t)
         (stakingDetails : option SubstrateStakingDetails)
         (nominations : option Nominations.t) (validatorIds : list SubstrateAddress)
         (maxDelegationValue : Z) (actions : list DelegatorAction),
    getAvailableStakingActions ordinal nodeClient stakingDetails nominations validatorIds
      maxDelegationValue = Fulfilled actions ->
    Forall (fun action => incl (assertedFields (type action)) (args action)) actions.
Proof.
  intros ordinal nodeClient stakingDetails nominations validatorIds maxDelegationValue
         actions.
  unfold getAvailableStakingActions.
  destruct (getExistentialDeposit nodeClient) as [minBondingValue| |]; cbn [bind];
    try discriminate.
  destruct (getElectionStatus nodeClient) as [electionStatus| |]; cbn [bind];
    try discriminate.
  intros H. injection H as <-. cbv zeta.
  eapply Permutation_Forall; [apply Permutation_sym, SortFacts.sort_perm|].
  repeat (apply Forall_app; split); apply Forall_when;
    repeat match goal with
           | |- Forall _ (if ?c then _ else _) => destruct c
           end;
    repeat (apply Forall_cons || apply Forall_nil);
    cbn [assertedFields type args]; intros field Hfield; cbn [In] in *; tauto.
Qed.

(** The account with every precondition met is offered a change of its
    nomination with "targets", a rebond with "value" and a withdrawal. *)
Lemma offered_actions_name_asserted_fields_witness :
  Forall (fun action => incl (assertedFields (type action)) (args action))
    [ {| type := CHANGE_NOMINATION; args := ["targets"] |};
      {| type := REBOND_EXTRA; args := ["value"] |};
      {| type := WITHDRAW_UNBONDED; args := [] |} ].
Proof.
  apply (offered_actions_name_asserted_fields Samples.declarationOrder
           (Samples.electionNode (Some CLOSED)) (Some Samples.busyDetails)
           (Some Samples.busyNominations) ["v1"; "v3"] 1000).
  vm_compute. reflexivity.
Defined.

(** X25. The transactions that an account will still have to pay for.
    Whatever the intention, the list for a bonded account holds an UNBOND
    and a WITHDRAW_UNBONDED, and the list for a nominating account a
    CANCEL_NOMINATION, so that the fees of leaving are accounted for. A
    TRANSFER is listed exactly for the intention to transfer, and it moves
    the transferable balance, existential deposit excluded. BOND, REBOND
    and NOMINATE are listed only for the intention to delegate. *)
Theorem future_transactions_cover_the_exit :
  forall (placeholder : SubstrateAddress) (api : StakingApi.t)
         (accountId : SubstrateAddress) (intention : Intention)
         (transactions : list (SubstrateTransactionType.t * TransactionArgs.t)),
    getFutureRequiredTransactions placeholder api accountId intention
    = Fulfilled transactions ->
    let types := map fst transactions in
    (In SubstrateTransactionType.TRANSFER types <-> intention = transfer)
    /\ (isBonded api accountId = Fulfilled true ->
        In SubstrateTransactionType.UNBOND types
        /\ In SubstrateTransactionType.WITHDRAW_UNBONDED types)
    /\ (isNominating api accountId = Fulfilled true ->
        In SubstrateTransactionType.CANCEL_NOMINATION types)
    /\ (intention <> delegate ->
        ~ In SubstrateTransactionType.BOND types
        /\ ~ In SubstrateTransactionType.REBOND types
        /\ ~ In SubstrateTransactionType.NOMINATE types)
    /\ (forall transferArgs,
          In (SubstrateTransactionType.TRANSFER, transferArgs) transactions ->
          exists balance,
            getTransferableBalance (node api) accountId true true = Fulfilled balance
            /\ TransactionArgs.value transferArgs = Some balance).
Proof.
  intros placeholder api accountId intention transactions.
  unfold getFutureRequiredTransactions.
  destruct (all2 _ _) as [results| |] eqn:Hall; cbn [bind]; try discriminate.
  apply all2_inv in Hall. destruct Hall as [Hbonded Hall].
  apply all2_inv in Hall. destruct Hall as [Hnominating Hall].
  apply all2_inv in Hall. destruct Hall as [Htransferable _].
  destruct results as (bonded & nominating & transferable & staking & unlocking).
  cbn [fst snd] in *. rewrite Hbonded, Hnominating, Htransferable.
  intros H. injection H as <-.
  destruct bonded, nominating, (unlocking >? 0), intention; cbn;
    (split; [split; [intros H; repeat destruct H as [H|H]; try discriminate; try reflexivity;
                     try contradiction
                    | intros H; try discriminate; auto]|]);
    (split; [intros H; try discriminate; auto 10|]);
    (split; [intros H; try discriminate; auto 10|]);
    (split; [intros H; try congruence;
             repeat split; intros H'; repeat destruct H' as [H'|H']; try discriminate;
             try contradiction|]);
    intros transferArgs H; repeat destruct H as [H|H]; try discriminate;
    try contradiction;
    injection H as <-; exists transferable; split; reflexivity.
Qed.

(** The account "acct" is bonded and nominating and has 600 unlocking:
    checking what it must keep for fees lists the unbonding, the
    withdrawal and the cancellation of its nomination. *)
Lemma future_transactions_cover_the_exit_witness :
  then_ (getFutureRequiredTransactions "placeholder" (stakingApi None) "acct" check)
        (map fst)
  = Fulfilled [SubstrateTransactionType.UNBOND; SubstrateTransactionType.WITHDRAW_UNBONDED;
               SubstrateTransactionType.CANCEL_NOMINATION]
  /\ (isBonded (stakingApi None) "acct" = Fulfilled true ->
      In SubstrateTransactionType.UNBOND
         [SubstrateTransactionType.UNBOND; SubstrateTransactionType.WITHDRAW_UNBONDED;
          SubstrateTransactionType.CANCEL_NOMINATION]
      /\ In SubstrateTransactionType.WITHDRAW_UNBONDED
            [SubstrateTransactionType.UNBOND; SubstrateTransactionType.WITHDRAW_UNBONDED;
             SubstrateTransactionType.CANCEL_NOMINATION]).
Proof.
  split; [reflexivity|].
  exact (proj1 (proj2 (future_transactions_cover_the_exit "placeholder" (stakingApi None)
                         "acct" check _ eq_refl))).
Defined.

(** X26. Rebonding splits the value between what is unlocking and what is
    free. [prepareRebondExtra] hands the transaction controller the
    transferable balance, fees not ignored, and either a single REBOND or a
    REBOND followed by a BOND_EXTRA; the values of these transactions add
    up to the value asked for, the REBOND never takes more than the
    unlocking balance, and a BOND_EXTRA is there only for a positive
    remainder. [prepareRebondNominate] hands over the same transactions
    followed by one NOMINATE of the targets. *)
Theorem rebond_splits_the_value :
  forall (prepareSubmittableTransactions :
            SubstrateAddress -> Z -> list SubstrateTransactionConfig -> Promise string)
         (api : StakingApi.t) (publicKey : SubstrateAddress) (tip value : Z)
         (targets : list SubstrateAddress + SubstrateAddress)
         (transferable unlocking : Z),
    getTransferableBalance (node api) publicKey false false = Fulfilled transferable ->
    getUnlockingBalance api publicKey = Fulfilled unlocking ->
    exists configs,
      prepareRebondExtra prepareSubmittableTransactions api publicKey tip value
      = then_ (prepareSubmittableTransactions publicKey transferable configs)
              (fun encoded => [encoded])
      /\ prepareRebondNominate prepareSubmittableTransactions api publicKey tip targets value
         = then_ (prepareSubmittableTransactions publicKey transferable
                    (configs
                     ++ [ {| configType := SubstrateTransactionType.NOMINATE; tip := tip;
                             configArgs :=
                               TransactionArgs.ofTargets (targetList targets) |} ]))
                 (fun encoded => [encoded])
      /\ Spec.total (TransactionSpec.configValues configs) = value
      /\ (value <= unlocking
          /\ configs
             = [ {| configType := SubstrateTransactionType.REBOND; tip := tip;
                    configArgs := TransactionArgs.ofValue value |} ]
          \/ unlocking < value
             /\ configs
                = [ {| configType := SubstrateTransactionType.REBOND; tip := tip;
                       configArgs := TransactionArgs.ofValue unlocking |};
                    {| configType := SubstrateTransactionType.BOND_EXTRA; tip := tip;
                       configArgs := TransactionArgs.ofValue (value - unlocking) |} ]).
Proof.
  intros prepare api publicKey tip value targets transferable unlocking
         Htransferable Hunlocking.
  unfold prepareRebondExtra, prepareRebondNominate.
  rewrite Htransferable, Hunlocking. cbn [all2 bind fst snd].
  destruct (Z.gtb_spec value unlocking) as [Hgt|Hle].
  - eexists. split; [reflexivity|]. split; [reflexivity|].
    split; [unfold Spec.total; simpl; lia|].
    right. split; [lia | reflexivity].
  - eexists. split; [reflexivity|]. split; [reflexivity|].
    split; [unfold Spec.total; simpl; lia|].
    left. split; [lia | reflexivity].
Qed.

(** The account "acct" has 600 unlocking: rebonding 1000 takes the 600 and
    bonds 400 more; rebonding 250 takes them from what is unlocking. *)
Lemma rebond_splits_the_value_witness :
  prepareRebondExtra TransactionSpec.encodeValues (stakingApi None) "acct" 0 1000
  = Fulfilled ["600,400"]
  /\ prepareRebondExtra TransactionSpec.encodeValues (stakingApi None) "acct" 0 250
     = Fulfilled ["250"]
  /\ exists configs,
       prepareRebondExtra TransactionSpec.encodeValues (stakingApi None) "acct" 0 1000
       = then_ (TransactionSpec.encodeValues "acct" 4000 configs) (fun encoded => [encoded])
       /\ Spec.total (TransactionSpec.configValues configs) = 1000.
Proof.
  split; [vm_compute; reflexivity|]. split; [vm_compute; reflexivity|].
  destruct (rebond_splits_the_value TransactionSpec.encodeValues (stakingApi None) "acct"
              0 1000 (inr "v1") 4000 600 eq_refl eq_refl)
    as (configs & Hextra & _ & Htotal & _).
  exists configs. split; [exact Hextra | exact Htotal].
Defined.

End DelegationFacts.
